(** * memefax: crawler, media fetcher, manifest and warehouse importer

    A shallow embedding of the ingestion pipeline of the repository
    (src/api_test.py, src/import_single_chat.py, src/semantic_search_poc.py,
    src/db_init.py) and of the tools that read what it stores
    (src/generate_chat_memo.py, src/memefax_ui_test.py, src/sqlite_to_json.py),
    together with the properties its design document states about it and
    further properties the code shows.

    Conventions of the embedding.
    - Python [int] is [Z]; Python [str] is [string]; [None] is the [None] of
      an [option].
    - The clock is simulated: [asyncio.sleep d] moves the reading from [now]
      to [now + d].  The rate limiter is embedded twice.  [Limiter64] computes
      as CPython does, in IEEE binary64, every operation rounding.  [Limiter]
      is the same code over exact rationals [Q]; it threads the clock through
      the crawler and serves where rounding plays no part.
    - SQLite and Postgres tables are finite maps keyed by their primary key
      where the code addresses rows by key, and lists of rows (in insertion
      order) where it scans them.
    - Code that can raise returns an explicit result; the places where the
      source catches an exception are the places where the model does. *)

From Stdlib Require Import ZArith QArith Qround Qabs Lqa Lia String Ascii List Bool.
From Stdlib Require SpecFloat.
From stdpp Require Import base option list gmap strings fin_maps pretty.

Local Open Scope Z_scope.

(** ** Comparisons on exact rationals, as booleans *)

Definition Qltb (x y : Q) : bool := negb (Qle_bool y x).
Definition Qgeb (x y : Q) : bool := Qle_bool y x.
Definition Qgtb (x y : Q) : bool := negb (Qle_bool x y).

(** ** RateLimiter (src/api_test.py, class RateLimiter), exact clock *)

Module Limiter.

Record RateLimiter := mkRateLimiter {
  max_requests : Z;
  interval : Q;
  last_request_time : Q;
  _request_count : Z;
  _window_start : Q
}.

(** [__init__]: [1.0 / max_requests_per_second] raises ZeroDivisionError
    for 0; [now] is the reading of [time.time()]. *)
Definition init (max_requests_per_second : Z) (now : Q) : option RateLimiter :=
  if Z.eqb max_requests_per_second 0 then None
  else Some {| max_requests := max_requests_per_second;
               interval := 1 / inject_Z max_requests_per_second;
               last_request_time := 0;
               _request_count := 0;
               _window_start := now |}.

(** The three phases of [wait], each threading the limiter and the clock. *)

(** "Reset counter if we're in a new second", then count the request. *)
Definition enter_window (self : RateLimiter) (current_time : Q) : RateLimiter :=
  let self1 :=
    if Qgeb (current_time - _window_start self) 1
    then {| max_requests := max_requests self; interval := interval self;
            last_request_time := last_request_time self;
            _request_count := 0; _window_start := current_time |}
    else self in
  {| max_requests := max_requests self1; interval := interval self1;
     last_request_time := last_request_time self1;
     _request_count := _request_count self1 + 1;
     _window_start := _window_start self1 |}.

(** "If we've exceeded our rate limit, wait until the next window". *)
Definition window_sleep (self : RateLimiter) (current_time now : Q) : RateLimiter * Q :=
  if Z.ltb (max_requests self) (_request_count self) then
    let wait_time := (1 - (current_time - _window_start self))%Q in
    if Qgtb wait_time 0 then
      let now' := (now + wait_time)%Q in
      ({| max_requests := max_requests self; interval := interval self;
          last_request_time := last_request_time self;
          _request_count := 1; _window_start := now' |}, now')
    else (self, now)
  else (self, now).

(** "Ensure minimum interval between requests": it compares against the
    reading taken at the start of the call, as the source does. *)
Definition interval_sleep (self : RateLimiter) (current_time now : Q) : Q :=
  let time_since_last := (current_time - last_request_time self)%Q in
  if Qltb time_since_last (interval self)
  then (now + (interval self - time_since_last))%Q
  else now.

(** [wait self now] returns the limiter after the call and the clock
    reading at which the call completes. *)
Definition wait (self : RateLimiter) (now : Q) : RateLimiter * Q :=
  let current_time := now in
  let self1 := enter_window self current_time in
  let '(self2, now2) := window_sleep self1 current_time now in
  let now3 := interval_sleep self2 current_time now2 in
  ({| max_requests := max_requests self2; interval := interval self2;
      last_request_time := now3;
      _request_count := _request_count self2;
      _window_start := _window_start self2 |}, now3).

(** A sequence of calls on the simulated clock.  Before each call the
    caller lets [g] seconds pass (its own work); the result lists the
    clock readings at which the calls complete. *)
Fixpoint calls (self : RateLimiter) (now : Q) (gaps : list Q) : list Q :=
  match gaps with
  | [] => []
  | g :: gaps' =>
      let '(self', done) := wait self (now + g)%Q in
      done :: calls self' done gaps'
  end.

(** Consecutive entries are at least [d] apart. *)
Fixpoint spaced (d : Q) (l : list Q) : Prop :=
  match l with
  | [] => True
  | t :: l' =>
      match l' with
      | [] => True
      | t' :: _ => (t + d <= t')%Q /\ spaced d l'
      end
  end.

(** The calls that complete in the rolling window [w, w + 1). *)
Definition in_window (w t : Q) : bool := Qle_bool w t && Qltb t (w + 1).
Definition window_count (w : Q) (l : list Q) : nat :=
  length (filter (fun t => in_window w t = true) l).

End Limiter.

(** ** RateLimiter on the clock CPython has

    [time.time()] returns an IEEE binary64 number and every operation of
    [wait] rounds to one.  The operations are those of [SpecFloat], the
    Standard Library's executable specification of IEEE 754 arithmetic,
    at precision 53 and maximal exponent 1024 (round to nearest, ties to
    even). *)

Module Limiter64.

Definition float : Type := SpecFloat.spec_float.
Definition prec : Z := 53.
Definition emax : Z := 1024.

Definition add : float -> float -> float := SpecFloat.SFadd prec emax.
Definition sub : float -> float -> float := SpecFloat.SFsub prec emax.
Definition div : float -> float -> float := SpecFloat.SFdiv prec emax.
Definition ltb : float -> float -> bool := SpecFloat.SFltb.
Definition leb : float -> float -> bool := SpecFloat.SFleb.

(** [float(z)]: the conversion Python applies to an int operand, and the
    reading of a literal such as [1.0]. *)
Definition of_int (z : Z) : float := SpecFloat.binary_normalize prec emax z 0 false.

(** The rational a finite float stands for. *)
Definition value (x : float) : Q :=
  match x with
  | SpecFloat.S754_finite s m e =>
      (inject_Z (if s then Z.neg m else Z.pos m) * 2 ^ e)%Q
  | _ => 0%Q
  end.

Record RateLimiter := mkRateLimiter {
  max_requests : Z;
  interval : float;
  last_request_time : float;
  _request_count : Z;
  _window_start : float
}.

(** [__init__]: [1.0 / max_requests_per_second] raises ZeroDivisionError
    for 0 and OverflowError for an int beyond the floats. *)
Definition init (max_requests_per_second : Z) (now : float) : option RateLimiter :=
  if Z.eqb max_requests_per_second 0 then None
  else
    match of_int max_requests_per_second with
    | SpecFloat.S754_infinity _ => None
    | d =>
        Some {| max_requests := max_requests_per_second;
                interval := div (of_int 1) d;
                last_request_time := of_int 0;
                _request_count := 0;
                _window_start := now |}
    end.

(** "Reset counter if we're in a new second", then count the request. *)
Definition enter_window (self : RateLimiter) (current_time : float) : RateLimiter :=
  let self1 :=
    if leb (of_int 1) (sub current_time (_window_start self))
    then {| max_requests := max_requests self; interval := interval self;
            last_request_time := last_request_time self;
            _request_count := 0; _window_start := current_time |}
    else self in
  {| max_requests := max_requests self1; interval := interval self1;
     last_request_time := last_request_time self1;
     _request_count := _request_count self1 + 1;
     _window_start := _window_start self1 |}.

(** "If we've exceeded our rate limit, wait until the next window". *)
Definition window_sleep (self : RateLimiter) (current_time now : float)
    : RateLimiter * float :=
  if Z.ltb (max_requests self) (_request_count self) then
    let wait_time := sub (of_int 1) (sub current_time (_window_start self)) in
    if ltb (of_int 0) wait_time then
      let now' := add now wait_time in
      ({| max_requests := max_requests self; interval := interval self;
          last_request_time := last_request_time self;
          _request_count := 1; _window_start := now' |}, now')
    else (self, now)
  else (self, now).

(** "Ensure minimum interval between requests". *)
Definition interval_sleep (self : RateLimiter) (current_time now : float) : float :=
  let time_since_last := sub current_time (last_request_time self) in
  if ltb time_since_last (interval self)
  then add now (sub (interval self) time_since_last)
  else now.

Definition wait (self : RateLimiter) (now : float) : RateLimiter * float :=
  let current_time := now in
  let self1 := enter_window self current_time in
  let '(self2, now2) := window_sleep self1 current_time now in
  let now3 := interval_sleep self2 current_time now2 in
  ({| max_requests := max_requests self2; interval := interval self2;
      last_request_time := now3;
      _request_count := _request_count self2;
      _window_start := _window_start self2 |}, now3).

(** A sequence of calls; before each one the caller lets [g] seconds
    pass.  The result lists the readings at which the calls complete. *)
Fixpoint calls (self : RateLimiter) (now : float) (gaps : list float) : list float :=
  match gaps with
  | [] => []
  | g :: gaps' =>
      let '(self', done) := wait self (add now g) in
      done :: calls self' done gaps'
  end.

End Limiter64.

(** ** Python values used by the code *)

(** JSON values, as [json.loads] returns them and [json.dumps] takes them.
    A [JObj] is a Python dict in insertion order; only integer numbers occur
    in the records the crawler writes. *)
#[warnings="-register-all"]
Inductive json :=
| JNull
| JBool (b : bool)
| JNum (n : Z)
| JStr (s : string)
| JArr (items : list json)
| JObj (fields : list (string * json)).

Abbreviation dict := (list (string * json)).

(** [d.get(key)]: the value, or [None] (here [JNull]) when the key is absent. *)
Fixpoint dict_get (d : dict) (key : string) : json :=
  match d with
  | [] => JNull
  | (k, v) :: d' => if String.eqb k key then v else dict_get d' key
  end.

Definition dict_keys (d : dict) : list string := map fst d.

(** The content of a TEXT column that holds serialised JSON.  [Dumped j] is
    the text [json.dumps(j)], on which [json.loads] returns [j]; [Raw s] is
    any other text [s], on which [json.loads] raises. *)
Inductive text_json :=
| Dumped (j : json)
| Raw (s : string).

(** Equality of JSON values and of stored texts is decidable, so that the
    SQL comparisons on them compute. *)
Definition json_eq_dec : forall a b : json, {a = b} + {a <> b}.
Proof.
  fix IH 1. intros a b. decide equality.
  - apply Bool.bool_dec.
  - apply Z.eq_dec.
  - apply String.string_dec.
  - apply (List.list_eq_dec IH).
  - apply List.list_eq_dec. intros [k1 v1] [k2 v2].
    destruct (String.string_dec k1 k2) as [->|Hk]; [|right; congruence].
    destruct (IH v1 v2) as [->|Hv]; [left; reflexivity | right; congruence].
Defined.

#[global] Instance json_eq_decision : EqDecision json := json_eq_dec.

#[global] Instance text_json_eq_decision : EqDecision text_json.
Proof. solve_decision. Defined.

Module Py.
Local Open Scope string_scope.

(** [str(n)] on an int. *)
Definition str (n : Z) : string := pretty n.

(** Truth value of a str. *)
Definition truthy (s : string) : bool := negb (String.eqb s "").

(** Truth value of a stored text: [json.dumps] never yields the empty
    text. *)
Definition text_truthy (t : text_json) : bool :=
  match t with Dumped _ => true | Raw s => truthy s end.

(** [str.isspace] on the code points below 256. *)
Definition isspace (c : ascii) : bool :=
  let n := N_of_ascii c in
  ((9 <=? n) && (n <=? 13) || (28 <=? n) && (n <=? 32) || (n =? 133) || (n =? 160))%N.

Fixpoint lstrip (s : string) : string :=
  match s with
  | "" => ""
  | String c s' => if isspace c then lstrip s' else s
  end.

Fixpoint rstrip (s : string) : string :=
  match s with
  | "" => ""
  | String c s' =>
      match rstrip s' with
      | "" => if isspace c then "" else String c ""
      | r => String c r
      end
  end.

(** [s.strip()] *)
Definition strip (s : string) : string := rstrip (lstrip s).

Fixpoint split_from (word : string) (s : string) : list string :=
  match s with
  | "" => if truthy word then [word] else []
  | String c s' =>
      if isspace c
      then (if truthy word then word :: split_from "" s' else split_from "" s')
      else split_from (word ++ String c "") s'
  end.

(** [s.split()]: the maximal runs of non-space characters. *)
Definition split (s : string) : list string := split_from "" s.

(** [s.startswith(p)] *)
Definition startswith (s p : string) : bool := String.prefix p s.

(** [needle in s] *)
Fixpoint contains (needle s : string) : bool :=
  String.prefix needle s ||
  match s with "" => false | String _ s' => contains needle s' end.

(** [s.split(sep)[-1]] for a one-character separator. *)
Fixpoint after_last (sep : ascii) (s : string) : string :=
  match s with
  | "" => ""
  | String c s' =>
      if Ascii.eqb c sep then after_last sep s'
      else if contains (String sep "") s' then after_last sep s' else s
  end.

Definition all_dots (s : string) : bool :=
  forallb (Ascii.eqb ".") (list_ascii_of_string s).

Fixpoint splitext_name (stem name : string) : string :=
  match name with
  | "" => ""
  | String c rest =>
      if Ascii.eqb c "." && negb (contains "." rest)
      then (if all_dots stem then "" else name)
      else splitext_name (stem ++ String c "") rest
  end.

(** The second component of [os.path.splitext(p)] (POSIX): the text from
    the last dot of the last path component, unless only dots precede it. *)
Definition splitext (p : string) : string := splitext_name "" (after_last "/" p).

(** [s.endswith(c)] for one character. *)
Fixpoint endswith_char (s : string) (c : ascii) : bool :=
  match s with
  | "" => false
  | String x "" => Ascii.eqb x c
  | String _ s' => endswith_char s' c
  end.

(** [os.path.join(a, b)] for a relative [b]. *)
Definition path_join (a b : string) : string :=
  if negb (truthy a) || endswith_char a "/" then a ++ b
  else a ++ "/" ++ b.

(** [f"{x:.1f}"]: one decimal, ties to even.  The floats the code formats
    are an int below 2^53 divided by a power of 1024, which binary floating
    point represents exactly, so the exact rational stands for them. *)
Definition format_1f (x : Q) : string :=
  let t := (Qabs x * 10)%Q in
  let q := Qfloor t in
  let frac := (t - inject_Z q)%Q in
  let r := if Qltb frac (1#2) then q
           else if Qltb (1#2) frac then q + 1
           else if Z.even q then q else q + 1 in
  (if Qltb x 0 then "-" else "") ++ pretty (r / 10) ++ "." ++ pretty (r mod 10).
End Py.

(** An operation that may raise: the exception itself is never inspected by
    the code (it is printed), so none is carried. *)
Inductive outcome (A : Type) :=
| Value (a : A)
| Exception.
Arguments Value {A} a.
Arguments Exception {A}.

(** Truth value of a Python object held as JSON. *)
Definition json_truthy (j : json) : bool :=
  match j with
  | JNull => false
  | JBool b => b
  | JNum n => negb (Z.eqb n 0)
  | JStr s => Py.truthy s
  | JArr items => match items with [] => false | _ => true end
  | JObj fields => match fields with [] => false | _ => true end
  end.

Definition json_of_option_string (o : option string) : json :=
  match o with Some s => JStr s | None => JNull end.

(** ** The provider's objects (telethon.tl.types), as far as the code reads them *)

Module Telethon.

Inductive Peer :=
| PeerUser (user_id : Z)
| PeerChannel (channel_id : Z)
| PeerChat (chat_id : Z)
| PeerOther.

Inductive Entity :=
| User (id : Z) (first_name last_name username : option string) (bot : bool)
| Chat (id : Z) (title : string)
| Channel (id : Z) (title : string) (username : option string)
| OtherEntity (id : Z).

Inductive DocumentAttribute :=
| DocumentAttributeFilename (file_name : string)
| DocumentAttributeOther.

Record Document := {
  size : Z;
  mime_type : option string;
  attributes : list DocumentAttribute
}.

(** [MessageMediaDocument.document] is optional in the provider's schema;
    [MessageMediaOther] stands for every other media class (geo, contact,
    poll, web page, ...), with its class name. *)
Inductive MessageMedia :=
| MessageMediaPhoto
| MessageMediaDocument (document : option Document)
| MessageMediaOther (class_name : string).

(** A [datetime] enters the code only through [isoformat()] and
    [strftime("%Y%m%d_%H%M%S")]. *)
Record datetime := {
  isoformat : string;
  strftime_Ymd_HMS : string
}.

Record Message := {
  id : Z;
  date : datetime;
  from_id : option Peer;
  text : option string;
  reply_to_msg_id : option Z;
  forward : option (option Peer);   (* message.forward, then its from_id *)
  media : option MessageMedia;
  sender : option Entity
}.

Definition entity_id (e : Entity) : Z :=
  match e with
  | User i _ _ _ _ | Chat i _ | Channel i _ _ | OtherEntity i => i
  end.

(** A remote chat as the client sees it: its messages in the order
    [iter_messages] yields them, the advisory total the provider reports
    for a [min_id] query, and what [download_media] does for a message
    ([Some n]: writes a file of [n] bytes; [None]: raises). *)
Record Client := {
  history : list Message;
  total_with_min_id : Z -> Z;
  download_media : Message -> option Z
}.

(** [client.iter_messages(chat, min_id=m)]: "all the messages with a lower
    (older) ID or equal to this will be excluded"; without [min_id], all. *)
Definition iter_messages (c : Client) (min_id : option Z) : list Message :=
  match min_id with
  | Some m => filter (fun msg => m < id msg) (history c)
  | None => history c
  end.

(** [client.get_messages(...).total] *)
Definition get_messages_total (c : Client) (min_id : option Z) : Z :=
  match min_id with
  | Some m => total_with_min_id c m
  | None => Z.of_nat (length (history c))
  end.

End Telethon.

(** ** The per-chat record store (table [messages], created in src/api_test.py) *)

Module Messages.

(** One row of [messages]; [sender] and [media_files] hold serialised
    JSON, [date] and [date_retrieved] hold ISO texts. *)
Record Row := {
  id : Z;
  date : string;
  date_retrieved : option string;
  from_id : option Z;
  text : option string;
  reply_to_msg_id : option Z;
  forward_from : option Z;
  media_type : option string;
  sender : option text_json;
  media_files : option text_json
}.

End Messages.

(** ** The crawler (src/api_test.py) *)

Module Crawler.
Import Telethon.
Local Open Scope string_scope.

Definition MAX_REQUESTS_PER_SECOND : Z := 50.
Definition MAX_MEDIA_SIZE : Z := 50 * 1024 * 1024.

Fixpoint format_size_units (units : list string) (size_bytes : Q) : string :=
  match units with
  | [] => Py.format_1f size_bytes ++ "TB"
  | unit :: rest =>
      if Qltb size_bytes 1024 then Py.format_1f size_bytes ++ unit
      else format_size_units rest (size_bytes / 1024)%Q
  end.

Definition format_size (size_bytes : Z) : string :=
  format_size_units ["B"; "KB"; "MB"; "GB"] (inject_Z size_bytes).

Definition get_display_name (entity : Entity) : string :=
  match entity with
  | User _ first_name last_name _ _ =>
      Py.strip (default "None" first_name ++ " " ++
                match last_name with
                | Some l => if Py.truthy l then l else ""
                | None => ""
                end)
  | Chat _ title | Channel _ title _ => title
  | OtherEntity _ => "Unknown"
  end.

Definition get_peer_id (peer : Peer) : option Z :=
  match peer with
  | PeerUser user_id => Some user_id
  | PeerChannel channel_id => Some channel_id
  | PeerChat chat_id => Some chat_id
  | PeerOther => None
  end.

Fixpoint first_file_name (attrs : list DocumentAttribute) : option string :=
  match attrs with
  | [] => None
  | DocumentAttributeFilename file_name :: _ => Some file_name
  | DocumentAttributeOther :: rest => first_file_name rest
  end.

Definition mime_kind (mime_type : string) : option (string * string) :=
  if Py.startswith mime_type "video/" then Some ("video", ".mp4")
  else if Py.startswith mime_type "audio/"
  then Some ("audio", if Py.contains "mpeg" mime_type then ".mp3" else ".ogg")
  else if Py.startswith mime_type "image/"
  then Some ("photo", "." ++ Py.after_last "/" mime_type)
  else None.

(** [get_media_type]: [Value None] is the pair [(None, None)]. *)
Definition get_media_type (media : MessageMedia) : outcome (option (string * string)) :=
  match media with
  | MessageMediaPhoto => Value (Some ("photo", ".jpg"))
  | MessageMediaDocument None => Exception
  | MessageMediaDocument (Some document) =>
      let by_mime :=
        match mime_type document with
        | Some m => if Py.truthy m then mime_kind m else None
        | None => None
        end in
      match by_mime with
      | Some r => Value (Some r)
      | None =>
          match first_file_name (attributes document) with
          | Some file_name =>
              let ext := Py.splitext file_name in
              Value (Some ("document", if Py.truthy ext then ext else ".dat"))
          | None => Value (Some ("document", ".dat"))
          end
      end
  | MessageMediaOther _ => Value None
  end.

Definition get_media_size (media : MessageMedia) : outcome (option Z) :=
  match media with
  | MessageMediaDocument (Some document) => Value (Some (size document))
  | MessageMediaDocument None => Exception
  | MessageMediaPhoto => Value None
  | MessageMediaOther _ => Value None
  end.

(** What the crawler acts on besides its own objects: the files on disk
    (path to size), the simulated clock, and the log of the paths for
    which [message.download_media] was called. *)
Record world := {
  fs : gmap string Z;
  now : Q;
  downloads : list string
}.

(** [media_size and media_size > MAX_MEDIA_SIZE] *)
Definition over_cap (media_size : option Z) : bool :=
  match media_size with
  | Some n => negb (Z.eqb n 0) && (MAX_MEDIA_SIZE <? n)%Z
  | None => false
  end.

Definition skipped_descriptor (media_size : Z) : dict :=
  [ ("type", JStr "skipped");
    ("filename", JNull);
    ("size", JNum media_size);
    ("skipped_reason",
      JStr ("File size (" ++ format_size media_size ++ ") exceeds limit of "
            ++ format_size MAX_MEDIA_SIZE)) ].

Definition file_descriptor (media_type filename : string) (size : Z) : dict :=
  [ ("type", JStr media_type); ("filename", JStr filename); ("size", JNum size) ].

Definition media_filename (message : Message) (media_type extension : string) : string :=
  media_type ++ "_" ++ Py.str (id message) ++ "_"
    ++ strftime_Ymd_HMS (date message) ++ extension.

(** The part of [download_media_file] after the size check and the type
    lookup: reuse the file when it is on disk, else throttle and download. *)
Definition fetch (c : Client) (message : Message) (media_dir media_type extension : string)
    (rate_limiter : Limiter.RateLimiter) (w : world)
    : option dict * Limiter.RateLimiter * world :=
  let filename := media_filename message media_type extension in
  let filepath := Py.path_join media_dir filename in
  match fs w !! filepath with
  | Some on_disk => (Some (file_descriptor media_type filename on_disk), rate_limiter, w)
  | None =>
      let '(rate_limiter', t) := Limiter.wait rate_limiter (now w) in
      let w1 := {| fs := fs w; now := t; downloads := downloads w ++ [filepath] |} in
      match download_media c message with
      | None => (None, rate_limiter', w1)
      | Some actual_size =>
          (Some (file_descriptor media_type filename actual_size), rate_limiter',
           {| fs := <[filepath := actual_size]> (fs w1); now := now w1;
              downloads := downloads w1 |})
      end
  end.

(** [download_media_file]: every exception of the body is caught and turns
    into [None]. *)
Definition download_media_file (c : Client) (message : Message) (media_dir : string)
    (rate_limiter : Limiter.RateLimiter) (w : world)
    : option dict * Limiter.RateLimiter * world :=
  match media message with
  | None => (None, rate_limiter, w)
  | Some m =>
      match get_media_size m with
      | Exception => (None, rate_limiter, w)
      | Value media_size =>
          if over_cap media_size
          then (Some (skipped_descriptor (default 0 media_size)), rate_limiter, w)
          else
            match get_media_type m with
            | Exception => (None, rate_limiter, w)
            | Value None => (None, rate_limiter, w)
            | Value (Some (media_type, extension)) =>
                if negb (Py.truthy media_type) then (None, rate_limiter, w)
                else fetch c message media_dir media_type extension rate_limiter w
            end
      end
  end.

(** The dict [message_data] built in [download_messages]. *)
Record message_data := {
  md_id : Z;
  md_date : string;
  md_from_id : option Z;
  md_text : option string;
  md_reply_to_msg_id : option Z;
  md_forward_from : option Z;
  md_media_type : option string;
  md_media_files : list dict;
  md_sender : option dict          (* the key is set only when there is a sender *)
}.

Module Database.

(** The table, keyed by its primary key [id]. *)
Abbreviation t := (gmap Z Messages.Row).

(** [SELECT MAX(id) FROM messages]: NULL on an empty table. *)
Definition select_max_id (self : t) : option Z :=
  match (map_to_list self).*1 with
  | [] => None
  | k :: ks => Some (foldr Z.max k ks)
  end.

(** [result[0] if result and result[0] is not None else 0] *)
Definition get_latest_message_id (self : t) : Z :=
  default 0 (select_max_id self).

(** [insert_message]: INSERT OR REPLACE keyed by [id]; [retrieved] is the
    text of [datetime.now()].  The date text comes from [isoformat()]
    and parses back to itself; no statement of the body raises on the
    dict the crawler builds, so the result is [True]. *)
Definition insert_message (self : t) (m : message_data) (retrieved : string) : t * bool :=
  let sender_json :=
    match md_sender m with
    | Some d => if json_truthy (JObj d) then Some (Dumped (JObj d)) else None
    | None => None
    end in
  let media_files_json :=
    if json_truthy (JArr (map JObj (md_media_files m)))
    then Some (Dumped (JArr (map JObj (md_media_files m)))) else None in
  (<[ md_id m :=
        {| Messages.id := md_id m;
           Messages.date := md_date m;
           Messages.date_retrieved := Some retrieved;
           Messages.from_id := md_from_id m;
           Messages.text := md_text m;
           Messages.reply_to_msg_id := md_reply_to_msg_id m;
           Messages.forward_from := md_forward_from m;
           Messages.media_type := md_media_type m;
           Messages.sender := sender_json;
           Messages.media_files := media_files_json |} ]> self, true).

End Database.

Definition media_class_name (m : MessageMedia) : string :=
  match m with
  | MessageMediaPhoto => "MessageMediaPhoto"
  | MessageMediaDocument _ => "MessageMediaDocument"
  | MessageMediaOther class_name => class_name
  end.

Definition sender_info (e : Entity) : dict :=
  [ ("id", JNum (entity_id e));
    ("name", JStr (get_display_name e));
    ("username", match e with
                 | User _ _ _ username _ | Channel _ _ username => json_of_option_string username
                 | _ => JNull
                 end);
    ("bot", match e with User _ _ _ _ bot => JBool bot | _ => JBool false end) ].

Definition make_message_data (message : Message) (media_info : option dict) : message_data :=
  {| md_id := id message;
     md_date := isoformat (date message);
     md_from_id := match from_id message with Some p => get_peer_id p | None => None end;
     md_text := text message;
     md_reply_to_msg_id := reply_to_msg_id message;
     md_forward_from := match forward message with
                        | Some (Some p) => get_peer_id p
                        | _ => None
                        end;
     md_media_type := media_class_name <$> media message;
     md_media_files := match media_info with
                       | Some d => if json_truthy (JObj d) then [d] else []
                       | None => []
                       end;
     md_sender := sender_info <$> sender message |}.

(** The state the message loop of [download_messages] carries. *)
Record loop_state := {
  db : Database.t;
  rate_limiter : Limiter.RateLimiter;
  env : world;
  messages : list message_data;   (* the batch written to the snapshot file *)
  messages_processed : Z;
  visited : list Message          (* the messages the iterator yielded *)
}.

(** One turn of [async for message in message_iterator]; [stamp] renders
    [datetime.now()] at a clock reading. *)
Definition process_message (c : Client) (media_dir : string) (stamp : Q -> string)
    (st : loop_state) (message : Message) : loop_state :=
  let '(rl1, t1) := Limiter.wait (rate_limiter st) (now (env st)) in
  let w1 := {| fs := fs (env st); now := t1; downloads := downloads (env st) |} in
  let '(media_info, rl2, w2) :=
    match media message with
    | Some _ => download_media_file c message media_dir rl1 w1
    | None => (None, rl1, w1)
    end in
  let data := make_message_data message media_info in
  let '(db', inserted) := Database.insert_message (db st) data (stamp (now w2)) in
  {| db := db'; rate_limiter := rl2; env := w2;
     messages := if inserted then messages st ++ [data] else messages st;
     messages_processed := if inserted then messages_processed st + 1 else messages_processed st;
     visited := visited st ++ [message] |}.

(** [min_id] argument of the iteration: [client.iter_messages(chat,
    min_id=latest_msg_id) if latest_msg_id else client.iter_messages(chat)]. *)
Definition iteration_min_id (latest_msg_id : Z) : option Z :=
  if negb (Z.eqb latest_msg_id 0) then Some latest_msg_id else None.

(** [download_messages]: the state after the run and the returned flag.
    The snapshot file is represented by the batch [messages].  The calls
    to the provider are taken not to raise: a raise would end the run with
    False, the rows upserted so far staying in the store. *)
Definition download_messages (c : Client) (media_dir : string) (stamp : Q -> string)
    (store : Database.t) (w : world) : loop_state * bool :=
  let latest_msg_id := Database.get_latest_message_id store in
  match Limiter.init MAX_REQUESTS_PER_SECOND (now w) with
  | None => ({| db := store; rate_limiter := Limiter.mkRateLimiter 0 0 0 0 0; env := w;
                messages := []; messages_processed := 0; visited := [] |}, false)
  | Some rl0 =>
      let '(rl1, t1) := Limiter.wait rl0 (now w) in
      let st0 := {| db := store; rate_limiter := rl1;
                    env := {| fs := fs w; now := t1; downloads := downloads w |};
                    messages := []; messages_processed := 0; visited := [] |} in
      let total_count := get_messages_total c (iteration_min_id latest_msg_id) in
      if Z.eqb total_count 0 then (st0, true)
      else
        (fold_left (process_message c media_dir stamp)
           (iter_messages c (iteration_min_id latest_msg_id)) st0, true)
  end.

End Crawler.

(** ** The manifest store (src/api_test.py, class ManifestDatabase) *)

(** [d[key]]: [None] stands for KeyError. *)
Fixpoint dict_index (d : dict) (key : string) : option json :=
  match d with
  | [] => None
  | (k, v) :: d' => if String.eqb k key then Some v else dict_index d' key
  end.

(** [key in d] *)
Definition dict_mem (d : dict) (key : string) : bool :=
  match dict_index d key with Some _ => true | None => false end.

Definition is_null (j : json) : bool :=
  match j with JNull => true | _ => false end.

Module Manifest.
Local Open Scope string_scope.

(** One row of [chats].  The three timestamps the code writes are
    instants (microseconds since the epoch) standing for their
    [isoformat()] text; the order of the texts of UTC instants is the
    order of the instants. *)
Record Row := {
  chat_id : Z;
  name : json;
  type : json;
  username : json;
  first_seen : Z;
  last_seen : Z;
  last_updated : Z;
  join_date : json;
  broadcast : json;
  participants_count : json;
  kicked_count : json;
  left_count : json;
  online_count : json;
  messages_count : json;
  last_message_date : json;
  first_message_date : json;
  created_date : json;
  phone : json;
  is_bot : json
}.

(** The dict [chat_data]: [chat_data['chat_id']] is [entity.id], an int;
    every other key is in [fields].  The values [get_full_chat_info] puts
    there are None, booleans, ints and texts (a datetime as its text), all
    of which sqlite3 binds. *)
Record chat_data := {
  cd_chat_id : Z;
  fields : dict
}.

(** The table, keyed by its primary key. *)
Abbreviation t := (gmap Z Row).

(** The row both statements write, given the timestamps and join date. *)
Definition make_row (d : chat_data) (name type : json)
    (first_seen last_seen last_updated : Z) (join_date : json) : Row :=
  {| chat_id := cd_chat_id d;
     name := name;
     type := type;
     username := dict_get (fields d) "username";
     first_seen := first_seen;
     last_seen := last_seen;
     last_updated := last_updated;
     join_date := join_date;
     broadcast := dict_get (fields d) "broadcast";
     participants_count := dict_get (fields d) "participants_count";
     kicked_count := dict_get (fields d) "kicked_count";
     left_count := dict_get (fields d) "left_count";
     online_count := dict_get (fields d) "online_count";
     messages_count := dict_get (fields d) "messages_count";
     last_message_date := dict_get (fields d) "last_message_date";
     first_message_date := dict_get (fields d) "first_message_date";
     created_date := dict_get (fields d) "created_date";
     phone := dict_get (fields d) "phone";
     is_bot := dict_get (fields d) "is_bot" |}.

(** [update_chat]: [current_time] is the reading of
    [datetime.now(timezone.utc)].  A missing 'name' or 'type' key
    (KeyError) and a None for these NOT NULL columns (IntegrityError) are
    caught by the [except] of the method: the table is unchanged and the
    result is False. *)
Definition update_chat (self : t) (d : chat_data) (current_time : Z) : t * bool :=
  match self !! cd_chat_id d with
  | Some existing =>
      (* Preserve join_date if it exists *)
      let join :=
        if negb (dict_mem (fields d) "join_date") && json_truthy (join_date existing)
        then join_date existing
        else dict_get (fields d) "join_date" in
      match dict_index (fields d) "name", dict_index (fields d) "type" with
      | Some name, Some type =>
          if is_null name || is_null type then (self, false)
          else
            (* UPDATE chats SET ... WHERE chat_id = ?: first_seen is not
               among the assigned columns *)
            (<[ cd_chat_id d :=
                  make_row d name type (first_seen existing) current_time current_time join ]>
               self, true)
      | _, _ => (self, false)
      end
  | None =>
      match dict_index (fields d) "name", dict_index (fields d) "type" with
      | Some name, Some type =>
          if is_null name || is_null type then (self, false)
          else
            (<[ cd_chat_id d :=
                  make_row d name type current_time current_time current_time
                    (dict_get (fields d) "join_date") ]> self, true)
      | _, _ => (self, false)
      end
  end.

(** Successive calls, as in the loop of [list_chats] and across runs:
    each call comes with the clock reading it takes. *)
Fixpoint update_chats (self : t) (calls : list (chat_data * Z)) : t :=
  match calls with
  | [] => self
  | (d, current_time) :: rest => update_chats (update_chat self d current_time).1 rest
  end.


End Manifest.

(** ** The embedding client (src/import_single_chat.py, src/semantic_search_poc.py) *)

Module Embedding.
Local Open Scope string_scope.

(** A numpy array of float32 entries, by rank: shape (), (n,) or
    (n, cols).  Arrays of higher rank behave like those of rank 2 in the
    code below and are left out. *)
Inductive ndarray :=
| Scalar (x : Q)
| Vector (entries : list Q)
| Matrix (cols : nat) (rows : list (list Q)).

(** What the statements of the [try] block yield up to the shape test:
    [Failure] when [requests.post], [raise_for_status], [response.json()],
    the indexing [[0]["embedding"][0]] or [np.array] raises; otherwise the
    array [np.array(response.json()[0]["embedding"][0], dtype=float32)]. *)
Inductive reply :=
| Failure
| Decoded (emb : ndarray).

(** [np.zeros(dim, dtype=np.float32)] *)
Definition zeros (dim : nat) : ndarray := Vector (replicate dim 0%Q).

(** [emb.shape[0]]; IndexError on shape (). *)
Definition shape0 (emb : ndarray) : option nat :=
  match emb with
  | Scalar _ => None
  | Vector entries => Some (length entries)
  | Matrix _ rows => Some (length rows)
  end.

(** [emb[:dim]]: a slice of the first axis. *)
Definition slice (emb : ndarray) (dim : nat) : ndarray :=
  match emb with
  | Scalar x => Scalar x
  | Vector entries => Vector (take dim entries)
  | Matrix cols rows => Matrix cols (take dim rows)
  end.

(** [np.pad(emb, (0, k))]: [k] zeros after the end of every axis. *)
Definition pad (emb : ndarray) (k : nat) : ndarray :=
  match emb with
  | Scalar x => Scalar x
  | Vector entries => Vector (entries ++ replicate k 0%Q)%list
  | Matrix cols rows =>
      Matrix (cols + k)
        (map (fun row => row ++ replicate k 0%Q) rows
           ++ replicate k (replicate (cols + k) 0%Q))%list
  end.

(** [get_embedding_from_server(text, dim)]; [server] is the embedding
    service, from the request content to what comes back.  Both copies
    of the function in the repository are this one. *)
Definition get_embedding_from_server (server : string -> reply)
    (text : string) (dim : nat) : ndarray :=
  if negb (Py.truthy text) || negb (Py.truthy (Py.strip text)) then zeros dim
  else
    match server (text ++ "<|endoftext|>") with
    | Failure => zeros dim
    | Decoded emb =>
        match shape0 emb with
        | None => zeros dim
        | Some n =>
            if (dim <? n)%nat then slice emb dim
            else if (n <? dim)%nat then pad emb (dim - n)
            else emb
        end
    end.

End Embedding.

(** ** The warehouse (tables of src/db_init.py) *)

Module Warehouse.

Record source_row := {
  source_id_ : Z;
  source_name : option string;
  source_kind : string
}.

Record contact_row := {
  contact_id_ : Z;
  canonical : option text_json
}.

Record document_row := {
  document_id_ : Z;
  source_id : Z;
  ext_id : string;
  thread_id : string;
  sent_ts : string;
  author_contact_id : option Z;
  raw_body : string;
  clean_body : string
}.

Record attachment_row := {
  attachment_id_ : Z;
  attachment_document_id : Z;
  filename : json;        (* [JNull] is SQL NULL *)
  mime_type : json;
  file_path : json
}.

Record passage_row := {
  passage_id_ : Z;
  passage_document_id : Z;
  level : string;
  start_tok : Z;
  end_tok : Z;
  passage_text : string
}.

Record passage_embedding_row := {
  passage_embedding_id_ : Z;
  passage_id : Z;
  model_id : string;
  embedding : Embedding.ndarray
}.

(** The six tables the importer writes, each in insertion order. *)
Record tables := {
  source : list source_row;
  contact : list contact_row;
  document : list document_row;
  attachment : list attachment_row;
  passage : list passage_row;
  passage_embedding : list passage_embedding_row
}.

(** The BIGSERIAL sequences: the last value each has handed out. *)
Record sequences := {
  source_seq : Z;
  contact_seq : Z;
  document_seq : Z;
  attachment_seq : Z;
  passage_seq : Z;
  passage_embedding_seq : Z
}.

(** A connection with autocommit off: the tables as the open transaction
    sees them, the tables as last committed, and the sequences (which no
    rollback rewinds). *)
Record pg := {
  live : tables;
  durable : tables;
  seq : sequences
}.

Definition empty_tables : tables :=
  {| source := []; contact := []; document := []; attachment := [];
     passage := []; passage_embedding := [] |}.

(** The database right after [db_init.py]. *)
Definition initial : pg :=
  {| live := empty_tables; durable := empty_tables;
     seq := {| source_seq := 0; contact_seq := 0; document_seq := 0;
               attachment_seq := 0; passage_seq := 0; passage_embedding_seq := 0 |} |}.

(** The row counts of the six tables. *)
Definition row_counts (tb : tables) : list nat :=
  [ length (source tb); length (contact tb); length (document tb);
    length (attachment tb); length (passage tb); length (passage_embedding tb) ].

End Warehouse.

(** ** The importer (src/import_single_chat.py) *)

Module Importer.
Import Warehouse.
Local Open Scope string_scope.

(** The statements [import_chat] sends through the cursor, with their
    parameters. *)
Inductive stmt :=
| SelectSource (name : string)
| InsertSource (name kind : string)
| SelectContact (canonical : text_json)
| InsertContact (canonical : text_json)
| InsertDocument (source_id : Z) (ext_id thread_id sent_ts : string)
                 (author_contact_id : option Z) (body : string)
| InsertAttachment (document_id : Z) (filename mime_type file_path : json)
| InsertPassage (document_id : Z) (level : string) (start_tok end_tok : Z) (text : string)
| InsertPassageEmbedding (passage_id : Z) (model_id : string) (embedding : Embedding.ndarray)
| Commit.

(** A computation on the connection that may raise; in both cases the
    connection is as the computation left it. *)
Inductive res (A : Type) :=
| Ok (a : A) (s : pg)
| Raised (s : pg).
Arguments Ok {A} a s.
Arguments Raised {A} s.

Definition M (A : Type) : Type := pg -> res A.

Definition ret {A} (a : A) : M A := fun s => Ok a s.
Definition bind {A B} (m : M A) (k : A -> M B) : M B :=
  fun s =>
    match m s with
    | Ok a s' => k a s'
    | Raised s' => Raised s'
    end.

#[local] Notation "x <- m ;; k" := (bind m (fun x => k))
  (at level 100, m at next level, right associativity).

Definition set_live (s : pg) (tb : tables) : pg :=
  {| live := tb; durable := durable s; seq := seq s |}.
Definition set_seq (s : pg) (sq : sequences) : pg :=
  {| live := live s; durable := durable s; seq := sq |}.

Section WithEnvironment.

(** What lies outside the program: which statements raise, and the
    embedding service.  A statement that raises leaves the connection as
    it was.  For a statement outside any [try] nothing more matters: the
    exception leaves [import_chat] and [main] closes the connection.  An
    attachment insert sits in a [try] and the run goes on after it raises;
    there [raises] stands for a refusal by the driver, which sends
    nothing (a value it cannot adapt) and leaves the transaction as it
    is.  A rejection of an attachment insert by the server, after which
    PostgreSQL refuses every further statement of the transaction and
    ends it with a rollback, is outside the model. *)
Variable raises : stmt -> bool.
Variable server : string -> Embedding.reply.

(** [pg_cur.execute(q)] as far as raising goes. *)
Definition execute (q : stmt) : M unit :=
  fun s => if raises q then Raised s else Ok tt s.

(** [pg_conn.commit()] *)
Definition commit : M unit :=
  fun s => if raises Commit then Raised s
           else Ok tt {| live := live s; durable := live s; seq := seq s |}.

(** [SELECT id FROM source WHERE name = %s], then [fetchone()]. *)
Definition select_source (name : string) : M (option Z) :=
  _ <- execute (SelectSource name);;
  fun s => Ok (source_id_ <$>
                 find (fun r => bool_decide (source_name r = Some name))
                      (source (live s))) s.

(** [INSERT INTO source ... RETURNING id]; [name] is UNIQUE. *)
Definition insert_source (name kind : string) : M Z :=
  _ <- execute (InsertSource name kind);;
  fun s =>
    let i := source_seq (seq s) + 1 in
    let sq := {| source_seq := i; contact_seq := contact_seq (seq s);
                 document_seq := document_seq (seq s);
                 attachment_seq := attachment_seq (seq s);
                 passage_seq := passage_seq (seq s);
                 passage_embedding_seq := passage_embedding_seq (seq s) |} in
    if existsb (fun r => bool_decide (source_name r = Some name)) (source (live s))
    then Raised (set_seq s sq)
    else
      Ok i (set_live (set_seq s sq)
              {| source := source (live s)
                           ++ [ {| source_id_ := i; source_name := Some name;
                                   source_kind := kind |} ];
                 contact := contact (live s); document := document (live s);
                 attachment := attachment (live s); passage := passage (live s);
                 passage_embedding := passage_embedding (live s) |}).

(** [SELECT id FROM contact WHERE canonical = %s], then [fetchone()]. *)
Definition select_contact (sender : text_json) : M (option Z) :=
  _ <- execute (SelectContact sender);;
  fun s => Ok (contact_id_ <$>
                 find (fun r => bool_decide (canonical r = Some sender))
                      (contact (live s))) s.

(** [INSERT INTO contact (canonical) VALUES (%s) RETURNING id] *)
Definition insert_contact (sender : text_json) : M Z :=
  _ <- execute (InsertContact sender);;
  fun s =>
    let i := contact_seq (seq s) + 1 in
    let sq := {| source_seq := source_seq (seq s); contact_seq := i;
                 document_seq := document_seq (seq s);
                 attachment_seq := attachment_seq (seq s);
                 passage_seq := passage_seq (seq s);
                 passage_embedding_seq := passage_embedding_seq (seq s) |} in
    Ok i (set_live (set_seq s sq)
            {| source := source (live s);
               contact := contact (live s)
                          ++ [ {| contact_id_ := i; canonical := Some sender |} ];
               document := document (live s);
               attachment := attachment (live s); passage := passage (live s);
               passage_embedding := passage_embedding (live s) |}).

(** "Contact/alias logic (simplified)" *)
Definition resolve_contact (sender : option text_json) : M (option Z) :=
  match sender with
  | Some sender =>
      if Py.text_truthy sender then
        c <- select_contact sender;;
        match c with
        | Some contact_id => ret (Some contact_id)
        | None =>
            contact_id <- insert_contact sender;;
            _ <- commit;;
            ret (Some contact_id)
        end
      else ret None
  | None => ret None
  end.

(** [INSERT INTO document ... ON CONFLICT (source_id, ext_id) DO NOTHING
    RETURNING id], then [fetchone()]: no row when the pair is taken.
    The sequence is advanced also when the insert does nothing. *)
Definition insert_document (sid : Z) (ext thread sent : string)
    (author : option Z) (body : string) : M (option Z) :=
  _ <- execute (InsertDocument sid ext thread sent author body);;
  fun s =>
    let i := document_seq (seq s) + 1 in
    let sq := {| source_seq := source_seq (seq s); contact_seq := contact_seq (seq s);
                 document_seq := i;
                 attachment_seq := attachment_seq (seq s);
                 passage_seq := passage_seq (seq s);
                 passage_embedding_seq := passage_embedding_seq (seq s) |} in
    if existsb (fun r => Z.eqb (source_id r) sid && String.eqb (ext_id r) ext)
               (document (live s))
    then Ok None (set_seq s sq)
    else
      Ok (Some i)
         (set_live (set_seq s sq)
            {| source := source (live s); contact := contact (live s);
               document := document (live s)
                           ++ [ {| document_id_ := i; source_id := sid; ext_id := ext;
                                   thread_id := thread; sent_ts := sent;
                                   author_contact_id := author;
                                   raw_body := body; clean_body := body |} ];
               attachment := attachment (live s); passage := passage (live s);
               passage_embedding := passage_embedding (live s) |}).

(** [for f in files]: the items a JSON value yields when iterated, or
    None when it is not iterable (TypeError). *)
Definition iterate (files : json) : option (list json) :=
  match files with
  | JArr items => Some items
  | JObj fields => Some (map (fun kv => JStr kv.1) fields)
  | JStr s => Some (map (fun c => JStr (String c "")) (list_ascii_of_string s))
  | JNull | JBool _ | JNum _ => None
  end.

Definition add_attachment (s : pg) (document_id : Z) (name mime path : json) : pg :=
  let i := attachment_seq (seq s) + 1 in
  let sq := {| source_seq := source_seq (seq s); contact_seq := contact_seq (seq s);
               document_seq := document_seq (seq s);
               attachment_seq := i;
               passage_seq := passage_seq (seq s);
               passage_embedding_seq := passage_embedding_seq (seq s) |} in
  set_live (set_seq s sq)
    {| source := source (live s); contact := contact (live s);
       document := document (live s);
       attachment := attachment (live s)
                     ++ [ {| attachment_id_ := i; attachment_document_id := document_id;
                             filename := name; mime_type := mime; file_path := path |} ];
       passage := passage (live s);
       passage_embedding := passage_embedding (live s) |}.

(** The body of the loop over [files], inside the [try]: the first item
    that is not a dict (no [get]) and the first insert that raises end
    the loop, the [except] prints a warning, and the rows inserted so
    far stay in the open transaction (an insert that raises is one the
    driver refuses, see [raises]). *)
Fixpoint insert_attachments (document_id : Z) (files : list json) (s : pg) : pg :=
  match files with
  | [] => s
  | JObj f :: rest =>
      let name := dict_get f "name" in
      let mime := dict_get f "mime_type" in
      let path := dict_get f "path" in
      if raises (InsertAttachment document_id name mime path) then s
      else insert_attachments document_id rest (add_attachment s document_id name mime path)
  | _ :: _ => s
  end.

(** "Attachments (if any)": the whole [try ... except Exception]. *)
Definition import_attachments (document_id : Z) (media_files : option text_json)
    (s : pg) : pg :=
  match media_files with
  | Some (Dumped files) =>
      match iterate files with
      | Some items => insert_attachments document_id items s
      | None => s
      end
  | Some (Raw _) => s
  | None => s
  end.

(** [if media_files:] around the block. *)
Definition attachments_step (document_id : Z) (media_files : option text_json)
    (s : pg) : pg :=
  match media_files with
  | Some m => if Py.text_truthy m then import_attachments document_id (Some m) s else s
  | None => s
  end.

Definition insert_passage (document_id : Z) (lvl : string) (start_ end_ : Z)
    (txt : string) : M Z :=
  _ <- execute (InsertPassage document_id lvl start_ end_ txt);;
  fun s =>
    let i := passage_seq (seq s) + 1 in
    let sq := {| source_seq := source_seq (seq s); contact_seq := contact_seq (seq s);
                 document_seq := document_seq (seq s);
                 attachment_seq := attachment_seq (seq s);
                 passage_seq := i;
                 passage_embedding_seq := passage_embedding_seq (seq s) |} in
    Ok i (set_live (set_seq s sq)
            {| source := source (live s); contact := contact (live s);
               document := document (live s); attachment := attachment (live s);
               passage := passage (live s)
                          ++ [ {| passage_id_ := i; passage_document_id := document_id;
                                  level := lvl; start_tok := start_; end_tok := end_;
                                  passage_text := txt |} ];
               passage_embedding := passage_embedding (live s) |}).

Definition insert_passage_embedding (pid : Z) (model : string)
    (emb : Embedding.ndarray) : M unit :=
  _ <- execute (InsertPassageEmbedding pid model emb);;
  fun s =>
    let i := passage_embedding_seq (seq s) + 1 in
    let sq := {| source_seq := source_seq (seq s); contact_seq := contact_seq (seq s);
                 document_seq := document_seq (seq s);
                 attachment_seq := attachment_seq (seq s);
                 passage_seq := passage_seq (seq s);
                 passage_embedding_seq := i |} in
    Ok tt (set_live (set_seq s sq)
             {| source := source (live s); contact := contact (live s);
                document := document (live s); attachment := attachment (live s);
                passage := passage (live s);
                passage_embedding :=
                  passage_embedding (live s)
                  ++ [ {| passage_embedding_id_ := i; passage_id := pid;
                          model_id := model; embedding := emb |} ] |}).

(** The test that guards the passage: [passage_text and
    len(passage_text.split()) > 10]. *)
Definition worth_embedding (passage_text : string) : bool :=
  Py.truthy passage_text && (10 <? length (Py.split passage_text))%nat.

(** "Passage chunking" and "Embedding (via llama-server)". *)
Definition import_passage (document_id : Z) (text : string) : M unit :=
  let passage_text := Py.strip text in
  if worth_embedding passage_text then
    pid <- insert_passage document_id "P" 0
            (Z.of_nat (length (Py.split passage_text))) passage_text;;
    let emb := Embedding.get_embedding_from_server server passage_text 1024 in
    insert_passage_embedding pid "llama-server" emb
  else ret tt.

(** The body of [for row in messages]; the result says whether the end
    of the body was reached ([False]: left through [continue]). *)
Definition import_record (chat_id source_id : Z) (row : Messages.Row) : M bool :=
  let msg_id := Messages.id row in
  let sent_ts := Messages.date row in
  let text := default "" (Messages.text row) in
  contact_id <- resolve_contact (Messages.sender row);;
  doc_row <- insert_document source_id (Py.str msg_id) (Py.str chat_id) sent_ts
              contact_id text;;
  match doc_row with
  | None => ret false       (* "Already exists, skip" *)
  | Some document_id =>
      _ <- (fun s => Ok tt (attachments_step document_id (Messages.media_files row) s));;
      _ <- import_passage document_id text;;
      ret true
  end.

Fixpoint import_rows (chat_id source_id : Z) (messages : list Messages.Row)
    (imported : Z) : M Z :=
  match messages with
  | [] => ret imported
  | row :: rest =>
      reached_end <- import_record chat_id source_id row;;
      if reached_end : bool then
        _ <- (if Z.eqb ((imported + 1) mod 10) 0 then commit else ret tt);;
        import_rows chat_id source_id rest (imported + 1)
      else import_rows chat_id source_id rest imported
  end.

(** [import_chat(chat_id, chat_db_path, pg_conn)]; [messages] is the
    result of [SELECT * FROM messages ORDER BY date ASC] on the chat's
    store.  The result is the number of records imported. *)
Definition import_chat (chat_id : Z) (messages : list Messages.Row) : M Z :=
  src <- select_source (Py.str chat_id);;
  source_id <- match src with
               | Some i => ret i
               | None =>
                   i <- insert_source (Py.str chat_id) "chat";;
                   _ <- commit;;
                   ret i
               end;;
  imported <- import_rows chat_id source_id messages 0;;
  _ <- commit;;
  ret imported.

End WithEnvironment.

(** A new connection to a database whose committed tables are [tb]. *)
Definition connect (tb : tables) (sq : sequences) : pg :=
  {| live := tb; durable := tb; seq := sq |}.

(** What the database holds once the connection is closed ([main] closes
    it in a [finally]): the committed tables; an open transaction is
    discarded. *)
Definition closed {A} (r : res A) : tables :=
  match r with
  | Ok _ s => durable s
  | Raised s => durable s
  end.

(** No statement raises. *)
Definition no_faults : stmt -> bool := fun _ => false.

End Importer.

(** ** More of Python's text operations (used by the tools around the pipeline) *)

Module PyText.
Local Open Scope string_scope.

(** The line feed. *)
Definition LF : ascii := ascii_of_nat 10.

(** [c.isdigit()] on the code points below 256: the ASCII digits and the
    superscripts two, three and one. *)
Definition isdigit_char (c : ascii) : bool :=
  let n := N_of_ascii c in
  ((48 <=? n) && (n <=? 57) || (n =? 178) || (n =? 179) || (n =? 185))%N.

(** [s.isdigit()]: false on the empty text. *)
Definition isdigit (s : string) : bool :=
  Py.truthy s && forallb isdigit_char (list_ascii_of_string s).

Definition decimal_value (c : ascii) : option Z :=
  let n := N_of_ascii c in
  if ((48 <=? n) && (n <=? 57))%N then Some (Z.of_N n - 48) else None.

Fixpoint int_from (acc : Z) (s : string) : option Z :=
  match s with
  | "" => Some acc
  | String c s' =>
      match decimal_value c with
      | Some d => int_from (acc * 10 + d) s'
      | None => None
      end
  end.

(** [int(s)] on a text for which [isdigit] holds; None stands for
    ValueError (a superscript digit is no decimal digit). *)
Definition int (s : string) : option Z :=
  if Py.truthy s then int_from 0 s else None.

(** [s.replace(a, b)] for one-character [a] and [b]. *)
Fixpoint replace_char (a b : ascii) (s : string) : string :=
  match s with
  | "" => ""
  | String c s' => String (if Ascii.eqb c a then b else c) (replace_char a b s')
  end.

(** [sep.join(l)] *)
Fixpoint join (sep : string) (l : list string) : string :=
  match l with
  | [] => ""
  | [x] => x
  | x :: rest => x ++ sep ++ join sep rest
  end.

(** [d.get(key, default)] *)
Definition dict_get_default (d : dict) (key : string) (default : json) : json :=
  match dict_index d key with
  | Some v => v
  | None => default
  end.

Definition json_of_option_Z (o : option Z) : json :=
  match o with Some n => JNum n | None => JNull end.

(** The value [json.loads] returns on a stored text, None standing for
    JSONDecodeError. *)
Definition loads (t : text_json) : option json :=
  match t with
  | Dumped j => Some j
  | Raw _ => None
  end.

End PyText.

(** ** The chat listing (src/api_test.py, get_full_chat_info and list_chats) *)

Module Listing.
Local Open Scope string_scope.

(** [full_chat.full_chat] of a channel, with the attributes the code reads
    through [getattr] (None when the attribute is missing or None). *)
Record ChannelFull := {
  participants_count : option Z;
  online_count : option Z;
  kicked_count : option Z;
  left_count : option Z;
  messages_count : option Z
}.

(** The entity of a dialog, with the attributes [get_full_chat_info]
    reads; [date] is the text of [entity.date.isoformat()]. *)
Inductive Entity :=
| User (id : Z) (username phone : option string) (bot : bool)
| Chat (id : Z)
| Channel (id : Z) (username : option string) (broadcast : bool) (date : option string)
| Other (id : Z) (username : option string).

Definition entity_id (e : Entity) : Z :=
  match e with
  | User i _ _ _ | Chat i | Channel i _ _ _ | Other i _ => i
  end.

Record Dialog := {
  name : string;
  entity : Entity
}.

(** The two requests to the provider; None stands for a raised
    exception.  [GetFullChatRequest] is taken with what the code reads of
    it, [len(full_chat.full_chat.participants.participants)]. *)
Record Provider := {
  GetFullChannelRequest : Z -> option ChannelFull;
  GetFullChatRequest : Z -> option nat
}.

(** [get_full_chat_info(client, dialog, entity)]: the dict [chat_info],
    its 'chat_id' apart.  An exception of a request is caught and leaves
    the dict as built so far. *)
Definition get_full_chat_info (client : Provider) (dialog : Dialog) : Manifest.chat_data :=
  let e := entity dialog in
  let head (type : string) (username : option string) : dict :=
    [ ("name", JStr (name dialog)); ("type", JStr type);
      ("username", json_of_option_string username) ] in
  {| Manifest.cd_chat_id := entity_id e;
     Manifest.fields :=
       match e with
       | Channel i username broadcast date =>
           head (if broadcast then "Channel" else "Supergroup") username
           ++ [ ("broadcast", JBool broadcast) ]
           ++ match GetFullChannelRequest client i with
              | Some full =>
                  [ ("participants_count", PyText.json_of_option_Z (participants_count full));
                    ("online_count", PyText.json_of_option_Z (online_count full));
                    ("kicked_count", PyText.json_of_option_Z (kicked_count full));
                    ("left_count", PyText.json_of_option_Z (left_count full));
                    ("messages_count", PyText.json_of_option_Z (messages_count full));
                    ("created_date", json_of_option_string date) ]
              | None => []
              end
       | Chat i =>
           head "Group" None
           ++ match GetFullChatRequest client i with
              | Some n =>
                  [ ("participants_count", JNum (Z.of_nat n));
                    ("messages_count", JNull);
                    ("created_date", JNull) ]
              | None => []
              end
       | User _ username phone bot =>
           head "User" username
           ++ [ ("phone", json_of_option_string phone); ("is_bot", JBool bot) ]
       | Other _ username => head "Unknown" username
       end%list |}.

(** The dictionaries the dialog loop of [list_chats] fills, each keyed by
    chat id, and the list [chat_manifest]. *)
Record listing := {
  chats : gmap Z Dialog;
  user_chats : gmap Z Dialog;
  group_chats : gmap Z Dialog;
  chat_manifest : list Manifest.chat_data
}.

Definition no_listing : listing :=
  {| chats := ∅; user_chats := ∅; group_chats := ∅; chat_manifest := [] |}.

(** One turn of [async for dialog in client.iter_dialogs()]. *)
Definition list_dialog (client : Provider) (l : listing) (dialog : Dialog) : listing :=
  let chat_info := get_full_chat_info client dialog in
  let chat_id := Manifest.cd_chat_id chat_info in
  let type := dict_get (Manifest.fields chat_info) "type" in
  {| chats := <[chat_id := dialog]> (chats l);
     user_chats :=
       if bool_decide (type = JStr "User") then <[chat_id := dialog]> (user_chats l)
       else user_chats l;
     group_chats :=
       if bool_decide (type = JStr "User") then group_chats l
       else if bool_decide (type = JStr "Group" \/ type = JStr "Supergroup")
       then <[chat_id := dialog]> (group_chats l)
       else group_chats l;
     chat_manifest := chat_manifest l ++ [chat_info] |}.

Definition list_dialogs (client : Provider) (dialogs : list Dialog) : listing :=
  fold_left (list_dialog client) dialogs no_listing.

End Listing.

(** ** The viewer (src/memefax_ui_test.py) *)

Module Viewer.
Local Open Scope string_scope.

(** [format_chat(chat)], on a row of [chats]. *)
Definition format_chat (chat : Manifest.Row) : dict :=
  [ ("id", JNum (Manifest.chat_id chat));
    ("name", Manifest.name chat);
    ("type", Manifest.type chat);
    ("username", Manifest.username chat);
    ("last_message_date", Manifest.last_message_date chat);
    ("messages_count", Manifest.messages_count chat);
    ("participants_count",
      if bool_decide (Manifest.type chat = JStr "Group" \/ Manifest.type chat = JStr "Channel")
      then Manifest.participants_count chat else JNull);
    ("is_bot",
      if bool_decide (Manifest.type chat = JStr "User")
      then Manifest.is_bot chat else JNull) ].

(** What [format_message] returns; [sender] is the stored text, not the
    parsed value. *)
Record message_view := {
  v_id : Z;
  v_text : string;
  v_sender : text_json;
  v_time : string;
  v_date : string;
  v_media_type : option string;
  v_media_files : json;
  v_reply_to_msg_id : option Z
}.

Section WithClock.

(** [datetime.fromisoformat(text)] rendered with "%H:%M" and "%Y-%m-%d";
    None stands for ValueError. *)
Variable strftime : string -> option (string * string).

(** [format_message(message)]; the bare [except] around [json.loads]
    leaves [media_files] the empty list. *)
Definition format_message (message : Messages.Row) : outcome message_view :=
  let media_files :=
    match Messages.media_files message with
    | Some t =>
        if Py.text_truthy t then default (JArr []) (PyText.loads t) else JArr []
    | None => JArr []
    end in
  match strftime (Messages.date message) with
  | None => Exception
  | Some (time, date) =>
      Value {| v_id := Messages.id message;
               v_text := default "" (Messages.text message);
               v_sender := match Messages.sender message with
                           | Some t => if Py.text_truthy t then t else Raw "Unknown"
                           | None => Raw "Unknown"
                           end;
               v_time := time;
               v_date := date;
               v_media_type := Messages.media_type message;
               v_media_files := media_files;
               v_reply_to_msg_id := Messages.reply_to_msg_id message |}
  end.

(** [[format_message(dict(row)) for row in cursor.fetchall()]] *)
Fixpoint format_messages (rows : list Messages.Row) : outcome (list message_view) :=
  match rows with
  | [] => Value []
  | row :: rest =>
      match format_message row with
      | Exception => Exception
      | Value v =>
          match format_messages rest with
          | Exception => Exception
          | Value vs => Value (v :: vs)
          end
      end
  end.

(** What a request for a chat yields: a 404 with its text, or the data
    handed to the templates ([initial]: the full chat view; otherwise the
    "load more" fragment). *)
Inductive response :=
| NotFound (text : string)
| Rendered (initial : bool) (chat : dict) (messages : list message_view)
           (offset : nat) (has_more : bool).

(** [get_chat(chat_id, offset)].  [manifest] is the table [chats];
    [stores chat_id] is the chat's table [messages] in the order of
    [ORDER BY date DESC], None when the chat has no database file. *)
Definition get_chat (manifest : Manifest.t) (stores : Z -> option (list Messages.Row))
    (chat_id : Z) (offset : nat) : outcome response :=
  match manifest !! chat_id with
  | None => Value (NotFound "Chat not found")
  | Some chat =>
      match stores chat_id with
      | None => Value (NotFound "Messages not found")
      | Some ordered =>
          let total_messages := length ordered in
          match format_messages (take 5 (drop offset ordered)) with
          | Exception => Exception
          | Value messages =>
              let messages := rev messages in
              if (0 <? offset)%nat then
                let next_offset := (offset + 5)%nat in
                Value (Rendered false (format_chat chat) messages next_offset
                         (next_offset <? total_messages)%nat)
              else
                Value (Rendered true (format_chat chat) messages 5
                         (5 <? total_messages)%nat)
          end
      end
  end.

End WithClock.

End Viewer.

(** ** The memo generator (src/generate_chat_memo.py) *)

Module Memo.
Local Open Scope string_scope.

(** The dict [load_messages] yields for a row. *)
Record msg := {
  m_id : Z;
  m_date : string;
  m_text : string;
  m_reply_to_msg_id : option Z;
  m_media_files : option text_json;
  m_sender : option text_json
}.

Definition load_message (row : Messages.Row) : msg :=
  {| m_id := Messages.id row;
     m_date := Messages.date row;
     m_text := default "" (Messages.text row);
     m_reply_to_msg_id := Messages.reply_to_msg_id row;
     m_media_files := Messages.media_files row;
     m_sender := Messages.sender row |}.

Section WithPython.

(** [str(x)] of a list or a dict. *)
Variable repr : json -> string.
(** [str(Path(DOWNLOAD_PATH) / str(chat_id) / "media" / filename)] *)
Variable media_path : Z -> string -> string.
(** [datetime.fromisoformat(text).strftime("%Y-%m-%d %H:%M")]; None stands
    for ValueError. *)
Variable strftime : string -> option string.

(** The text an f-string puts for a value. *)
Definition format (j : json) : string :=
  match j with
  | JNull => "None"
  | JBool true => "True"
  | JBool false => "False"
  | JNum n => Py.str n
  | JStr s => s
  | JArr _ | JObj _ => repr j
  end.

(** [format_participant(sender)]: the result is a str, or the value
    under 'name' as it is. *)
Definition format_participant (sender : dict) : json :=
  let name := PyText.dict_get_default sender "name" (JStr "Unknown") in
  let username := dict_get sender "username" in
  let is_bot := PyText.dict_get_default sender "bot" (JBool false) in
  if json_truthy is_bot && json_truthy username then JStr ("bot @" ++ format username)
  else if json_truthy username
  then JStr (format name ++ " (@" ++ format username ++ ")")
  else name.

(** The sender a line is attributed to: [{}] when the column is empty or
    holds no JSON. *)
Definition sender_of (m : msg) : json :=
  match m_sender m with
  | Some t => if Py.text_truthy t then default (JObj []) (PyText.loads t) else JObj []
  | None => JObj []
  end.

(** [media_list[0]]; None stands for the exception on a value that has no
    item 0. *)
Definition first_item (media_list : json) : option json :=
  match media_list with
  | JArr (x :: _) => Some x
  | JStr (String c _) => Some (JStr (String c ""))
  | _ => None
  end.

(** The "Attached media" suffix: the body of the [try], of which only
    JSONDecodeError is caught. *)
Definition media_suffix (m : msg) (chat_id : Z) : outcome (list string) :=
  match m_media_files m with
  | Some t =>
      if Py.text_truthy t then
        match PyText.loads t with
        | None => Value []
        | Some media_list =>
            if json_truthy media_list then
              match first_item media_list with
              | Some (JObj first_media) =>
                  let media_type := PyText.dict_get_default first_media "type" (JStr "media") in
                  match PyText.dict_get_default first_media "filename" (JStr "") with
                  | JStr filename =>
                      Value [ "(Attached media: " ++ format media_type ++ " "
                              ++ media_path chat_id filename ++ ")" ]
                  | _ => Exception
                  end
              | _ => Exception
              end
            else Value []
        end
      else Value []
  | None => Value []
  end.

(** [build_transcript_line(msg, chat_id)] *)
Definition build_transcript_line (m : msg) (chat_id : Z) : outcome string :=
  match sender_of m with
  | JObj sender =>
      let participant_display := format_participant sender in
      let text :=
        if Py.truthy (m_text m) then PyText.replace_char PyText.LF " " (m_text m) else "" in
      let reply :=
        match m_reply_to_msg_id m with
        | Some n =>
            if negb (Z.eqb n 0)
            then [ "(Replying to message id " ++ Py.str n ++ ")" ] else []
        | None => []
        end in
      match media_suffix m chat_id with
      | Exception => Exception
      | Value media =>
          let suffix_str := PyText.join " " (reply ++ media) in
          let timestamp_str := default "" (strftime (m_date m)) in
          Value (Py.strip (Py.str (m_id m) ++ " [" ++ timestamp_str ++ "] "
                           ++ format participant_display ++ ": " ++ text ++ " "
                           ++ suffix_str))
      end
  | _ => Exception
  end.

End WithPython.

End Memo.

(** ** The export tool (src/sqlite_to_json.py) *)

Module JsonExport.
Local Open Scope string_scope.

Section WithClock.

(** [datetime.fromisoformat(text).isoformat()]; None stands for
    ValueError. *)
Variable reformat : string -> option string.

(** The dict built for one row; the exception of an unreadable date is
    not caught inside the loop. *)
Definition export_message (row : Messages.Row) : outcome dict :=
  match reformat (Messages.date row) with
  | None => Exception
  | Some date =>
      let message : dict :=
        [ ("id", JNum (Messages.id row));
          ("date", JStr date);
          ("from_id", PyText.json_of_option_Z (Messages.from_id row));
          ("text", json_of_option_string (Messages.text row));
          ("reply_to_msg_id", PyText.json_of_option_Z (Messages.reply_to_msg_id row));
          ("forward_from", PyText.json_of_option_Z (Messages.forward_from row));
          ("media_type", json_of_option_string (Messages.media_type row)) ] in
      let sender : dict :=
        match Messages.sender row with
        | Some t =>
            if Py.text_truthy t then [ ("sender", default JNull (PyText.loads t)) ] else []
        | None => []
        end in
      let media_files :=
        match Messages.media_files row with
        | Some t =>
            if Py.text_truthy t then default (JArr []) (PyText.loads t) else JArr []
        | None => JArr []
        end in
      Value (message ++ sender ++ [ ("media_files", media_files) ])%list
  end.

Fixpoint export_messages (rows : list Messages.Row) : outcome (list dict) :=
  match rows with
  | [] => Value []
  | row :: rest =>
      match export_message row with
      | Exception => Exception
      | Value message =>
          match export_messages rest with
          | Exception => Exception
          | Value messages => Value (message :: messages)
          end
      end
  end.

(** [convert_sqlite_to_json(sqlite_path, json_path)]: [table] is the
    result of the SELECT on the file (None: no such file, or the query
    raised); the result is the list written to the JSON file, None when
    the function returns False, in which case nothing is written. *)
Definition convert_sqlite_to_json (table : option (list Messages.Row)) : option (list dict) :=
  match table with
  | None => None
  | Some rows =>
      match export_messages rows with
      | Exception => None
      | Value messages => Some messages
      end
  end.

End WithClock.

End JsonExport.

(** ** Choosing a chat to import (src/import_single_chat.py, select_chat) *)

Module Selection.

(** [chats[idx][0]] *)
Definition chat_at (chats : list Z) (idx : Z) : option Z :=
  if (0 <=? idx) && (idx <? Z.of_nat (length chats)) then chats !! Z.to_nat idx else None.

(** One turn of the [while True] loop on the line [sel] read from the
    terminal: a chat id to return, no valid selection ([Value None]), or
    the ValueError of [int]. *)
Definition select_once (chats : list Z) (line : string) : outcome (option Z) :=
  let sel := Py.strip line in
  if PyText.isdigit sel then
    match PyText.int sel with
    | None => Exception
    | Some n => Value (chat_at chats (n - 1))
    end
  else Value (find (fun chat_id => String.eqb (Py.str chat_id) sel) chats).

(** [select_chat(chats)] on the lines the terminal supplies; when they
    run out, [input] raises EOFError. *)
Fixpoint select_chat (chats : list Z) (lines : list string) : outcome Z :=
  match lines with
  | [] => Exception
  | line :: rest =>
      match select_once chats line with
      | Exception => Exception
      | Value (Some chat_id) => Value chat_id
      | Value None => select_chat chats rest
      end
  end.

End Selection.

(** ** The snapshot file of the crawler *)

(** The dict [message_data] as [download_messages] builds it (src/api_test.py)
    and [json.dump] writes it to the snapshot file: the key 'sender' is
    set only when the message has a sender. *)
Definition message_data_dict (m : Crawler.message_data) : dict :=
  app
    [ ("id", JNum (Crawler.md_id m));
      ("date", JStr (Crawler.md_date m));
      ("from_id", PyText.json_of_option_Z (Crawler.md_from_id m));
      ("text", json_of_option_string (Crawler.md_text m));
      ("reply_to_msg_id", PyText.json_of_option_Z (Crawler.md_reply_to_msg_id m));
      ("forward_from", PyText.json_of_option_Z (Crawler.md_forward_from m));
      ("media_type", json_of_option_string (Crawler.md_media_type m));
      ("media_files", JArr (map JObj (Crawler.md_media_files m))) ]%string
    match Crawler.md_sender m with
    | Some sender => [ ("sender"%string, JObj sender) ]
    | None => []
    end.

(** * Vocabulary of the properties

    Predicates and constructions the statements and proofs below speak in. *)

(** ** Rate limiter *)

Section LimiterVocabulary.
Import Limiter.

(** The entries of a list that lie below [b]. *)
Definition count_below (b : Q) (l : list Q) : nat :=
  length (filter (fun t => Qltb t b = true) l).

End LimiterVocabulary.

(** ** Media fetcher *)

(** C9 as the claim words it: whenever the media reports no size or size 0,
    a download is issued (here on an empty disk, so that no file can be
    reused) and no 'skipped' descriptor results. *)
Definition size_gate_bypass_as_stated : Prop :=
  forall (c : Telethon.Client) (message : Telethon.Message) (m : Telethon.MessageMedia)
         (media_dir : string) (rl : Limiter.RateLimiter) (w : Crawler.world),
    Telethon.media message = Some m ->
    Crawler.get_media_size m = Value None \/ Crawler.get_media_size m = Value (Some 0) ->
    Crawler.fs w = ∅ ->
    let r := Crawler.download_media_file c message media_dir rl w in
    (exists filepath, Crawler.downloads r.2 = Crawler.downloads w ++ [filepath]) /\
    (forall d, r.1.1 = Some d -> dict_get d "type" <> JStr "skipped").

(** ** Manifest *)



(** ** Embedding client *)

Section EmbeddingVocabulary.
Import Embedding.

(** The reply failed, or decoded to an array of rank 0 or 1. *)
Definition rank_le_1 (r : reply) : Prop :=
  match r with
  | Failure | Decoded (Scalar _) | Decoded (Vector _) => True
  | Decoded (Matrix _ _) => False
  end.

End EmbeddingVocabulary.

(** ** Importer *)

Section ImporterVocabulary.
Import Warehouse Importer.

Definition has_document (tb : tables) (sid : Z) (ext : string) : bool :=
  existsb (fun r => Z.eqb (source_id r) sid && String.eqb (ext_id r) ext) (document tb).

Definition has_contact (tb : tables) (sender : text_json) : Prop :=
  is_Some (find (fun r => bool_decide (canonical r = Some sender)) (contact tb)).

(** The record has been imported: its sender (if any) is a contact and
    its document exists under the source. *)
Definition covered (tb : tables) (sid : Z) (row : Messages.Row) : Prop :=
  (forall sender, Messages.sender row = Some sender -> Py.text_truthy sender = true ->
     has_contact tb sender) /\
  has_document tb sid (Py.str (Messages.id row)) = true.

(** The tables the lookups read only grow at the end. *)
Definition grows (tb tb' : tables) : Prop :=
  (exists l, source tb' = source tb ++ l) /\
  (exists l, contact tb' = contact tb ++ l) /\
  (exists l, document tb' = document tb ++ l).

Definition source_named (tb : tables) (name : string) : option Z :=
  source_id_ <$> find (fun r => bool_decide (source_name r = Some name)) (source tb).

(** No statement raises, except possibly attachment inserts. *)
Definition only_attachment_faults (raises : stmt -> bool) : Prop :=
  forall q, raises q = true ->
    exists document_id name mime path, q = InsertAttachment document_id name mime path.

(** No attachment insert raises (the attachment insert is the one
    statement after whose exception the run goes on). *)
Definition attachments_accepted (raises : stmt -> bool) : Prop :=
  forall document_id name mime path,
    raises (InsertAttachment document_id name mime path) = false.

(** The attachments block changes the attachment table and its sequence
    only, and cannot raise. *)
Definition with_attachments (s : pg) (rows : list attachment_row) (last : Z) : pg :=
  {| live := {| source := source (live s); contact := contact (live s);
                document := document (live s);
                attachment := attachment (live s) ++ rows;
                passage := passage (live s);
                passage_embedding := passage_embedding (live s) |};
     durable := durable s;
     seq := {| source_seq := source_seq (seq s); contact_seq := contact_seq (seq s);
               document_seq := document_seq (seq s);
               attachment_seq := last;
               passage_seq := passage_seq (seq s);
               passage_embedding_seq := passage_embedding_seq (seq s) |} |}.

(** The tables and sequences that documents, attachments, passages and
    embeddings live in: what the contact step leaves alone. *)
Definition same_content (tb tb' : tables) : Prop :=
  document tb' = document tb /\ attachment tb' = attachment tb /\
  passage tb' = passage tb /\ passage_embedding tb' = passage_embedding tb.

Definition same_counters (sq sq' : sequences) : Prop :=
  document_seq sq' = document_seq sq /\ attachment_seq sq' = attachment_seq sq /\
  passage_seq sq' = passage_seq sq /\ passage_embedding_seq sq' = passage_embedding_seq sq.

(** Contact resolution touches the contact table and its sequence; when
    it inserts a contact it commits, which makes the committed tables
    those of the open transaction. *)
Definition contact_step (s s1 : pg) : Prop :=
  same_content (live s) (live s1) /\ same_counters (seq s) (seq s1) /\
  (durable s1 = durable s \/ durable s1 = live s1).

Definition next_document (s : pg) : Z := document_seq (seq s) + 1.

(** The connection after [nextval] on the document sequence. *)
Definition bump_document (s : pg) : pg :=
  set_seq s {| source_seq := source_seq (seq s); contact_seq := contact_seq (seq s);
               document_seq := next_document s;
               attachment_seq := attachment_seq (seq s);
               passage_seq := passage_seq (seq s);
               passage_embedding_seq := passage_embedding_seq (seq s) |}.

Definition add_document (s : pg) (d : document_row) : pg :=
  set_live (bump_document s)
    {| source := source (live s); contact := contact (live s);
       document := document (live s) ++ [d];
       attachment := attachment (live s); passage := passage (live s);
       passage_embedding := passage_embedding (live s) |}.

Definition new_document (s : pg) (sid : Z) (ext thread sent : string)
    (author : option Z) (body : string) : document_row :=
  {| document_id_ := next_document s; source_id := sid; ext_id := ext;
     thread_id := thread; sent_ts := sent; author_contact_id := author;
     raw_body := body; clean_body := body |}.

(** The connection after the passage step inserted [ps] and [es]. *)
Definition add_passages (s : pg) (ps : list passage_row)
    (es : list passage_embedding_row) : pg :=
  {| live := {| source := source (live s); contact := contact (live s);
                document := document (live s); attachment := attachment (live s);
                passage := passage (live s) ++ ps;
                passage_embedding := passage_embedding (live s) ++ es |};
     durable := durable s;
     seq := {| source_seq := source_seq (seq s); contact_seq := contact_seq (seq s);
               document_seq := document_seq (seq s);
               attachment_seq := attachment_seq (seq s);
               passage_seq := passage_seq (seq s) + Z.of_nat (length ps);
               passage_embedding_seq :=
                 passage_embedding_seq (seq s) + Z.of_nat (length es) |} |}.

Definition new_passage (s : pg) (document_id : Z) (passage_text : string) : passage_row :=
  {| passage_id_ := passage_seq (seq s) + 1; passage_document_id := document_id;
     level := "P"; start_tok := 0;
     end_tok := Z.of_nat (length (Py.split passage_text));
     passage_text := passage_text |}.

Definition new_embedding (server : string -> Embedding.reply) (s : pg)
    (passage_text : string) : passage_embedding_row :=
  {| passage_embedding_id_ := passage_embedding_seq (seq s) + 1;
     passage_id := passage_seq (seq s) + 1;
     model_id := "llama-server";
     embedding := Embedding.get_embedding_from_server server passage_text 1024 |}.

(** *** One passage per document worth embedding *)

Definition passages_of (tb : tables) (document_id : Z) : list passage_row :=
  filter (fun p => passage_document_id p = document_id) (passage tb).

Definition embeddings_of (tb : tables) (pid : Z) : list passage_embedding_row :=
  filter (fun e => passage_id e = pid) (passage_embedding tb).

Definition chunked (tb : tables) (d : document_row) : Prop :=
  let passage_text := Py.strip (raw_body d) in
  if worth_embedding passage_text then
    exists p e,
      passages_of tb (document_id_ d) = [p] /\
      level p = "P"%string /\ start_tok p = 0 /\
      end_tok p = Z.of_nat (length (Py.split passage_text)) /\
      Warehouse.passage_text p = passage_text /\
      embeddings_of tb (passage_id_ p) = [e] /\
      model_id e = "llama-server"%string
  else passages_of tb (document_id_ d) = [].

(** The condition of the claim, written out: the trimmed text is not
    empty and has more than 10 words. *)
Definition long_enough (passage_text : string) : Prop :=
  passage_text <> ""%string /\ (10 < length (Py.split passage_text))%nat.

(** The document has exactly one passage, which spans its whole trimmed
    text, with exactly one embedding, when the trimmed text is long
    enough, and no passage otherwise. *)
Definition one_passage (tb : tables) (d : document_row) : Prop :=
  let passage_text := Py.strip (raw_body d) in
  (long_enough passage_text ->
   exists p e,
     passages_of tb (document_id_ d) = [p] /\
     level p = "P"%string /\ start_tok p = 0 /\
     end_tok p = Z.of_nat (length (Py.split passage_text)) /\
     Warehouse.passage_text p = passage_text /\
     embeddings_of tb (passage_id_ p) = [e] /\
     passage_id e = passage_id_ p /\
     model_id e = "llama-server"%string) /\
  (~ long_enough passage_text -> passages_of tb (document_id_ d) = []).

Definition bounded (tb : tables) (sq : sequences) : Prop :=
  Forall (fun d => document_id_ d <= document_seq sq) (document tb) /\
  Forall (fun p => passage_id_ p <= passage_seq sq /\
                   passage_document_id p <= document_seq sq) (passage tb) /\
  Forall (fun e => passage_id e <= passage_seq sq) (passage_embedding tb).

Definition Inv (tb0 : tables) (Q : document_row -> Prop) (tb : tables) (sq : sequences)
    : Prop :=
  bounded tb sq /\
  exists news, document tb = document tb0 ++ news /\
               Forall (fun d => Q d /\ chunked tb d) news.

(** The attachment table is the initial one followed by rows that
    satisfy [P]. *)
Definition appended (tb0 : tables) (P : attachment_row -> Prop) (tb : tables) : Prop :=
  exists news, attachment tb = attachment tb0 ++ news /\ Forall P news.

(** Every attachment row a record can give rise to satisfies [P]. *)
Definition descriptors_ok (P : attachment_row -> Prop) (row : Messages.Row) : Prop :=
  forall files items f a,
    Messages.media_files row = Some (Dumped files) -> iterate files = Some items ->
    JObj f ∈ items ->
    filename a = dict_get f "name" -> mime_type a = dict_get f "mime_type" ->
    file_path a = dict_get f "path" -> P a.

End ImporterVocabulary.

(** A media descriptor the crawler can write: a result of
    [download_media_file]. *)
Definition crawler_descriptor (d : dict) : Prop :=
  exists c message media_dir rl w,
    (Crawler.download_media_file c message media_dir rl w).1.1 = Some d.

(** A row of the record store as one turn of the crawl loop writes it. *)
Definition crawler_row (row : Messages.Row) : Prop :=
  exists c media_dir stamp st message,
    Crawler.db (Crawler.process_message c media_dir stamp st message)
      !! Telethon.id message = Some row.

(** An attachment row whose three descriptive columns are NULL. *)
Definition null_columns (a : Warehouse.attachment_row) : Prop :=
  Warehouse.filename a = JNull /\ Warehouse.mime_type a = JNull /\
  Warehouse.file_path a = JNull.



(** ** Vocabulary of the further properties *)

(** The clock readings at which a caller that is never delayed makes its
    calls: each call comes [g] seconds after the one before. *)
Fixpoint arrivals (now : Q) (gaps : list Q) : list Q :=
  match gaps with
  | [] => []
  | g :: gaps' => (now + g)%Q :: arrivals (now + g)%Q gaps'
  end.

(** What holds of a limiter for [n] requests per second between the calls
    of a caller that keeps the minimum interval itself. *)
Definition steady (n : Z) (self : Limiter.RateLimiter) (now : Q) : Prop :=
  Limiter.max_requests self = n /\ Limiter.interval self = (1 / inject_Z n)%Q /\
  0 <= Limiter._request_count self /\
  (Limiter.last_request_time self <= now)%Q /\ (Limiter._window_start self <= now)%Q /\
  (Limiter._request_count self = 0 \/
   (inject_Z (Limiter._request_count self) * (1 / inject_Z n)
    <= Limiter.last_request_time self - Limiter._window_start self + 1 / inject_Z n)%Q).

(** The text holds no path separator. *)
Definition no_separator (s : string) : bool := negb (Py.contains "/" s).

(** The columns of [chats] that [update_chat] fills with
    [chat_data.get(key)], with the key each one is read from. *)
Definition optional_columns : list (string * (Manifest.Row -> json)) :=
  [ ("username", Manifest.username); ("broadcast", Manifest.broadcast);
    ("participants_count", Manifest.participants_count);
    ("kicked_count", Manifest.kicked_count); ("left_count", Manifest.left_count);
    ("online_count", Manifest.online_count); ("messages_count", Manifest.messages_count);
    ("last_message_date", Manifest.last_message_date);
    ("first_message_date", Manifest.first_message_date);
    ("created_date", Manifest.created_date);
    ("phone", Manifest.phone); ("is_bot", Manifest.is_bot) ]%string.

(** The embedding table is the initial one followed by rows that satisfy
    [P]. *)
Definition embedded (tb0 : Warehouse.tables) (P : Warehouse.passage_embedding_row -> Prop)
    (tb : Warehouse.tables) : Prop :=
  exists news, Warehouse.passage_embedding tb = Warehouse.passage_embedding tb0 ++ news /\
               Forall P news.

Definition is_user (e : Listing.Entity) : bool :=
  match e with Listing.User _ _ _ _ => true | _ => false end.

(** A group in the sense of [--all-groups]: a basic group or a
    supergroup, not a broadcast channel. *)
Definition is_group (e : Listing.Entity) : bool :=
  match e with
  | Listing.Chat _ => true
  | Listing.Channel _ _ broadcast _ => negb broadcast
  | _ => false
  end.

(** The text [get_full_chat_info] puts under 'type'. *)
Definition kind_of (e : Listing.Entity) : string :=
  match e with
  | Listing.User _ _ _ _ => "User"
  | Listing.Chat _ => "Group"
  | Listing.Channel _ _ broadcast _ => if broadcast then "Channel" else "Supergroup"
  | Listing.Other _ _ => "Unknown"
  end.

(** [getattr(sender, 'username', None)] and [getattr(sender, 'bot', False)]
    on the entities of the crawler. *)
Definition username_of (e : Telethon.Entity) : option string :=
  match e with
  | Telethon.User _ _ _ username _ | Telethon.Channel _ _ username => username
  | _ => None
  end.

Definition bot_of (e : Telethon.Entity) : bool :=
  match e with
  | Telethon.User _ _ _ _ bot => bot
  | _ => false
  end.

(** The documents of the open transaction that are not committed. *)
Definition pending_documents (s : Warehouse.pg) : Z :=
  Z.of_nat (length (Warehouse.document (Warehouse.live s)))
  - Z.of_nat (length (Warehouse.document (Warehouse.durable s))).

Definition pending_within (k : Z) (s : Warehouse.pg) : Prop :=
  0 <= pending_documents s <= k.

(** No two contacts have the same canonical text. *)
Definition distinct_contacts (tb : Warehouse.tables) : Prop :=
  NoDup (map Warehouse.canonical (Warehouse.contact tb)).

(** * Example data *)

(** A video message of a given reported size, a client whose transfers
    write as many bytes as reported, an empty media directory. *)
Definition example_video (reported : Z) : Telethon.Message :=
  {| Telethon.id := 7;
     Telethon.date := {| Telethon.isoformat := "2024-05-01T10:20:30+00:00";
                         Telethon.strftime_Ymd_HMS := "20240501_102030" |};
     Telethon.from_id := Some (Telethon.PeerUser 42);
     Telethon.text := Some "clip"%string;
     Telethon.reply_to_msg_id := None;
     Telethon.forward := None;
     Telethon.media :=
       Some (Telethon.MessageMediaDocument
               (Some {| Telethon.size := reported;
                        Telethon.mime_type := Some "video/mp4"%string;
                        Telethon.attributes := [] |}));
     Telethon.sender := None |}.

Definition example_client : Telethon.Client :=
  {| Telethon.history := [];
     Telethon.total_with_min_id := fun _ => 0;
     Telethon.download_media := fun m =>
       match Telethon.media m with
       | Some (Telethon.MessageMediaDocument (Some d)) => Some (Telethon.size d)
       | _ => Some 1000
       end |}.

Definition example_limiter : Limiter.RateLimiter :=
  {| Limiter.max_requests := 50; Limiter.interval := 1 # 50;
     Limiter.last_request_time := 0; Limiter._request_count := 0;
     Limiter._window_start := 0 |}.

(** A clock at an epoch-sized reading, and a caller that lets half a
    second pass and then makes 52 calls back to back. *)
Definition example_epoch : Limiter64.float := Limiter64.of_int 1700000000.

Definition example_burst : list Limiter64.float :=
  Limiter64.div (Limiter64.of_int 1) (Limiter64.of_int 2)
  :: repeat (Limiter64.of_int 0) 51.

Definition empty_world : Crawler.world :=
  {| Crawler.fs := ∅; Crawler.now := 100; Crawler.downloads := [] |}.

(** A message whose media is neither a photo nor a document (a shared
    location). *)
Definition example_geo : Telethon.Message :=
  {| Telethon.id := 8;
     Telethon.date := {| Telethon.isoformat := "2024-05-01T10:21:00+00:00";
                         Telethon.strftime_Ymd_HMS := "20240501_102100" |};
     Telethon.from_id := Some (Telethon.PeerUser 42);
     Telethon.text := None;
     Telethon.reply_to_msg_id := None;
     Telethon.forward := None;
     Telethon.media := Some (Telethon.MessageMediaOther "MessageMediaGeo");
     Telethon.sender := None |}.

Definition example_photo : Telethon.Message :=
  {| Telethon.id := 9;
     Telethon.date := {| Telethon.isoformat := "2024-05-01T10:22:00+00:00";
                         Telethon.strftime_Ymd_HMS := "20240501_102200" |};
     Telethon.from_id := Some (Telethon.PeerUser 42);
     Telethon.text := None;
     Telethon.reply_to_msg_id := None;
     Telethon.forward := None;
     Telethon.media := Some Telethon.MessageMediaPhoto;
     Telethon.sender := None |}.

(** A service whose reply nests the vector one level too deep: the JSON
    body [[{"embedding": [[[0.5, 0.25]]]}]], for which
    [np.array(response.json()[0]["embedding"][0])] has shape (1, 2). *)
Definition nested_reply_server : string -> Embedding.reply :=
  fun _ => Embedding.Decoded (Embedding.Matrix 2 [[1 # 2; 1 # 4]]%Q).

(** A stored record sent by "Ann". *)
Definition example_row_dated (id : Z) (date text : string) (media_files : option text_json)
    : Messages.Row :=
  {| Messages.id := id;
     Messages.date := date;
     Messages.date_retrieved := Some "2024-06-01T08:00:00+00:00"%string;
     Messages.from_id := Some 42;
     Messages.text := Some text;
     Messages.reply_to_msg_id := None;
     Messages.forward_from := None;
     Messages.media_type := None;
     Messages.sender :=
       Some (Dumped (JObj [ ("id", JNum 42); ("name", JStr "Ann");
                            ("username", JNull); ("bot", JBool false) ]%string));
     Messages.media_files := media_files |}.

Definition example_row (id : Z) (text : string) (media_files : option text_json)
    : Messages.Row :=
  example_row_dated id "2024-05-01T10:20:30+00:00" text media_files.

(** The three records of the end-to-end scenario of the design document:
    a 60 MiB attachment that was skipped, a blank text, a text of 40 words. *)
Definition example_rows : list Messages.Row :=
  [ example_row 1 "big file"
      (Some (Dumped (JArr [JObj (Crawler.skipped_descriptor (60 * 1024 * 1024))])));
    example_row 2 "   " None;
    example_row 3
      "a b c d e f g h i j k l m n o p q r s t a b c d e f g h i j k l m n o p q r s t"
      None ].

(** An embedding service that answers every request with a short vector. *)
Definition example_server : string -> Embedding.reply :=
  fun _ => Embedding.Decoded (Embedding.Vector [1 # 2; 1 # 4]%Q).

(** The database rejects the document statement of record 2. *)
Definition reject_document_2 : Importer.stmt -> bool :=
  fun q =>
    match q with
    | Importer.InsertDocument _ ext_id _ _ _ _ => String.eqb ext_id "2"
    | _ => false
    end.

(** Three records of which the second holds a [date] text that is no
    timestamp. *)
Definition example_rows_bad_date : list Messages.Row :=
  [ example_row 1 "first" None;
    example_row_dated 2 "yesterday at noon" "second" None;
    example_row 3 "third" None ].

(** The database rejects a document whose [sent_ts] (TIMESTAMPTZ NOT NULL)
    is that text; nothing else raises. *)
Definition reject_bad_date : Importer.stmt -> bool :=
  fun q =>
    match q with
    | Importer.InsertDocument _ _ _ sent_ts _ _ => String.eqb sent_ts "yesterday at noon"
    | _ => false
    end.

(** The connection after importing [example_rows] into the database that
    [db_init.py] leaves, nothing raising. *)
Definition example_first_state : Warehouse.pg :=
  match Importer.import_chat Importer.no_faults example_server 77 example_rows
          Warehouse.initial with
  | Importer.Ok _ s => s
  | Importer.Raised s => s
  end.

(** Records whose [media_files] column holds text that is not JSON, JSON
    that is not a list of dicts, and a list of one dict. *)
Definition example_odd_rows : list Messages.Row :=
  [ example_row 11 "broken" (Some (Raw "{not json"));
    example_row 12 "a number" (Some (Dumped (JNum 5)));
    example_row 13 "a list of strings" (Some (Dumped (JArr [JStr "x"])));
    example_row 14 "a descriptor"
      (Some (Dumped (JArr [JObj (Crawler.file_descriptor "photo" "photo_14.jpg" 10)]))) ].

(** A text message of the remote chat. *)
Definition example_text_message (id : Z) : Telethon.Message :=
  {| Telethon.id := id;
     Telethon.date := {| Telethon.isoformat := "2024-05-01T10:20:30+00:00";
                         Telethon.strftime_Ymd_HMS := "20240501_102030" |};
     Telethon.from_id := Some (Telethon.PeerUser 42);
     Telethon.text := Some "hello"%string;
     Telethon.reply_to_msg_id := None;
     Telethon.forward := None;
     Telethon.media := None;
     Telethon.sender := None |}.

(** A chat of four messages, newest first, whose media transfers write 1000
    bytes. *)
Definition example_chat : Telethon.Client :=
  {| Telethon.history := map example_text_message [7; 6; 5; 4];
     Telethon.total_with_min_id := fun _ => 4;
     Telethon.download_media := fun _ => Some 1000 |}.

(** A store that holds message 5 only. *)
Definition example_store : gmap Z Messages.Row :=
  {[ 5 := example_row 5 "hello" None ]}.

Definition example_stamp : Q -> string :=
  fun _ => "2024-06-01T08:00:00+00:00"%string.

(** The state of the crawl loop at its start, on an empty store. *)
Definition example_loop_state : Crawler.loop_state :=
  {| Crawler.db := ∅; Crawler.rate_limiter := example_limiter;
     Crawler.env := empty_world; Crawler.messages := [];
     Crawler.messages_processed := 0; Crawler.visited := [] |}.

(** The row the crawl loop stores for a video of 60 MiB (over the cap). *)
Definition example_crawled : option Messages.Row :=
  Crawler.db (Crawler.process_message example_client "media" example_stamp
                example_loop_state (example_video (60 * 1024 * 1024)))
    !! 7.

Definition example_stored_row : Messages.Row :=
  default (example_row 7 "" None) example_crawled.

(** A manifest that has seen chat 5 before. *)
Definition example_manifest_row : Manifest.Row :=
  {| Manifest.chat_id := 5; Manifest.name := JStr "Ann"; Manifest.type := JStr "User";
     Manifest.username := JNull;
     Manifest.first_seen := 100; Manifest.last_seen := 150; Manifest.last_updated := 150;
     Manifest.join_date := JNull; Manifest.broadcast := JNull;
     Manifest.participants_count := JNull; Manifest.kicked_count := JNull;
     Manifest.left_count := JNull; Manifest.online_count := JNull;
     Manifest.messages_count := JNull; Manifest.last_message_date := JNull;
     Manifest.first_message_date := JNull; Manifest.created_date := JNull;
     Manifest.phone := JNull; Manifest.is_bot := JBool false |}.

Definition example_manifest : gmap Z Manifest.Row := {[ 5 := example_manifest_row ]}.

Definition example_chat_data : Manifest.chat_data :=
  {| Manifest.cd_chat_id := 5;
     Manifest.fields := [ ("name", JStr "Ann B."); ("type", JStr "User");
                          ("username", JStr "annb"); ("is_bot", JBool false) ]%string |}.

(** A store that holds the four messages of [example_chat]. *)
Definition example_full_store : gmap Z Messages.Row :=
  <[7 := example_row 7 "hello" None]>
    (<[6 := example_row 6 "hello" None]>
       (<[5 := example_row 5 "hello" None]> {[ 4 := example_row 4 "hello" None ]})).

(** The store after a run on an empty store that stopped when it had
    taken the two newest messages of [example_chat]. *)
Definition example_interrupted_store : gmap Z Messages.Row :=
  Crawler.db (fold_left (Crawler.process_message example_chat "media" example_stamp)
                [example_text_message 7; example_text_message 6] example_loop_state).

(** A provider that knows a channel of 120 participants and a basic
    group of 3. *)
Definition example_provider : Listing.Provider :=
  {| Listing.GetFullChannelRequest := fun _ =>
       Some {| Listing.participants_count := Some 120; Listing.online_count := Some 7;
               Listing.kicked_count := None; Listing.left_count := None;
               Listing.messages_count := None |};
     Listing.GetFullChatRequest := fun _ => Some 3%nat |}.

(** Seven stored records, newest first, and a clock that reads every date
    text. *)
Definition example_page_rows : list Messages.Row :=
  map (fun k => example_row k "hello" None) [7; 6; 5; 4; 3; 2; 1].

Definition example_stores : Z -> option (list Messages.Row) :=
  fun chat_id => if Z.eqb chat_id 5 then Some example_page_rows else None.

Definition example_strftime : string -> option (string * string) :=
  fun _ => Some ("10:20", "2024-05-01")%string.

(** The second page of chat 5. *)
Definition example_page : outcome Viewer.response :=
  Viewer.get_chat example_strftime example_manifest example_stores 5 5.

Definition rendered_chat (r : outcome Viewer.response) : dict :=
  match r with
  | Value (Viewer.Rendered _ chat _ _ _) => chat
  | _ => []
  end.

Definition rendered_messages (r : outcome Viewer.response) : list Viewer.message_view :=
  match r with
  | Value (Viewer.Rendered _ _ messages _ _) => messages
  | _ => []
  end.

(** The connection as the run over [example_rows_bad_date] leaves it when
    it raises. *)
Definition example_aborted_state : Warehouse.pg :=
  match Importer.import_chat reject_bad_date example_server 77 example_rows_bad_date
          Warehouse.initial with
  | Importer.Ok _ s => s
  | Importer.Raised s => s
  end.

(** * Properties *)

(** ** Boolean comparisons on rationals *)

Lemma Qltb_true x y : Qltb x y = true <-> (x < y)%Q.
Proof.
  unfold Qltb. rewrite negb_true_iff, <- not_true_iff_false, Qle_bool_iff.
  split; [apply Qnot_le_lt | apply Qlt_not_le].
Qed.

Lemma Qltb_false x y : Qltb x y = false <-> (y <= x)%Q.
Proof. unfold Qltb. rewrite negb_false_iff. apply Qle_bool_iff. Qed.

Lemma Qgeb_true x y : Qgeb x y = true <-> (y <= x)%Q.
Proof. apply Qle_bool_iff. Qed.

Lemma Qgtb_true x y : Qgtb x y = true <-> (y < x)%Q.
Proof. apply Qltb_true. Qed.

Lemma Qgtb_false x y : Qgtb x y = false <-> (x <= y)%Q.
Proof. apply Qltb_false. Qed.

(** ** RateLimiter *)

Section LimiterFacts.
Import Limiter.

(** [window_sleep] never moves the clock back and leaves the rate
    parameters and the last request time alone. *)
Lemma window_sleep_spec self c now self' now' :
  window_sleep self c now = (self', now') ->
  (now <= now')%Q /\ interval self' = interval self /\
  max_requests self' = max_requests self /\
  last_request_time self' = last_request_time self.
Proof.
  unfold window_sleep. intros H.
  destruct (Z.ltb _ _); [destruct (Qgtb _ 0) eqn:Hw |];
    inversion H; subst; clear H; simpl; repeat split; try apply Qle_refl.
  apply Qgtb_true in Hw. lra.
Qed.

Lemma enter_window_frame self c :
  interval (enter_window self c) = interval self /\
  max_requests (enter_window self c) = max_requests self /\
  last_request_time (enter_window self c) = last_request_time self.
Proof. unfold enter_window. destruct (Qgeb _ _); simpl; auto. Qed.

(** A call completes no earlier than it starts, and at least one interval
    after the previous call completed. *)
Lemma wait_spec self now self' done :
  wait self now = (self', done) ->
  (now <= done)%Q /\
  (last_request_time self + interval self <= done)%Q /\
  last_request_time self' = done /\
  interval self' = interval self /\
  max_requests self' = max_requests self.
Proof.
  unfold wait. intros H.
  destruct (window_sleep (enter_window self now) now now) as [self2 now2] eqn:Hws.
  inversion H; subst; clear H; simpl.
  apply window_sleep_spec in Hws as (Hle & Hi & Hm & Hl).
  destruct (enter_window_frame self now) as (Hi0 & Hm0 & Hl0).
  rewrite Hi, Hi0, Hm, Hm0. unfold interval_sleep. rewrite Hi, Hi0, Hl, Hl0.
  destruct (Qltb _ _) eqn:Hlt.
  - apply Qltb_true in Hlt. repeat split; try reflexivity; lra.
  - apply Qltb_false in Hlt. repeat split; try reflexivity; lra.
Qed.

Lemma calls_spaced gaps : forall self now,
  match calls self now gaps with
  | [] => True
  | t :: _ => (last_request_time self + interval self <= t)%Q
  end /\ spaced (interval self) (calls self now gaps).
Proof.
  induction gaps as [|g gaps IH]; intros self now; simpl; [auto|].
  destruct (wait self (now + g)%Q) as [self' done] eqn:Hw.
  apply wait_spec in Hw as (_ & Hsp & Hl & Hi & _).
  split; [exact Hsp|].
  specialize (IH self' done). rewrite Hl, Hi in IH.
  destruct (calls self' done gaps) as [|t' rest] eqn:Hc; [exact I|].
  exact IH.
Qed.

(** In a spaced list every later entry is at least as large as the head. *)
Lemma spaced_head_le d t l :
  (0 <= d)%Q -> spaced d (t :: l) -> Forall (fun x => (t <= x)%Q) (t :: l).
Proof.
  intros Hd. revert t. induction l as [|t' l IH]; intros t Hs.
  - constructor; [apply Qle_refl | constructor].
  - destruct Hs as [Hle Hs]. constructor; [apply Qle_refl|].
    specialize (IH t' Hs). eapply Forall_impl; [exact IH|].
    simpl. intros x Hx. lra.
Qed.

Lemma spaced_tail d t l : spaced d (t :: l) -> spaced d l.
Proof. destruct l; simpl; tauto. Qed.

Lemma count_below_none b l :
  Forall (fun x => (b <= x)%Q) l -> count_below b l = 0%nat.
Proof.
  unfold count_below. induction 1 as [|x l Hx _ IH]; [reflexivity|].
  rewrite filter_cons. destruct (decide _) as [Hlt|_]; [|exact IH].
  apply Qltb_true in Hlt. lra.
Qed.

Lemma count_below_bound d b : (0 <= d)%Q -> forall (k : nat) l t,
  spaced d (t :: l) -> (b <= t + inject_Z (Z.of_nat k) * d)%Q ->
  (count_below b (t :: l) <= k)%nat.
Proof.
  intros Hd. induction k as [|k IH]; intros l t Hs Hb.
  - assert (Hall := spaced_head_le d t l Hd Hs).
    rewrite count_below_none; [lia|].
    eapply Forall_impl; [exact Hall|]. simpl. intros x Hx.
    change (inject_Z (Z.of_nat 0)) with 0%Q in Hb. lra.
  - unfold count_below. rewrite filter_cons.
    assert (Hrest : (length (filter (fun t0 => Qltb t0 b = true) l) <= k)%nat).
    { destruct l as [|t' l']; [simpl; lia|].
      destruct Hs as [Hle Hs]. apply (IH l' t' Hs).
      rewrite Nat2Z.inj_succ, <- Z.add_1_r, inject_Z_plus in Hb.
      change (inject_Z 1) with 1%Q in Hb. lra. }
    destruct (decide _); simpl; lia.
Qed.

Lemma window_count_le_count_below w l :
  (window_count w l <= count_below (w + 1) l)%nat.
Proof.
  unfold window_count, count_below, in_window.
  induction l as [|t l IH]; [simpl; lia|].
  rewrite !filter_cons.
  destruct (decide (Qle_bool w t && Qltb t (w + 1) = true)) as [H|H].
  - apply andb_true_iff in H as [_ H2].
    destruct (decide _); [simpl; lia | contradiction].
  - destruct (decide _); simpl; lia.
Qed.

Lemma spaced_window_count (n : Z) w l :
  0 < n -> spaced (1 / inject_Z n) l -> (window_count w l <= Z.to_nat n)%nat.
Proof.
  intros Hn.
  assert (Hq : (0 < inject_Z n)%Q).
  { change 0%Q with (inject_Z 0). rewrite <- Zlt_Qlt. exact Hn. }
  assert (Hd : (0 <= 1 / inject_Z n)%Q).
  { apply Qlt_le_weak, Qlt_shift_div_l; [exact Hq | lra]. }
  assert (Hone : (inject_Z (Z.of_nat (Z.to_nat n)) * (1 / inject_Z n) == 1)%Q).
  { rewrite Z2Nat.id by lia. field. intros E. rewrite E in Hq. lra. }
  induction l as [|t l IH]; intros Hs; [unfold window_count; simpl; lia|].
  specialize (IH (spaced_tail _ _ _ Hs)).
  destruct (Qle_bool w t) eqn:Hwt.
  - etransitivity; [apply window_count_le_count_below|].
    apply (count_below_bound _ _ Hd _ _ _ Hs).
    apply Qle_bool_iff in Hwt. rewrite Hone. lra.
  - unfold window_count in *. rewrite filter_cons.
    destruct (decide _) as [H|H]; [|exact IH].
    unfold in_window in H. rewrite Hwt in H. discriminate.
Qed.

End LimiterFacts.

(** What the code computes when no operation rounds.  On the exact clock,
    for a limiter built for [n > 0] requests per second and any sequence of
    calls to [wait] (each made after an arbitrary pause of the caller), at
    most [n] calls complete in any rolling one-second window [w, w + 1),
    wherever it starts, and two consecutive calls never complete less than
    [1 / n] seconds apart. *)
Theorem rate_limiter_rolling_window (n : Z) (t0 start w : Q) (gaps : list Q) :
  0 < n ->
  exists self, Limiter.init n t0 = Some self /\
    (Limiter.window_count w (Limiter.calls self start gaps) <= Z.to_nat n)%nat /\
    Limiter.spaced (1 / inject_Z n) (Limiter.calls self start gaps).
Proof.
  intros Hn. unfold Limiter.init.
  destruct (Z.eqb_spec n 0) as [->|_]; [lia|].
  eexists; split; [reflexivity|].
  match goal with |- context [Limiter.calls ?s _ _] => set (self := s) end.
  assert (Hs : Limiter.spaced (1 / inject_Z n) (Limiter.calls self start gaps))
    by apply (calls_spaced gaps self start).
  split; [apply spaced_window_count; assumption | exact Hs].
Qed.

Lemma rate_limiter_rolling_window_witness :
  exists self, Limiter.init 2 0 = Some self /\
    (Limiter.window_count 12 (Limiter.calls self 10 [0; 0; 0; 0; 0; 0]%Q) <= Z.to_nat 2)%nat /\
    Limiter.spaced (1 / inject_Z 2) (Limiter.calls self 10 [0; 0; 0; 0; 0; 0]%Q).
Proof. apply (rate_limiter_rolling_window 2 0 10 12 [0; 0; 0; 0; 0; 0]%Q). lia. Defined.

(** The bound is about windows that are open at the end: with [n = 2] and
    calls made back to back, the completions settle at every half second
    and the closed interval from 12 to 13 holds three of them. *)
Example closed_window_holds_one_more :
  exists self, Limiter.init 2 0 = Some self /\
    map Qred (Limiter.calls self 10 [0; 0; 0; 0; 0; 0]%Q)
      = [10; 21 # 2; 23 # 2; 12; 25 # 2; 13]%Q /\
    Limiter.window_count 12 (Limiter.calls self 10 [0; 0; 0; 0; 0; 0]%Q) = 2%nat.
Proof. eexists. split; [reflexivity|]. split; vm_compute; reflexivity. Qed.

(** C2.  In binary64 the limiter misses both bounds.  A limiter for 50
    requests per second (the crawler's MAX_REQUESTS_PER_SECOND) is created
    when the clock reads 1700000000.0; the caller makes its first call
    half a second later and every further call the moment the one before
    returns.  The first call completes at 1700000000.5 and the second
    41943 / 2097152 s later (0.01999998...), which is less than 1/50 s and
    less than the limiter's own [interval]: the sum [now + (interval -
    time_since_last)] is rounded to the grid of the clock, 2^-22 s at this
    reading.  The calls keep that spacing, and 51 of them complete within
    the second that starts when the first one completes. *)
Theorem rate_limiter_binary64_shortfall :
  exists self first second rest,
    Limiter64.init Crawler.MAX_REQUESTS_PER_SECOND example_epoch = Some self /\
    map Limiter64.value (Limiter64.calls self example_epoch example_burst)
      = first :: second :: rest /\
    (first == 3400000001 # 2)%Q /\
    (second - first == 41943 # 2097152)%Q /\
    (second - first < 1 # 50)%Q /\
    (second - first < Limiter64.value (Limiter64.interval self))%Q /\
    ~ Limiter.spaced (1 # 50) (first :: second :: rest) /\
    Limiter.window_count first (first :: second :: rest) = 51%nat.
Proof.
  eexists _, _, _, _.
  split; [vm_compute; reflexivity|].
  split; [vm_compute; reflexivity|].
  split; [vm_compute; reflexivity|].
  split; [vm_compute; reflexivity|].
  split; [vm_compute; reflexivity|].
  split; [vm_compute; reflexivity|].
  split; [|vm_compute; reflexivity].
  intros [H _]. vm_compute in H. exact (H eq_refl).
Qed.

(** ** The size gate of the media fetcher *)

Section MediaFacts.
Import Telethon Crawler.
Local Open Scope string_scope.

Lemma mime_kind_truthy m r : mime_kind m = Some r -> Py.truthy r.1 = true.
Proof.
  unfold mime_kind. intros H.
  repeat match type of H with
         | (if ?b then _ else _) = _ => destruct b
         end; inversion H; reflexivity.
Qed.

(** A document always has a media type, and a non-empty one. *)
Lemma get_media_type_document (document : Document) :
  exists media_type extension,
    get_media_type (MessageMediaDocument (Some document)) = Value (Some (media_type, extension))
    /\ Py.truthy media_type = true.
Proof.
  unfold get_media_type.
  destruct (match mime_type document with
            | Some m => if Py.truthy m then mime_kind m else None
            | None => None
            end) as [[mt ext]|] eqn:Hm.
  - exists mt, ext. split; [reflexivity|].
    destruct (mime_type document) as [m|]; [|discriminate].
    destruct (Py.truthy m); [|discriminate].
    apply (mime_kind_truthy _ _ Hm).
  - destruct (first_file_name (attributes document)); eauto.
Qed.

(** What [fetch] does when the target file is not on disk. *)
Lemma fetch_absent c message media_dir media_type extension rl w :
  fs w !! Py.path_join media_dir (media_filename message media_type extension) = None ->
  let r := fetch c message media_dir media_type extension rl w in
  downloads r.2 = (downloads w ++ [Py.path_join media_dir (media_filename message media_type extension)])%list
  /\ match download_media c message with
     | Some n =>
         r.1.1 = Some (file_descriptor media_type (media_filename message media_type extension) n)
         /\ fs r.2 !! Py.path_join media_dir (media_filename message media_type extension) = Some n
     | None => r.1.1 = None
     end.
Proof.
  intros Habs. unfold fetch. rewrite Habs.
  destruct (Limiter.wait rl (now w)) as [rl' t].
  destruct (download_media c message) as [n|]; simpl; split; try reflexivity.
  split; [reflexivity | apply lookup_insert_eq].
Qed.

Lemma format_size_cap : format_size MAX_MEDIA_SIZE = "50.0MB".
Proof. vm_compute. reflexivity. Qed.

Lemma format_size_over_cap : format_size (MAX_MEDIA_SIZE + 1) = "50.0MB".
Proof. vm_compute. reflexivity. Qed.

End MediaFacts.

(** C4.  Size-gate boundary.  A document that reports exactly
    [MAX_MEDIA_SIZE] = 50 MiB passes the gate: when its file is not yet on
    disk, [download_media_file] calls [download_media] for it (once) and,
    the transfer having written [n] bytes, returns the descriptor of that
    file.  A document that reports one byte more is not downloaded: the
    call changes nothing (no throttle, no download, no file) and returns
    the descriptor of type 'skipped' whose filename is None, whose size is
    the reported one and whose reason names that size and the cap. *)
Theorem size_gate_boundary
    (c : Telethon.Client) (message : Telethon.Message) (document : Telethon.Document)
    (media_dir : string) (rl : Limiter.RateLimiter) (w : Crawler.world)
    (media_type extension : string) :
  Telethon.media message = Some (Telethon.MessageMediaDocument (Some document)) ->
  Crawler.get_media_type (Telethon.MessageMediaDocument (Some document))
    = Value (Some (media_type, extension)) ->
  let filename := Crawler.media_filename message media_type extension in
  let filepath := Py.path_join media_dir filename in
  let r := Crawler.download_media_file c message media_dir rl w in
  (Telethon.size document = Crawler.MAX_MEDIA_SIZE ->
   Crawler.fs w !! filepath = None ->
   Crawler.downloads r.2 = Crawler.downloads w ++ [filepath] /\
   forall n, Telethon.download_media c message = Some n ->
     r.1.1 = Some (Crawler.file_descriptor media_type filename n) /\
     Crawler.fs r.2 !! filepath = Some n) /\
  (Telethon.size document = Crawler.MAX_MEDIA_SIZE + 1 ->
   r = (Some [ ("type", JStr "skipped");
               ("filename", JNull);
               ("size", JNum (Crawler.MAX_MEDIA_SIZE + 1));
               ("skipped_reason", JStr "File size (50.0MB) exceeds limit of 50.0MB") ]%string,
        rl, w)).
Proof.
  intros Hmedia Hty filename filepath r. split; intros Hsize.
  - intros Habs.
    destruct (get_media_type_document document) as (mt & ext & Hty' & Hne).
    rewrite Hty in Hty'. inversion Hty'; subst mt ext; clear Hty'.
    assert (Hr : r = Crawler.fetch c message media_dir media_type extension rl w).
    { subst r. unfold Crawler.download_media_file. rewrite Hmedia.
      cbn [Crawler.get_media_size]. rewrite Hsize.
      change (Crawler.over_cap (Some Crawler.MAX_MEDIA_SIZE)) with false.
      cbv iota. rewrite Hty, Hne. reflexivity. }
    destruct (fetch_absent c message media_dir media_type extension rl w Habs) as [Hd Hres].
    fold filename filepath in Hd, Hres. rewrite Hr. split; [exact Hd|].
    intros n Hn. rewrite Hn in Hres. exact Hres.
  - subst r. unfold Crawler.download_media_file. rewrite Hmedia.
    cbn [Crawler.get_media_size]. rewrite Hsize.
    change (Crawler.over_cap (Some (Crawler.MAX_MEDIA_SIZE + 1))) with true.
    cbv iota. unfold Crawler.skipped_descriptor.
    change (default 0 (Some (Crawler.MAX_MEDIA_SIZE + 1))) with (Crawler.MAX_MEDIA_SIZE + 1).
    rewrite format_size_over_cap, format_size_cap. reflexivity.
Qed.

Lemma size_gate_boundary_witness :
  (let r := Crawler.download_media_file example_client
              (example_video Crawler.MAX_MEDIA_SIZE) "media" example_limiter empty_world in
   Crawler.downloads r.2 = ["media/video_7_20240501_102030.mp4"%string] /\
   forall n, Some Crawler.MAX_MEDIA_SIZE = Some n ->
     r.1.1 = Some (Crawler.file_descriptor "video" "video_7_20240501_102030.mp4" n) /\
     Crawler.fs r.2 !! "media/video_7_20240501_102030.mp4"%string = Some n) /\
  Crawler.download_media_file example_client
    (example_video (Crawler.MAX_MEDIA_SIZE + 1)) "media" example_limiter empty_world =
    (Some [ ("type", JStr "skipped");
            ("filename", JNull);
            ("size", JNum (Crawler.MAX_MEDIA_SIZE + 1));
            ("skipped_reason", JStr "File size (50.0MB) exceeds limit of 50.0MB") ]%string,
     example_limiter, empty_world).
Proof.
  split.
  - apply (proj1 (size_gate_boundary example_client (example_video Crawler.MAX_MEDIA_SIZE)
                    _ "media" example_limiter empty_world "video" ".mp4"
                    eq_refl eq_refl));
      reflexivity.
  - apply (proj2 (size_gate_boundary example_client (example_video (Crawler.MAX_MEDIA_SIZE + 1))
                    _ "media" example_limiter empty_world "video" ".mp4"
                    eq_refl eq_refl)).
    reflexivity.
Defined.

Section GateBypass.
Import Telethon Crawler.
Local Open Scope string_scope.

Lemma mime_kind_not_skipped m r : mime_kind m = Some r -> r.1 <> "skipped".
Proof.
  unfold mime_kind. intros H.
  repeat match type of H with
         | (if ?b then _ else _) = _ => destruct b
         end; inversion H; simpl; discriminate.
Qed.

Lemma get_media_type_not_skipped m media_type extension :
  get_media_type m = Value (Some (media_type, extension)) -> media_type <> "skipped".
Proof.
  destruct m as [|[document|]|cls]; simpl; intros H; try discriminate.
  - inversion H. discriminate.
  - destruct (match mime_type document with
              | Some m => if Py.truthy m then mime_kind m else None
              | None => None
              end) as [r|] eqn:Hm.
    + inversion H; subst r.
      destruct (mime_type document) as [m|]; [|discriminate].
      destruct (Py.truthy m); [|discriminate].
      apply (mime_kind_not_skipped _ _ Hm).
    + destruct (first_file_name (attributes document)); inversion H; discriminate.
Qed.

(** [fetch] returns nothing or the descriptor of a file. *)
Lemma fetch_descriptor c message media_dir media_type extension rl w d :
  (fetch c message media_dir media_type extension rl w).1.1 = Some d ->
  exists n, d = file_descriptor media_type (media_filename message media_type extension) n.
Proof.
  unfold fetch.
  destruct (fs w !! _) as [on_disk|]; simpl.
  - intros H. inversion H. eauto.
  - destruct (Limiter.wait rl (now w)) as [rl' t].
    destruct (download_media c message) as [n|]; simpl; intros H; inversion H. eauto.
Qed.

(** The size gate is bypassed when no size is reported or the size is 0. *)
Lemma bypass_not_over_cap m media_size :
  get_media_size m = Value media_size ->
  media_size = None \/ media_size = Some 0 -> over_cap media_size = false.
Proof. intros _ [->| ->]; reflexivity. Qed.

End GateBypass.

(** C9, counterexample.  For [example_geo], whose media is neither photo
    nor document, [get_media_size] returns None, yet on an empty disk
    [download_media_file] returns None without throttling or calling
    [download_media]: [get_media_type] gives no type for such media.  So the
    claim as worded fails. *)
Lemma size_gate_bypass_counterexample :
  Crawler.get_media_size (Telethon.MessageMediaOther "MessageMediaGeo") = Value None /\
  Crawler.download_media_file example_client example_geo "media" example_limiter empty_world
    = (None, example_limiter, empty_world) /\
  ~ size_gate_bypass_as_stated.
Proof.
  split; [reflexivity|]. split; [reflexivity|].
  intros H.
  destruct (H example_client example_geo (Telethon.MessageMediaOther "MessageMediaGeo")
              "media"%string example_limiter empty_world eq_refl (or_introl eq_refl) eq_refl)
    as [[filepath Hd] _].
  simpl in Hd. discriminate Hd.
Qed.

(** C9, amended.  When [get_media_size] reports no size or size 0 the size
    gate is not applied and no 'skipped' descriptor is produced.  A photo,
    and a document of reported size 0, then take the download path: the
    file on disk is reused or, when absent, downloaded, and the descriptor
    carries the size actually written, whatever it is (also above the cap).
    Media that is neither photo nor document has no media type:
    [download_media_file] returns None for it and downloads nothing. *)
Theorem size_gate_bypass
    (c : Telethon.Client) (message : Telethon.Message) (m : Telethon.MessageMedia)
    (media_dir : string) (rl : Limiter.RateLimiter) (w : Crawler.world) :
  Telethon.media message = Some m ->
  let r := Crawler.download_media_file c message media_dir rl w in
  (m = Telethon.MessageMediaPhoto ->
     r = Crawler.fetch c message media_dir "photo" ".jpg" rl w /\
     let filename := Crawler.media_filename message "photo" ".jpg" in
     (Crawler.fs w !! Py.path_join media_dir filename = None ->
      forall n, Telethon.download_media c message = Some n ->
        r.1.1 = Some (Crawler.file_descriptor "photo" filename n))) /\
  (forall document media_type extension,
     m = Telethon.MessageMediaDocument (Some document) ->
     Telethon.size document = 0 ->
     Crawler.get_media_type m = Value (Some (media_type, extension)) ->
     r = Crawler.fetch c message media_dir media_type extension rl w) /\
  (forall class_name, m = Telethon.MessageMediaOther class_name -> r = (None, rl, w)) /\
  (Crawler.get_media_size m = Value None \/ Crawler.get_media_size m = Value (Some 0) ->
   forall d, r.1.1 = Some d -> dict_get d "type" <> JStr "skipped").
Proof.
  intros Hmedia r. subst r. unfold Crawler.download_media_file. rewrite Hmedia.
  split; [|split; [|split]].
  - intros ->. split; [reflexivity|]. intros Habs n Hn.
    pose proof (fetch_absent c message media_dir "photo" ".jpg" rl w Habs) as [_ Hres].
    rewrite Hn in Hres. apply Hres.
  - intros document mt ext -> Hsize Hty.
    cbn [Crawler.get_media_size]. rewrite Hsize.
    change (Crawler.over_cap (Some 0)) with false. cbv iota.
    destruct (get_media_type_document document) as (mt' & ext' & Hty' & Hne).
    rewrite Hty in Hty'. inversion Hty'; subst mt' ext'.
    rewrite Hty, Hne. reflexivity.
  - intros class_name ->. reflexivity.
  - intros Hsz d.
    assert (Hgate : forall ms, Crawler.get_media_size m = Value ms ->
                               Crawler.over_cap ms = false).
    { intros ms Hms. apply (bypass_not_over_cap m ms Hms).
      rewrite Hms in Hsz. destruct Hsz as [Hs|Hs]; inversion Hs; auto. }
    destruct (Crawler.get_media_size m) as [ms|]; [|simpl; discriminate].
    rewrite (Hgate ms eq_refl).
    destruct (Crawler.get_media_type m) as [[[mt ext]|]|] eqn:Hty; try (simpl; discriminate).
    destruct (negb (Py.truthy mt)); [simpl; discriminate|].
    intros Hd. apply fetch_descriptor in Hd as [n ->]. simpl.
    intros E. inversion E. eapply get_media_type_not_skipped; eauto.
Qed.

Lemma size_gate_bypass_witness :
  Crawler.download_media_file example_client example_photo "media" example_limiter empty_world
  = Crawler.fetch example_client example_photo "media" "photo" ".jpg" example_limiter empty_world.
Proof.
  apply (proj1 (size_gate_bypass example_client example_photo Telethon.MessageMediaPhoto
                  "media" example_limiter empty_world eq_refl)).
  reflexivity.
Defined.

(** ** Resumption of the crawl *)

Section CrawlFacts.
Import Telethon Crawler.

Lemma foldr_max_spec k ks :
  foldr Z.max k ks ∈ k :: ks /\ Forall (fun x => x <= foldr Z.max k ks) (k :: ks).
Proof.
  induction ks as [|x ks [IHin IHall]]; simpl.
  - split; [left | repeat constructor; lia].
  - split.
    + destruct (Z.max_spec x (foldr Z.max k ks)) as [[_ ->]|[_ ->]].
      * apply list_elem_of_In in IHin. apply list_elem_of_In.
        simpl in *. tauto.
      * right. left.
    + inversion IHall as [|? ? Hk Hks]; subst.
      constructor; [lia|]. constructor; [lia|].
      eapply Forall_impl; [exact Hks|]. simpl. intros; lia.
Qed.

(** [MAX(id)] is the largest stored id. *)
Lemma select_max_id_spec (store : Database.t) (M : Z) :
  is_Some (store !! M) -> (forall k, is_Some (store !! k) -> k <= M) ->
  Database.select_max_id store = Some M.
Proof.
  intros HM Hmax. unfold Database.select_max_id.
  assert (Hkeys : forall k, k ∈ (map_to_list store).*1 <-> is_Some (store !! k)).
  { intros k. rewrite list_elem_of_fmap. split.
    - intros [[k' v] [-> Hin]]. apply elem_of_map_to_list in Hin. simpl. eauto.
    - intros [v Hv]. exists (k, v). split; [reflexivity|].
      apply elem_of_map_to_list. exact Hv. }
  destruct ((map_to_list store).*1) as [|k ks] eqn:E.
  - apply Hkeys in HM. inversion HM.
  - destruct (foldr_max_spec k ks) as [Hin Hall].
    f_equal. apply Z.le_antisymm.
    + apply Hmax, Hkeys. exact Hin.
    + apply Hkeys in HM. rewrite Forall_forall in Hall. apply Hall. exact HM.
Qed.

Lemma select_max_id_empty : Database.select_max_id ∅ = None.
Proof. unfold Database.select_max_id. rewrite map_to_list_empty. reflexivity. Qed.

(** One turn of the loop: the message is recorded as visited and upserted
    under its own id; no other row is touched. *)
Lemma process_message_spec c media_dir stamp st message :
  let st' := process_message c media_dir stamp st message in
  visited st' = visited st ++ [message] /\
  (exists data, md_id data = id message /\ messages st' = messages st ++ [data]) /\
  is_Some (db st' !! id message) /\
  (forall k, k <> id message -> db st' !! k = db st !! k).
Proof.
  unfold process_message.
  destruct (Limiter.wait (rate_limiter st) (now (env st))) as [rl1 t1].
  destruct (match media message with
            | Some _ => _
            | None => _
            end) as [[media_info rl2] w2].
  simpl. split; [reflexivity|]. split; [eexists; split; [|reflexivity]; reflexivity|].
  split.
  - rewrite lookup_insert_eq. eauto.
  - intros k Hk. rewrite lookup_insert_ne by congruence. reflexivity.
Qed.

Lemma run_loop_spec c media_dir stamp (P : Z -> Prop) msgs : forall st,
  Forall (fun m => P (id m)) msgs ->
  let st' := fold_left (process_message c media_dir stamp) msgs st in
  visited st' = visited st ++ msgs /\
  (Forall (fun d => P (md_id d)) (messages st) ->
   Forall (fun d => P (md_id d)) (messages st')) /\
  (forall k, ~ P k -> db st' !! k = db st !! k) /\
  (forall m, m ∈ msgs -> is_Some (db st' !! id m)).
Proof.
  induction msgs as [|m msgs IH]; intros st Hall; simpl.
  - rewrite app_nil_r. repeat split; auto. intros m Hm. inversion Hm.
  - inversion Hall as [|? ? Hm Hrest]; subst.
    destruct (process_message_spec c media_dir stamp st m)
      as (Hv & (data & Hid & Hmsgs) & Hins & Hframe).
    destruct (IH (process_message c media_dir stamp st m) Hrest)
      as (Hv' & Hms' & Hframe' & Hins').
    split; [rewrite Hv', Hv, <- app_assoc; reflexivity|].
    split; [|split].
    + intros Hold. apply Hms'. rewrite Hmsgs. apply Forall_app. split; [exact Hold|].
      constructor; [rewrite Hid; exact Hm | constructor].
    + intros k Hk. rewrite Hframe' by exact Hk. apply Hframe.
      intros ->. contradiction.
    + intros m' Hm'. apply elem_of_cons in Hm' as [->|Hm']; [|apply Hins'; exact Hm'].
      destruct (decide (Exists (fun x => id x = id m) msgs)) as [Hex|Hnex].
      * apply Exists_exists in Hex as (x & Hx & Hxid). rewrite <- Hxid.
        apply Hins'. exact Hx.
      * clear - Hins Hnex. revert Hins.
        generalize (process_message c media_dir stamp st m). intros st1 Hins.
        induction msgs as [|x msgs IHm] in st1, Hins, Hnex |- *; [exact Hins|].
        simpl. apply IHm.
        -- intros Hex. apply Hnex. right. exact Hex.
        -- destruct (process_message_spec c media_dir stamp st1 x) as (_ & _ & _ & Hfr).
           rewrite Hfr; [exact Hins|]. intros E. apply Hnex. left. symmetry. exact E.
Qed.

(** The loop puts one record in the batch for each message it visits, in
    the order of the visits. *)
Lemma run_loop_batch c media_dir stamp msgs : forall st,
  let st' := fold_left (process_message c media_dir stamp) msgs st in
  map md_id (messages st') = map md_id (messages st) ++ map id msgs.
Proof.
  induction msgs as [|m msgs IH]; intros st; simpl.
  - rewrite app_nil_r. reflexivity.
  - destruct (process_message_spec c media_dir stamp st m)
      as (_ & (data & Hid & Hmsgs) & _ & _).
    rewrite (IH (process_message c media_dir stamp st m)), Hmsgs, map_app.
    simpl. rewrite Hid, <- app_assoc. reflexivity.
Qed.

(** A row of the store after the loop was there before or is the row of a
    message the loop visited. *)
Lemma run_loop_keys c media_dir stamp msgs : forall st k,
  let st' := fold_left (process_message c media_dir stamp) msgs st in
  is_Some (db st' !! k) ->
  is_Some (db st !! k) \/ exists m, m ∈ msgs /\ id m = k.
Proof.
  induction msgs as [|m msgs IH]; intros st k; simpl; [auto|].
  intros Hk. destruct (IH _ k Hk) as [Hold|(m' & Hin & Hid)].
  - destruct (decide (k = id m)) as [->|Hne].
    + right. exists m. split; [left | reflexivity].
    + destruct (process_message_spec c media_dir stamp st m) as (_ & _ & _ & Hframe).
      rewrite Hframe in Hold by exact Hne. left. exact Hold.
  - right. exists m'. split; [right; exact Hin | exact Hid].
Qed.

End CrawlFacts.

(** C3.  Resumption.  When the store of the chat holds a largest message id
    [M > 0], [get_latest_message_id] returns [M] and the run is a delta
    sync: it iterates the source with [min_id = M]; every message it
    visits has an id above [M], is put in the batch (one record per
    message, in the order of the visits) and is in the store after the
    run; the store gains no other row, and the rows with ids up to [M] are
    left as they were.  When the store is empty, [get_latest_message_id]
    returns 0 and the run is a full sync: it iterates without [min_id] and
    visits all the messages of the chat, each of which is then in the
    store. *)
Theorem download_messages_resumption
    (c : Telethon.Client) (media_dir : string) (stamp : Q -> string)
    (store : Crawler.Database.t) (w : Crawler.world) :
  let run := Crawler.download_messages c media_dir stamp store w in
  (forall M, is_Some (store !! M) -> (forall k, is_Some (store !! k) -> k <= M) -> 0 < M ->
     Crawler.Database.get_latest_message_id store = M /\
     Crawler.iteration_min_id (Crawler.Database.get_latest_message_id store) = Some M /\
     run.2 = true /\
     (Telethon.total_with_min_id c M <> 0 ->
      Crawler.visited run.1 = Telethon.iter_messages c (Some M)) /\
     Forall (fun m => M < Telethon.id m) (Crawler.visited run.1) /\
     Forall (fun d => M < Crawler.md_id d) (Crawler.messages run.1) /\
     (forall k, k <= M -> Crawler.db run.1 !! k = store !! k) /\
     (forall m, m ∈ Crawler.visited run.1 ->
        is_Some (Crawler.db run.1 !! Telethon.id m)) /\
     map Crawler.md_id (Crawler.messages run.1)
       = map Telethon.id (Crawler.visited run.1) /\
     (forall k, is_Some (Crawler.db run.1 !! k) ->
        is_Some (store !! k) \/
        exists m, m ∈ Crawler.visited run.1 /\ Telethon.id m = k)) /\
  (store = ∅ ->
     Crawler.Database.get_latest_message_id store = 0 /\
     Crawler.iteration_min_id (Crawler.Database.get_latest_message_id store) = None /\
     run.2 = true /\
     Crawler.visited run.1 = Telethon.history c /\
     (forall m, m ∈ Telethon.history c -> is_Some (Crawler.db run.1 !! Telethon.id m))).
Proof.
  intros run. split.
  - intros M HM Hmax Hpos.
    assert (Hlatest : Crawler.Database.get_latest_message_id store = M).
    { unfold Crawler.Database.get_latest_message_id.
      rewrite (select_max_id_spec store M HM Hmax). reflexivity. }
    assert (Hmin : Crawler.iteration_min_id M = Some M).
    { unfold Crawler.iteration_min_id. destruct (Z.eqb_spec M 0); [lia | reflexivity]. }
    rewrite Hlatest. split; [reflexivity|]. split; [exact Hmin|].
    subst run. unfold Crawler.download_messages. rewrite Hlatest, Hmin.
    change (Limiter.init Crawler.MAX_REQUESTS_PER_SECOND (Crawler.now w))
      with (Some (Limiter.mkRateLimiter 50 (1 / inject_Z 50) 0 0 (Crawler.now w))).
    cbv iota. destruct (Limiter.wait _ (Crawler.now w)) as [rl1 t1].
    assert (Hall : Forall (fun m => M < Telethon.id m) (Telethon.iter_messages c (Some M))).
    { apply Forall_forall. intros m Hm. simpl in Hm.
      apply list_elem_of_filter in Hm as [Hm _]. exact Hm. }
    match goal with |- context [fold_left ?f ?l ?s] =>
      destruct (run_loop_spec c media_dir stamp (fun k => M < k) l s Hall)
        as (Hv & Hms & Hframe & Hins);
      pose proof (run_loop_batch c media_dir stamp l s) as Hbatch;
      pose proof (run_loop_keys c media_dir stamp l s) as Hkeys
    end.
    simpl in Hv, Hms, Hbatch, Hkeys.
    unfold Telethon.get_messages_total.
    destruct (Z.eqb_spec (Telethon.total_with_min_id c M) 0) as [E|E]; simpl.
    + split; [reflexivity|]. split; [intros Hne; contradiction|].
      split; [constructor|]. split; [constructor|]. split; [reflexivity|].
      split; [intros m Hm; inversion Hm|]. split; [reflexivity|].
      intros k Hk. left. exact Hk.
    + split; [reflexivity|]. split; [intros _; exact Hv|].
      split; [rewrite Hv; exact Hall|]. split; [apply Hms; constructor|].
      split; [intros k Hk; rewrite Hframe by lia; reflexivity|].
      split; [intros m Hm; rewrite Hv in Hm; apply Hins; exact Hm|].
      split; [rewrite Hbatch, Hv; reflexivity|].
      intros k Hk. rewrite Hv. apply Hkeys. exact Hk.
  - intros ->.
    assert (Hlatest : Crawler.Database.get_latest_message_id ∅ = 0).
    { unfold Crawler.Database.get_latest_message_id. rewrite select_max_id_empty.
      reflexivity. }
    rewrite Hlatest. split; [reflexivity|]. split; [reflexivity|].
    subst run. unfold Crawler.download_messages. rewrite Hlatest.
    change (Crawler.iteration_min_id 0) with (@None Z).
    change (Limiter.init Crawler.MAX_REQUESTS_PER_SECOND (Crawler.now w))
      with (Some (Limiter.mkRateLimiter 50 (1 / inject_Z 50) 0 0 (Crawler.now w))).
    cbv iota. destruct (Limiter.wait _ (Crawler.now w)) as [rl1 t1].
    unfold Telethon.get_messages_total, Telethon.iter_messages.
    destruct (Z.eqb_spec (Z.of_nat (length (Telethon.history c))) 0) as [E|E]; simpl.
    + destruct (Telethon.history c); [|simpl in E; lia].
      repeat split. intros m Hm. inversion Hm.
    + match goal with |- context [fold_left ?f ?l ?s] =>
        destruct (run_loop_spec c media_dir stamp (fun _ => True) l s)
          as (Hv & _ & _ & Hins)
      end.
      { apply Forall_forall. auto. }
      repeat split; [exact Hv | exact Hins].
Qed.

(** ** The manifest store *)

Section ManifestFacts.
Import Manifest.

(** One call on a chat that is already present. *)
Lemma update_chat_existing (self : Manifest.t) d now row :
  self !! cd_chat_id d = Some row ->
  let r := update_chat self d now in
  exists row', r.1 !! cd_chat_id d = Some row' /\
    first_seen row' = first_seen row /\
    (r.2 = true -> last_seen row' = now /\ last_updated row' = now) /\
    (r.2 = false -> row' = row).
Proof.
  intros Hrow. unfold update_chat. rewrite Hrow.
  destruct (dict_index (fields d) "name") as [name|];
    [destruct (dict_index (fields d) "type") as [type|];
     [destruct (is_null name || is_null type)|]|]; simpl;
    try (exists row; split; [exact Hrow|]; split; [reflexivity|];
         split; [discriminate | reflexivity]).
  eexists. split; [apply lookup_insert_eq|]. simpl.
  split; [reflexivity|]. split; [auto | discriminate].
Qed.

(** One call leaves every other chat alone. *)
Lemma update_chat_other (self : Manifest.t) d now k :
  k <> cd_chat_id d -> (update_chat self d now).1 !! k = self !! k.
Proof.
  intros Hk. unfold update_chat.
  destruct (self !! cd_chat_id d);
    (destruct (dict_index (fields d) "name") as [name|];
     [destruct (dict_index (fields d) "type") as [type|];
      [destruct (is_null name || is_null type)|]|]); simpl;
    try reflexivity; rewrite lookup_insert_ne by congruence; reflexivity.
Qed.





End ManifestFacts.



(** ** The embedding client *)

Section EmbeddingFacts.
Import Embedding.
Local Open Scope string_scope.

(** On empty or blank text, on a failure, and on a reply that decodes to
    an array of rank 0 or 1, the result is a vector of exactly [dim]
    entries: the first [dim] entries of a longer reply, a shorter reply
    followed by zeros, and all zeros in the other cases. *)
Lemma get_embedding_rank_le_1 (server : string -> reply) (text : string) (dim : nat) :
  rank_le_1 (server (text ++ "<|endoftext|>")) ->
  exists entries,
    get_embedding_from_server server text dim = Vector entries /\
    length entries = dim /\
    (Py.truthy text = false \/ Py.truthy (Py.strip text) = false \/
     server (text ++ "<|endoftext|>") = Failure \/
     (exists x, server (text ++ "<|endoftext|>") = Decoded (Scalar x)) ->
     entries = replicate dim 0%Q) /\
    (forall reply_entries,
       Py.truthy text = true -> Py.truthy (Py.strip text) = true ->
       server (text ++ "<|endoftext|>") = Decoded (Vector reply_entries) ->
       entries = (take dim reply_entries ++ replicate (dim - length reply_entries) 0%Q)%list).
Proof.
  intros Hrank. unfold get_embedding_from_server.
  destruct (Py.truthy text) eqn:Ht; simpl;
    [destruct (Py.truthy (Py.strip text)) eqn:Hs; simpl|].
  - destruct (server (text ++ "<|endoftext|>")) as [|[x|reply_entries|cols rows]] eqn:Hr;
      simpl in Hrank; try contradiction.
    + exists (replicate dim 0%Q). repeat split; auto using length_replicate.
      intros ? _ _ E. discriminate.
    + exists (replicate dim 0%Q). repeat split; auto using length_replicate.
      intros ? _ _ E. discriminate.
    + simpl. destruct (Nat.ltb_spec dim (length reply_entries)) as [Hlt|Hge];
        [|destruct (Nat.ltb_spec (length reply_entries) dim) as [Hlt|Hge']]; simpl.
      * exists (take dim reply_entries). split; [reflexivity|].
        split; [rewrite length_take; lia|]. split.
        -- intros [E|[E|[E|[x E]]]]; discriminate.
        -- intros ? _ _ E. inversion E; subst.
           replace (dim - length reply_entries0)%nat with 0%nat by lia.
           simpl. rewrite app_nil_r. reflexivity.
      * exists (reply_entries ++ replicate (dim - length reply_entries) 0%Q)%list.
        split; [reflexivity|].
        split; [rewrite length_app, length_replicate; lia|]. split.
        -- intros [E|[E|[E|[x E]]]]; discriminate.
        -- intros ? _ _ E. inversion E; subst.
           rewrite take_ge by lia. reflexivity.
      * exists reply_entries. split; [reflexivity|]. split; [lia|]. split.
        -- intros [E|[E|[E|[x E]]]]; discriminate.
        -- intros ? _ _ E. inversion E; subst.
           rewrite take_ge by lia.
           replace (dim - length reply_entries0)%nat with 0%nat by lia.
           simpl. rewrite app_nil_r. reflexivity.
  - exists (replicate dim 0%Q). repeat split; auto using length_replicate.
    intros ? _ E. discriminate.
  - exists (replicate dim 0%Q). repeat split; auto using length_replicate.
    intros ? E. discriminate.
Qed.

End EmbeddingFacts.

(** C5.  On a reply of rank 2 no statement of the [try] block raises, and
    [get_embedding_from_server] returns neither a vector nor zeros: the
    (1, 2) array is padded along both axes (here for [dim = 3]) and
    returned as a (3, 4) matrix that still holds the reply's entries. *)
Theorem get_embedding_rank2_reply :
  Embedding.get_embedding_from_server nested_reply_server "hello" 3 =
    Embedding.Matrix 4 [ [1 # 2; 1 # 4; 0; 0]; [0; 0; 0; 0]; [0; 0; 0; 0] ]%Q
  /\ Embedding.get_embedding_from_server nested_reply_server "hello" 3 <> Embedding.zeros 3
  /\ forall entries,
       Embedding.get_embedding_from_server nested_reply_server "hello" 3
         <> Embedding.Vector entries.
Proof.
  assert (H : Embedding.get_embedding_from_server nested_reply_server "hello" 3 =
              Embedding.Matrix 4 [ [1 # 2; 1 # 4; 0; 0]; [0; 0; 0; 0]; [0; 0; 0; 0] ]%Q)
    by (vm_compute; reflexivity).
  split; [exact H|]. rewrite H. split; [discriminate | intros entries; discriminate].
Qed.

(** ** The importer *)

Section ImporterFacts.
Import Warehouse Importer.

Lemma find_app_Some {A} (f : A -> bool) l l' x :
  find f l = Some x -> find f (l ++ l') = Some x.
Proof.
  induction l as [|a l IH]; simpl; [discriminate|].
  destruct (f a); [auto | exact IH].
Qed.

Lemma find_app_None {A} (f : A -> bool) l l' :
  find f l = None -> find f (l ++ l') = find f l'.
Proof.
  induction l as [|a l IH]; simpl; [reflexivity|].
  destruct (f a); [discriminate | exact IH].
Qed.

Lemma find_existsb {A} (f : A -> bool) l :
  existsb f l = match find f l with Some _ => true | None => false end.
Proof. induction l as [|a l IH]; simpl; [reflexivity|]. destruct (f a); auto. Qed.

Lemma bind_Ok {A B} (m : M A) (k : A -> M B) s b s' :
  bind m k s = Ok b s' <-> exists a s1, m s = Ok a s1 /\ k a s1 = Ok b s'.
Proof.
  unfold bind. destruct (m s) as [a s1|s1]; split.
  - intros H. exists a, s1. split; [reflexivity | exact H].
  - intros (a' & s1' & E & H). inversion E; subst. exact H.
  - discriminate.
  - intros (a' & s1' & E & _). discriminate.
Qed.

Lemma bind_Raised {A B} (m : M A) (k : A -> M B) s s' :
  bind m k s = Raised s' <->
  m s = Raised s' \/ exists a s1, m s = Ok a s1 /\ k a s1 = Raised s'.
Proof.
  unfold bind. destruct (m s) as [a s1|s1]; split.
  - intros H. right. exists a, s1. split; [reflexivity | exact H].
  - intros [E|(a' & s1' & E & H)]; [discriminate|]. inversion E; subst. exact H.
  - intros H. left. inversion H. reflexivity.
  - intros [E|(a' & s1' & E & _)]; [inversion E; reflexivity | discriminate].
Qed.

Lemma with_attachments_nil s : with_attachments s [] (attachment_seq (seq s)) = s.
Proof.
  destruct s as [[] ? []]. unfold with_attachments. simpl. rewrite app_nil_r. reflexivity.
Qed.

Lemma insert_attachments_eq raises document_id files : forall s,
  exists rows last,
    insert_attachments raises document_id files s = with_attachments s rows last /\
    Forall (fun a => exists f, JObj f ∈ files /\
              a = {| attachment_id_ := attachment_id_ a;
                     attachment_document_id := document_id;
                     filename := dict_get f "name";
                     mime_type := dict_get f "mime_type";
                     file_path := dict_get f "path" |}) rows.
Proof.
  induction files as [|f files IH]; intros s; simpl.
  - exists [], (attachment_seq (seq s)). rewrite with_attachments_nil. auto.
  - destruct f as [| | | | |f];
      try (exists [], (attachment_seq (seq s)); rewrite with_attachments_nil; auto; fail).
    destruct (raises _).
    + exists [], (attachment_seq (seq s)). rewrite with_attachments_nil. auto.
    + destruct (IH (add_attachment s document_id (dict_get f "name")
                      (dict_get f "mime_type") (dict_get f "path")))
        as (rows & last & -> & Hrows).
      eexists (_ :: rows), last. split.
      * unfold with_attachments, add_attachment. simpl. rewrite <- app_assoc. reflexivity.
      * constructor.
        -- exists f. split; [left|]. reflexivity.
        -- eapply Forall_impl; [exact Hrows|]. simpl.
           intros a (f' & Hin & Ha). exists f'. split; [right; exact Hin | exact Ha].
Qed.

Lemma attachments_step_eq raises document_id media_files s :
  exists rows last,
    attachments_step raises document_id media_files s = with_attachments s rows last.
Proof.
  unfold attachments_step, import_attachments.
  destruct media_files as [[files|raw]|];
    try (exists [], (attachment_seq (seq s)); rewrite with_attachments_nil;
         try destruct (Py.text_truthy _); reflexivity).
  destruct (Py.text_truthy _);
    [|exists [], (attachment_seq (seq s)); rewrite with_attachments_nil; reflexivity].
  destruct (iterate files) as [items|];
    [|exists [], (attachment_seq (seq s)); rewrite with_attachments_nil; reflexivity].
  destruct (insert_attachments_eq raises document_id items s) as (rows & last & E & _).
  eauto.
Qed.

Lemma grows_refl tb : grows tb tb.
Proof. repeat split; exists []; rewrite app_nil_r; reflexivity. Qed.

Lemma grows_trans a b c : grows a b -> grows b c -> grows a c.
Proof.
  intros ([l1 H1] & [l2 H2] & [l3 H3]) ([m1 K1] & [m2 K2] & [m3 K3]).
  repeat split; eexists; [rewrite K1, H1 | rewrite K2, H2 | rewrite K3, H3];
    rewrite <- app_assoc; reflexivity.
Qed.

Lemma covered_grows tb tb' sid row : covered tb sid row -> grows tb tb' -> covered tb' sid row.
Proof.
  intros [Hc Hd] (_ & [l2 H2] & [l3 H3]). split.
  - intros sender Hs Ht. destruct (Hc sender Hs Ht) as [x Hx].
    unfold has_contact. rewrite H2, (find_app_Some _ _ _ _ Hx). eauto.
  - unfold has_document in *. rewrite H3, existsb_app, Hd. reflexivity.
Qed.

Ltac run_record :=
  unfold import_record, resolve_contact, select_contact, insert_contact,
    insert_document, import_passage, insert_passage, insert_passage_embedding,
    commit, execute, bind, ret;
  repeat (first
    [ match goal with
      | |- context [attachments_step ?r ?d ?m ?s] =>
          let rows := fresh "rows" in let last := fresh "last" in
          destruct (attachments_step_eq r d m s) as (rows & last & ->)
      end
    | match goal with
      | |- context [match ?x with _ => _ end] =>
          lazymatch x with
          | context [match _ with _ => _ end] => fail
          | _ => destruct x eqn:?
          end
      end ]; cbn [live durable seq set_live set_seq with_attachments
                  source contact document attachment passage passage_embedding
                  source_seq contact_seq document_seq attachment_seq passage_seq
                  passage_embedding_seq]).

Ltac solve_grows :=
  unfold grows; cbn [source contact document];
  repeat split;
  first [ exists []; rewrite app_nil_r; reflexivity | eexists; reflexivity ].

Lemma fmap_find_Some {A B} (g : A -> B) (f : A -> bool) l z :
  g <$> find f l = Some z -> is_Some (find f l).
Proof. destruct (find f l); [eauto | discriminate]. Qed.

Lemma fmap_find_None {A B} (g : A -> B) (f : A -> bool) l :
  g <$> find f l = None -> find f l = None.
Proof. destruct (find f l); [discriminate | reflexivity]. Qed.

Lemma has_document_new docs sid ext d :
  source_id d = sid -> ext_id d = ext ->
  existsb (fun r => Z.eqb (source_id r) sid && String.eqb (ext_id r) ext) (docs ++ [d]) = true.
Proof.
  intros <- <-. rewrite existsb_app. simpl.
  rewrite Z.eqb_refl, String.eqb_refl. simpl. apply orb_true_r.
Qed.

Lemma has_contact_new cs sender i :
  is_Some (find (fun r => bool_decide (canonical r = Some sender))
             (cs ++ [ {| contact_id_ := i; canonical := Some sender |} ])).
Proof.
  destruct (find (fun r => bool_decide (canonical r = Some sender)) cs) eqn:E.
  - rewrite (find_app_Some _ _ _ _ E). eauto.
  - rewrite (find_app_None _ _ _ E). simpl.
    rewrite bool_decide_eq_true_2 by reflexivity. eauto.
Qed.

Ltac solve_covered :=
  split;
  [ let sender := fresh "sender" in
    let Hs := fresh "Hs" in let Ht := fresh "Ht" in
    intros sender Hs Ht; unfold has_contact; cbn [contact];
    try congruence;
    match goal with
    | H : Messages.sender _ = Some ?t |- _ =>
        rewrite H in Hs; injection Hs as <-
    end;
    try congruence;
    first [ eapply fmap_find_Some; eassumption | apply has_contact_new ]
  | unfold has_document; cbn [document];
    first [ assumption | apply has_document_new; reflexivity ] ].

Lemma import_record_grows raises server chat_id sid row s :
  match import_record raises server chat_id sid row s with
  | Ok _ s' => grows (live s) (live s') /\ covered (live s') sid row
  | Raised s' => grows (live s) (live s')
  end.
Proof.
  run_record.
  all: try (split; [solve_grows | solve_covered]).
  all: solve_grows.
Qed.

(** On a record that is covered, the body finds the contact, gets no row
    from the document insert and leaves through [continue]: the tables
    stay as they are. *)
Lemma import_record_again raises server chat_id sid row s :
  covered (live s) sid row ->
  match import_record raises server chat_id sid row s with
  | Ok reached_end s' => reached_end = false /\ live s' = live s /\ durable s' = durable s
  | Raised s' => live s' = live s /\ durable s' = durable s
  end.
Proof.
  intros [Hc Hd]. unfold has_document in Hd.
  run_record; auto.
  all: try congruence.
  all: match goal with
       | Ht : Py.text_truthy ?t = true, Hf : _ <$> find _ _ = None |- _ =>
           destruct (Hc t eq_refl Ht) as [x Hx]; apply fmap_find_None in Hf; congruence
       end.
Qed.

Lemma commit_spec raises s :
  match commit raises s with
  | Ok _ s' => live s' = live s /\ durable s' = live s /\ seq s' = seq s
  | Raised s' => s' = s
  end.
Proof. unfold commit. destruct (raises Commit); simpl; auto. Qed.

Lemma import_rows_grows raises server chat_id sid rows : forall n s,
  match import_rows raises server chat_id sid rows n s with
  | Ok _ s' => grows (live s) (live s') /\ Forall (covered (live s') sid) rows
  | Raised s' => grows (live s) (live s')
  end.
Proof.
  induction rows as [|row rows IH]; intros n s; simpl.
  - split; [apply grows_refl | constructor].
  - unfold bind at 1.
    pose proof (import_record_grows raises server chat_id sid row s) as Hrec.
    destruct (import_record raises server chat_id sid row s) as [reached s1|s1];
      [|exact Hrec].
    destruct Hrec as [Hg Hcov].
    assert (Hrest : forall m s2, live s2 = live s1 ->
              match import_rows raises server chat_id sid rows m s2 with
              | Ok _ s' => grows (live s) (live s') /\
                           Forall (covered (live s') sid) (row :: rows)
              | Raised s' => grows (live s) (live s')
              end).
    { intros m s2 Hl. specialize (IH m s2). rewrite Hl in IH.
      destruct (import_rows raises server chat_id sid rows m s2) as [n' s'|s'].
      - destruct IH as [Hg' Hall]. split; [eapply grows_trans; eauto|].
        constructor; [eapply covered_grows; eauto | exact Hall].
      - eapply grows_trans; eauto. }
    destruct reached; [|apply Hrest; reflexivity].
    unfold bind. destruct (Z.eqb _ 0).
    + pose proof (commit_spec raises s1) as Hc.
      destruct (commit raises s1) as [[] s2|s2].
      * apply Hrest. tauto.
      * subst s2. exact Hg.
    + unfold ret. apply Hrest. reflexivity.
Qed.

Lemma import_rows_again raises server chat_id sid rows : forall n s,
  Forall (covered (live s) sid) rows ->
  match import_rows raises server chat_id sid rows n s with
  | Ok n' s' => n' = n /\ live s' = live s /\ durable s' = durable s
  | Raised s' => live s' = live s /\ durable s' = durable s
  end.
Proof.
  induction rows as [|row rows IH]; intros n s Hall; simpl.
  - unfold ret. auto.
  - inversion Hall as [|? ? Hrow Hrest]; subst.
    unfold bind at 1.
    pose proof (import_record_again raises server chat_id sid row s Hrow) as Hrec.
    destruct (import_record raises server chat_id sid row s) as [reached s1|s1];
      [|exact Hrec].
    destruct Hrec as (-> & Hl & Hd).
    rewrite <- Hl in Hrest. specialize (IH n s1 Hrest).
    destruct (import_rows raises server chat_id sid rows n s1) as [n' s'|s'].
    + destruct IH as (-> & Hl' & Hd'). repeat split; congruence.
    + destruct IH as (Hl' & Hd'). split; congruence.
Qed.

Lemma source_named_grows tb tb' name i :
  source_named tb name = Some i -> grows tb tb' -> source_named tb' name = Some i.
Proof.
  unfold source_named. intros H ([l Hl] & _).
  destruct (find _ (source tb)) as [r|] eqn:E; [|discriminate].
  rewrite Hl, (find_app_Some _ _ _ _ E). exact H.
Qed.

(** A run that completes leaves every record covered under the source
    of the chat, with everything committed. *)
Lemma import_chat_completed raises server chat_id rows s0 n1 s1 :
  import_chat raises server chat_id rows s0 = Ok n1 s1 ->
  exists sid, source_named (live s1) (Py.str chat_id) = Some sid /\
              Forall (covered (live s1) sid) rows /\
              durable s1 = live s1.
Proof.
  unfold import_chat. intros H.
  apply bind_Ok in H as (src & sA & Hsel & H).
  apply bind_Ok in H as (sid & sB & Hsid & H).
  apply bind_Ok in H as (n & sC & Hrows & H).
  apply bind_Ok in H as ([] & sD & Hcommit & H).
  unfold ret in H. inversion H; subst n1 s1; clear H.
  exists sid.
  assert (HB : source_named (live sB) (Py.str chat_id) = Some sid).
  { unfold select_source, bind, execute in Hsel.
    destruct (raises (SelectSource _)); [discriminate|].
    inversion Hsel; subst src sA; clear Hsel.
    destruct (source_id_ <$> find _ (source (live s0))) as [i|] eqn:Hfind.
    - unfold ret in Hsid. inversion Hsid; subst. exact Hfind.
    - apply fmap_find_None in Hfind.
      unfold insert_source, bind, execute, ret in Hsid.
      destruct (raises (InsertSource _ _)); [discriminate|].
      destruct (existsb _ _); [discriminate|].
      match type of Hsid with
      | match commit raises ?st with _ => _ end = _ =>
          pose proof (commit_spec raises st) as Hc';
          destruct (commit raises st) as [[] s2|s2]; [|discriminate]
      end.
      inversion Hsid; subst. destruct Hc' as (Hl & _).
      unfold source_named. rewrite Hl. cbn [live set_live source].
      rewrite (find_app_None _ _ _ Hfind). simpl.
      rewrite bool_decide_eq_true_2 by reflexivity. reflexivity. }
  pose proof (import_rows_grows raises server chat_id sid rows 0 sB) as Hg.
  rewrite Hrows in Hg. destruct Hg as [Hg Hall].
  pose proof (commit_spec raises sC) as Hc. rewrite Hcommit in Hc.
  destruct Hc as (Hl & Hd & _).
  rewrite Hl, Hd. split; [eapply source_named_grows; eauto|]. split; [exact Hall | reflexivity].
Qed.

(** A run over records that are all covered inserts nothing. *)
Lemma import_chat_again raises server chat_id rows s sid :
  source_named (live s) (Py.str chat_id) = Some sid ->
  Forall (covered (live s) sid) rows ->
  durable s = live s ->
  match import_chat raises server chat_id rows s with
  | Ok n s' => n = 0 /\ durable s' = durable s
  | Raised s' => durable s' = durable s
  end.
Proof.
  intros Hsrc Hall Hdur. unfold import_chat, select_source, execute.
  unfold bind at 1. unfold bind at 1.
  destruct (raises (SelectSource _)); [reflexivity|].
  fold (source_named (live s) (Py.str chat_id)). rewrite Hsrc.
  unfold bind at 1. unfold ret at 1. unfold bind at 1.
  pose proof (import_rows_again raises server chat_id sid rows 0 s Hall) as Hrows.
  destruct (import_rows raises server chat_id sid rows 0 s) as [n sC|sC].
  - destruct Hrows as (-> & Hl & Hd). unfold bind, ret.
    pose proof (commit_spec raises sC) as Hc.
    destruct (commit raises sC) as [[] sD|sD].
    + destruct Hc as (_ & Hd' & _). split; [reflexivity | congruence].
    + subst sD. exact Hd.
  - tauto.
Qed.

Ltac no_fault H :=
  match goal with
  | E : ?raises ?q = true |- _ =>
      let d := fresh in let a := fresh in let b := fresh in let c := fresh in
      let Hq := fresh in
      destruct (H q E) as (d & a & b & c & Hq); discriminate Hq
  end.

Lemma import_record_total raises server chat_id sid row s :
  only_attachment_faults raises ->
  exists reached_end s', import_record raises server chat_id sid row s = Ok reached_end s'.
Proof.
  intros Hf. run_record; eauto; no_fault Hf.
Qed.

Lemma commit_total raises s :
  only_attachment_faults raises -> exists s', commit raises s = Ok tt s'.
Proof.
  intros Hf. unfold commit. destruct (raises Commit) eqn:E; [no_fault Hf | eauto].
Qed.

Lemma import_rows_total raises server chat_id sid rows :
  only_attachment_faults raises ->
  forall n s, exists n' s', import_rows raises server chat_id sid rows n s = Ok n' s'.
Proof.
  intros Hf. induction rows as [|row rows IH]; intros n s; simpl.
  - unfold ret. eauto.
  - unfold bind at 1.
    destruct (import_record_total raises server chat_id sid row s Hf) as (b & s1 & ->).
    destruct b; [|apply IH].
    unfold bind. destruct (Z.eqb _ 0).
    + destruct (commit_total raises s1 Hf) as (s2 & ->). apply IH.
    + unfold ret. apply IH.
Qed.

Lemma import_chat_total raises server chat_id rows s :
  only_attachment_faults raises ->
  exists n s', import_chat raises server chat_id rows s = Ok n s'.
Proof.
  intros Hf. unfold import_chat, select_source, execute.
  unfold bind at 1. unfold bind at 1.
  destruct (raises (SelectSource _)) eqn:E; [no_fault Hf|].
  assert (Hsrc : exists sid sB,
            match source_id_ <$> find (fun r => bool_decide (source_name r = Some (Py.str chat_id)))
                                   (source (live s)) with
            | Some i => ret i
            | None => bind (insert_source raises (Py.str chat_id) "chat")
                        (fun i => bind (commit raises) (fun _ => ret i))
            end s = Ok sid sB).
  { destruct (find _ (source (live s))) as [r|] eqn:Hfind; simpl.
    - unfold ret. eauto.
    - unfold insert_source, execute, bind.
      destruct (raises (InsertSource _ _)) eqn:E2; [no_fault Hf|].
      rewrite find_existsb, Hfind.
      match goal with
      | |- context [commit raises ?st] => destruct (commit_total raises st Hf) as (s2 & ->)
      end.
      unfold ret. eauto. }
  destruct Hsrc as (sid & sB & Hsrc).
  unfold bind at 1. rewrite Hsrc.
  unfold bind at 1.
  destruct (import_rows_total raises server chat_id sid rows Hf 0 sB) as (n & sC & ->).
  unfold bind. destruct (commit_total raises sC Hf) as (sD & ->).
  unfold ret. eauto.
Qed.

Lemma no_faults_only : only_attachment_faults no_faults.
Proof. intros q E. discriminate E. Qed.

End ImporterFacts.

Section RecordEffects.
Import Warehouse Importer.

Lemma resolve_contact_effect raises sender s :
  match resolve_contact raises sender s with
  | Ok _ s1 => contact_step s s1
  | Raised s1 => contact_step s s1
  end.
Proof.
  unfold resolve_contact, select_contact, insert_contact, commit, execute, bind, ret.
  repeat match goal with
         | |- context [match ?x with _ => _ end] =>
             lazymatch x with
             | context [match _ with _ => _ end] => fail
             | _ => destruct x eqn:?
             end
         end;
    unfold contact_step, same_content, same_counters; simpl; tauto.
Qed.

Lemma insert_document_effect raises sid ext thread sent author body s :
  match insert_document raises sid ext thread sent author body s with
  | Ok None s' => has_document (live s) sid ext = true /\ s' = bump_document s
  | Ok (Some i) s' =>
      has_document (live s) sid ext = false /\ i = next_document s /\
      s' = add_document s (new_document s sid ext thread sent author body)
  | Raised s' => s' = s
  end.
Proof.
  unfold insert_document, execute, bind, has_document.
  destruct (raises _); [reflexivity|].
  destruct (existsb _ _); auto.
Qed.

Lemma add_passages_nil s : add_passages s [] [] = s.
Proof.
  destruct s as [[] ? []]. unfold add_passages. simpl.
  rewrite !app_nil_r, !Z.add_0_r. reflexivity.
Qed.

Lemma import_passage_effect raises server document_id text s :
  match import_passage raises server document_id text s with
  | Ok _ s' =>
      if worth_embedding (Py.strip text)
      then s' = add_passages s [new_passage s document_id (Py.strip text)]
                  [new_embedding server s (Py.strip text)]
      else s' = s
  | Raised s' => durable s' = durable s /\
                 document_seq (seq s') = document_seq (seq s) /\
                 passage_seq (seq s) <= passage_seq (seq s')
  end.
Proof.
  unfold import_passage, insert_passage, insert_passage_embedding, execute, bind, ret.
  destruct (worth_embedding _); [|reflexivity].
  destruct (raises (InsertPassage _ _ _ _ _)).
  { repeat split; lia. }
  destruct (raises (InsertPassageEmbedding _ _ _)); simpl.
  - repeat split; lia.
  - reflexivity.
Qed.

Section Invariant.
Variable tb0 : tables.
Variable Q : document_row -> Prop.

Lemma filter_none {A} (P : A -> Prop) `{forall x, Decision (P x)} (l : list A) :
  Forall (fun x => ~ P x) l -> filter P l = [].
Proof.
  induction 1 as [|x l Hx _ IH]; [reflexivity|].
  rewrite filter_cons. destruct (decide (P x)); [contradiction | exact IH].
Qed.

Lemma Inv_ext tb sq tb' sq' :
  Inv tb0 Q tb sq ->
  document tb' = document tb -> passage tb' = passage tb ->
  passage_embedding tb' = passage_embedding tb ->
  document_seq sq <= document_seq sq' -> passage_seq sq <= passage_seq sq' ->
  Inv tb0 Q tb' sq'.
Proof.
  intros [(Hd & Hp & He) (news & Hnews & Hall)] Ed Ep Ee Hds Hps.
  split.
  - unfold bounded. rewrite Ed, Ep, Ee. repeat split.
    + eapply Forall_impl; [exact Hd|]. simpl. intros; lia.
    + eapply Forall_impl; [exact Hp|]. simpl. intros; lia.
    + eapply Forall_impl; [exact He|]. simpl. intros; lia.
  - exists news. rewrite Ed. split; [exact Hnews|].
    eapply Forall_impl; [exact Hall|]. simpl. intros d [Hq Hc]. split; [exact Hq|].
    unfold chunked, passages_of, embeddings_of in *. rewrite Ep, Ee. exact Hc.
Qed.

(** Rows appended for a newer document do not disturb an older one. *)
Lemma chunked_frame tb sq tb' d ps es :
  bounded tb sq -> document_id_ d <= document_seq sq -> chunked tb d ->
  passage tb' = passage tb ++ ps -> passage_embedding tb' = passage_embedding tb ++ es ->
  Forall (fun p => document_seq sq < passage_document_id p) ps ->
  Forall (fun e => passage_seq sq < passage_id e) es ->
  chunked tb' d.
Proof.
  intros (_ & Hp & _) Hd Hc Ep Ee Hps Hes.
  assert (Hnone : filter (fun p => passage_document_id p = document_id_ d) ps = []).
  { apply filter_none. eapply Forall_impl; [exact Hps|]. simpl. intros; lia. }
  unfold chunked, passages_of, embeddings_of in *.
  destruct (worth_embedding _).
  - destruct Hc as (p & e & H1 & H2 & H3 & H4 & H5 & H6 & H7).
    exists p, e. rewrite Ep, Ee, !filter_app, Hnone, H1, H6.
    repeat split; auto.
    assert (Hin : p ∈ passage tb).
    { assert (Hin' : p ∈ [p]) by left. rewrite <- H1 in Hin'.
      apply list_elem_of_filter in Hin'. tauto. }
    rewrite Forall_forall in Hp. destruct (Hp p Hin) as [Hpid _].
    rewrite (filter_none (fun e0 => passage_id e0 = passage_id_ p) es); [reflexivity|].
    eapply Forall_impl; [exact Hes|]. simpl. intros; lia.
  - rewrite Ep, filter_app, Hnone, Hc. reflexivity.
Qed.

(** The state of the tables after a record has been imported in full. *)
Lemma Inv_add tb sq tb' sq' d ps es :
  Inv tb0 Q tb sq -> Q d ->
  document tb' = document tb ++ [d] -> document_id_ d = document_seq sq + 1 ->
  passage tb' = passage tb ++ ps -> passage_embedding tb' = passage_embedding tb ++ es ->
  document_seq sq' = document_seq sq + 1 ->
  passage_seq sq' = passage_seq sq + Z.of_nat (length ps) ->
  (if worth_embedding (Py.strip (raw_body d))
   then exists p e, ps = [p] /\ es = [e] /\
          passage_id_ p = passage_seq sq + 1 /\
          passage_document_id p = document_id_ d /\
          level p = "P"%string /\ start_tok p = 0 /\
          end_tok p = Z.of_nat (length (Py.split (Py.strip (raw_body d)))) /\
          Warehouse.passage_text p = Py.strip (raw_body d) /\
          passage_id e = passage_id_ p /\ model_id e = "llama-server"%string
   else ps = [] /\ es = []) ->
  Inv tb0 Q tb' sq'.
Proof.
  intros [Hb (news & Hnews & Hall)] Hq Ed Hid Ep Ee Hds Hps Hnew.
  pose proof Hb as (Hbd & Hbp & Hbe).
  assert (Hps_doc : Forall (fun p => document_seq sq < passage_document_id p) ps /\
                    Forall (fun e => passage_seq sq < passage_id e) es /\
                    Forall (fun p => passage_id_ p <= passage_seq sq' /\
                                     passage_document_id p <= document_seq sq') ps /\
                    Forall (fun e => passage_id e <= passage_seq sq') es).
  { destruct (worth_embedding _).
    - destruct Hnew as (p & e & -> & -> & H1 & H2 & _ & _ & _ & _ & H3 & _).
      simpl in Hps. repeat split; repeat constructor; lia.
    - destruct Hnew as [-> ->]. repeat split; constructor. }
  destruct Hps_doc as (Hpd & Hep & Hpb & Heb).
  split.
  - unfold bounded. rewrite Ed, Ep, Ee. repeat split; apply Forall_app; split; auto.
    + eapply Forall_impl; [exact Hbd|]. simpl. intros; lia.
    + repeat constructor. lia.
    + eapply Forall_impl; [exact Hbp|]. simpl. intros; lia.
    + eapply Forall_impl; [exact Hbe|]. simpl. intros; lia.
  - exists (news ++ [d]). rewrite Ed, Hnews, app_assoc. split; [reflexivity|].
    apply Forall_app. split.
    + rewrite Forall_forall in Hall. apply Forall_forall. intros x Hx.
      destruct (Hall x Hx) as [Hqx Hcx]. split; [exact Hqx|].
      apply (chunked_frame tb sq tb' x ps es); auto.
      rewrite Forall_forall in Hbd. apply Hbd. rewrite Hnews.
      apply elem_of_app. right. exact Hx.
    + constructor; [|constructor]. split; [exact Hq|].
      assert (Hold : filter (fun p => passage_document_id p = document_id_ d) (passage tb) = []).
      { apply filter_none. eapply Forall_impl; [exact Hbp|]. simpl. intros; lia. }
      unfold chunked, passages_of, embeddings_of.
      rewrite Ep, Ee, !filter_app, Hold.
      destruct (worth_embedding _).
      * destruct Hnew as (p & e & -> & -> & H1 & H2 & H3 & H4 & H5 & H6 & H7 & H8).
        exists p, e. rewrite ?filter_app.
        rewrite (filter_none (fun e0 => passage_id e0 = passage_id_ p) (passage_embedding tb)).
        2:{ eapply Forall_impl; [exact Hbe|]. simpl. intros; lia. }
        rewrite !filter_cons, !filter_nil.
        destruct (decide (passage_document_id p = document_id_ d)); [|contradiction].
        destruct (decide (passage_id e = passage_id_ p)); [|contradiction].
        repeat split; auto.
      * destruct Hnew as [-> ->]. reflexivity.
Qed.

End Invariant.

Section Run.
Variable raises : stmt -> bool.
Variable server : string -> Embedding.reply.
Variable tb0 : tables.
Variable Q : document_row -> Prop.

Lemma contact_step_Inv s s1 :
  contact_step s s1 ->
  Inv tb0 Q (live s) (seq s) -> Inv tb0 Q (durable s) (seq s) ->
  Inv tb0 Q (live s1) (seq s1) /\ Inv tb0 Q (durable s1) (seq s1).
Proof.
  intros ((Ed & _ & Ep & Ee) & (Sd & _ & Sp & _) & Hdur) Hl Hd.
  assert (Hl1 : Inv tb0 Q (live s1) (seq s1))
    by (apply (Inv_ext tb0 Q (live s) (seq s)); auto; lia).
  split; [exact Hl1|].
  destruct Hdur as [-> | ->]; [|exact Hl1].
  apply (Inv_ext tb0 Q (durable s) (seq s)); auto; lia.
Qed.

Lemma import_record_Inv chat_id sid row s :
  (forall d, ext_id d = Py.str (Messages.id row) ->
             raw_body d = default ""%string (Messages.text row) -> Q d) ->
  Inv tb0 Q (live s) (seq s) -> Inv tb0 Q (durable s) (seq s) ->
  match import_record raises server chat_id sid row s with
  | Ok _ s' => Inv tb0 Q (live s') (seq s') /\ Inv tb0 Q (durable s') (seq s')
  | Raised s' => Inv tb0 Q (durable s') (seq s')
  end.
Proof.
  intros HQ Hl Hd. unfold import_record. unfold bind at 1.
  pose proof (resolve_contact_effect raises (Messages.sender row) s) as Hc.
  destruct (resolve_contact raises (Messages.sender row) s) as [cid s1|s1];
    destruct (contact_step_Inv s s1 Hc Hl Hd) as [Hl1 Hd1]; [|exact Hd1].
  unfold bind at 1.
  match goal with
  | |- context [insert_document raises ?a ?b ?c ?d ?e ?f s1] =>
      pose proof (insert_document_effect raises a b c d e f s1) as Hdoc;
      destruct (insert_document raises a b c d e f s1) as [[i|] s2|s2]
  end.
  - (* a new document *)
    destruct Hdoc as (_ & -> & ->).
    unfold bind at 1.
    match goal with
    | |- context [attachments_step raises ?d ?m ?st] =>
        destruct (attachments_step_eq raises d m st) as (rows & last & ->)
    end.
    unfold bind at 1.
    match goal with
    | |- context [import_passage raises server ?d ?t ?st] =>
        pose proof (import_passage_effect raises server d t st) as Hp;
        destruct (import_passage raises server d t st) as [[] s4|s4]
    end.
    + unfold ret. split.
      * match goal with
        | |- Inv _ _ (live s4) _ =>
            apply (Inv_add tb0 Q (live s1) (seq s1) (live s4) (seq s4)
                     (new_document s1 sid (Py.str (Messages.id row)) (Py.str chat_id)
                        (Messages.date row) cid (default ""%string (Messages.text row)))
                     (if worth_embedding (Py.strip (default ""%string (Messages.text row)))
                      then [new_passage s1 (next_document s1)
                              (Py.strip (default ""%string (Messages.text row)))]
                      else [])
                     (if worth_embedding (Py.strip (default ""%string (Messages.text row)))
                      then [new_embedding server s1
                              (Py.strip (default ""%string (Messages.text row)))]
                      else []))
        end;
          [ exact Hl1
          | apply HQ; reflexivity
          | destruct (worth_embedding _); subst s4; simpl; rewrite ?app_nil_r; reflexivity
          | reflexivity
          | destruct (worth_embedding _); subst s4; simpl; rewrite ?app_nil_r; reflexivity
          | destruct (worth_embedding _); subst s4; simpl; rewrite ?app_nil_r; reflexivity
          | destruct (worth_embedding _); subst s4; simpl; reflexivity
          | destruct (worth_embedding _); subst s4; simpl; lia
          | cbn [raw_body new_document]; destruct (worth_embedding _); [|auto];
            eexists _, _; repeat split; reflexivity ].
      * assert (Hs4 : durable s4 = durable s1 /\
                      document_seq (seq s4) = document_seq (seq s1) + 1 /\
                      passage_seq (seq s1) <= passage_seq (seq s4))
          by (destruct (worth_embedding _); subst s4; simpl; repeat split; lia).
        destruct Hs4 as (-> & Hs4d & Hs4p).
        apply (Inv_ext tb0 Q (durable s1) (seq s1)); auto; lia.
    + destruct Hp as (Hdur & Hds & Hps). rewrite Hdur. cbn [durable with_attachments].
      change (durable (add_document s1 _)) with (durable s1).
      apply (Inv_ext tb0 Q (durable s1) (seq s1)); auto;
        try (rewrite Hds; simpl; unfold next_document; lia);
        try (etransitivity; [|exact Hps]; simpl; lia).
  - (* the document exists already *)
    destruct Hdoc as (_ & ->). unfold ret. split.
    + apply (Inv_ext tb0 Q (live s1) (seq s1)); auto; simpl; unfold next_document; lia.
    + apply (Inv_ext tb0 Q (durable s1) (seq s1)); auto; simpl; unfold next_document; lia.
  - subst s2. exact Hd1.
Qed.

Lemma commit_Inv s :
  Inv tb0 Q (live s) (seq s) -> Inv tb0 Q (durable s) (seq s) ->
  match commit raises s with
  | Ok _ s' => Inv tb0 Q (live s') (seq s') /\ Inv tb0 Q (durable s') (seq s') /\
               durable s' = live s'
  | Raised s' => Inv tb0 Q (durable s') (seq s')
  end.
Proof.
  intros Hl Hd. unfold commit. destruct (raises Commit); simpl; auto.
Qed.

Lemma import_rows_Inv chat_id sid rows :
  Forall (fun row => forall d, ext_id d = Py.str (Messages.id row) ->
            raw_body d = default ""%string (Messages.text row) -> Q d) rows ->
  forall n s,
  Inv tb0 Q (live s) (seq s) -> Inv tb0 Q (durable s) (seq s) ->
  match import_rows raises server chat_id sid rows n s with
  | Ok _ s' => Inv tb0 Q (live s') (seq s') /\ Inv tb0 Q (durable s') (seq s')
  | Raised s' => Inv tb0 Q (durable s') (seq s')
  end.
Proof.
  induction 1 as [|row rows HQ _ IH]; intros n s Hl Hd; simpl.
  - unfold ret. auto.
  - unfold bind at 1.
    pose proof (import_record_Inv chat_id sid row s HQ Hl Hd) as Hrec.
    destruct (import_record raises server chat_id sid row s) as [reached s1|s1];
      [|exact Hrec].
    destruct Hrec as [Hl1 Hd1].
    destruct reached; [|apply IH; assumption].
    unfold bind. destruct (Z.eqb _ 0).
    + pose proof (commit_Inv s1 Hl1 Hd1) as Hc.
      destruct (commit raises s1) as [[] s2|s2]; [|exact Hc].
      apply IH; tauto.
    + unfold ret. apply IH; assumption.
Qed.

Lemma import_chat_Inv chat_id rows s :
  Forall (fun row => forall d, ext_id d = Py.str (Messages.id row) ->
            raw_body d = default ""%string (Messages.text row) -> Q d) rows ->
  Inv tb0 Q (live s) (seq s) -> Inv tb0 Q (durable s) (seq s) ->
  match import_chat raises server chat_id rows s with
  | Ok _ s' => Inv tb0 Q (durable s') (seq s')
  | Raised s' => Inv tb0 Q (durable s') (seq s')
  end.
Proof.
  intros HQ Hl Hd. unfold import_chat, select_source, execute.
  unfold bind at 1. unfold bind at 1.
  destruct (raises (SelectSource _)); [exact Hd|].
  unfold bind at 1.
  assert (Hsrc : match
            (match source_id_ <$> find (fun r => bool_decide (source_name r = Some (Py.str chat_id)))
                                    (source (live s)) with
             | Some i => ret i
             | None => bind (insert_source raises (Py.str chat_id) "chat")
                         (fun i => bind (commit raises) (fun _ => ret i))
             end s) with
          | Ok _ s' => Inv tb0 Q (live s') (seq s') /\ Inv tb0 Q (durable s') (seq s')
          | Raised s' => Inv tb0 Q (durable s') (seq s')
          end).
  { destruct (source_id_ <$> find _ _); [unfold ret; auto|].
    unfold insert_source, execute, bind.
    destruct (raises (InsertSource _ _)); [exact Hd|].
    destruct (existsb _ _).
    - apply (Inv_ext tb0 Q (durable s) (seq s)); auto; simpl; lia.
    - match goal with
      | |- context [commit raises ?st] =>
          assert (Hl' : Inv tb0 Q (live st) (seq st))
            by (apply (Inv_ext tb0 Q (live s) (seq s)); auto; simpl; lia);
          assert (Hd' : Inv tb0 Q (durable st) (seq st))
            by (apply (Inv_ext tb0 Q (durable s) (seq s)); auto; simpl; lia);
          pose proof (commit_Inv st Hl' Hd') as Hc;
          destruct (commit raises st) as [[] s2|s2]
      end; [unfold ret; tauto | exact Hc]. }
  match type of Hsrc with
  | match ?m with _ => _ end => destruct m as [sid sB|sB]
  end; [|exact Hsrc].
  destruct Hsrc as [HlB HdB].
  unfold bind at 1.
  pose proof (import_rows_Inv chat_id sid rows HQ 0 sB HlB HdB) as Hrows.
  destruct (import_rows raises server chat_id sid rows 0 sB) as [n sC|sC];
    [|exact Hrows].
  destruct Hrows as [HlC HdC]. unfold bind, ret.
  pose proof (commit_Inv sC HlC HdC) as Hc.
  destruct (commit raises sC) as [[] sD|sD]; simpl; tauto.
Qed.

End Run.

(** *** Attachment rows *)

Lemma attachments_step_rows raises document_id media_files s :
  exists rows last,
    attachments_step raises document_id media_files s = with_attachments s rows last /\
    Forall (fun a => exists files items f,
              media_files = Some (Dumped files) /\ iterate files = Some items /\
              JObj f ∈ items /\
              filename a = dict_get f "name" /\
              mime_type a = dict_get f "mime_type" /\
              file_path a = dict_get f "path") rows.
Proof.
  unfold attachments_step, import_attachments.
  assert (Hnone : exists rows last,
            s = with_attachments s rows last /\
            Forall (fun a => exists files items f,
              media_files = Some (Dumped files) /\ iterate files = Some items /\
              JObj f ∈ items /\
              filename a = dict_get f "name" /\
              mime_type a = dict_get f "mime_type" /\
              file_path a = dict_get f "path") rows).
  { exists [], (attachment_seq (seq s)). rewrite with_attachments_nil.
    split; [reflexivity | constructor]. }
  destruct media_files as [[files|raw]|]; [| |exact Hnone].
  - cbn. destruct (iterate files) as [items|] eqn:Hit; [|exact Hnone].
    destruct (insert_attachments_eq raises document_id items s) as (rows & last & E & Hrows).
    exists rows, last. split; [exact E|].
    eapply Forall_impl; [exact Hrows|]. simpl. intros a (f & Hin & Ha).
    exists files, items, f. rewrite Ha. simpl. repeat split; auto.
  - cbn. destruct (Py.truthy raw); exact Hnone.
Qed.

Section AttachmentRun.
Variable raises : stmt -> bool.
Variable server : string -> Embedding.reply.
Variable tb0 : tables.
Variable P : attachment_row -> Prop.

Lemma appended_ext tb tb' : appended tb0 P tb -> attachment tb' = attachment tb -> appended tb0 P tb'.
Proof. intros (news & E & H) E'. exists news. rewrite E'. auto. Qed.

Lemma import_record_appended chat_id sid row s :
  descriptors_ok P row -> appended tb0 P (live s) -> appended tb0 P (durable s) ->
  match import_record raises server chat_id sid row s with
  | Ok _ s' => appended tb0 P (live s') /\ appended tb0 P (durable s')
  | Raised s' => appended tb0 P (durable s')
  end.
Proof.
  intros Hok Hl Hd. unfold import_record. unfold bind at 1.
  pose proof (resolve_contact_effect raises (Messages.sender row) s) as Hc.
  assert (Hstep : forall s1, contact_step s s1 ->
            appended tb0 P (live s1) /\ appended tb0 P (durable s1)).
  { intros s1 ((_ & Ea & _) & _ & Hdur).
    assert (appended tb0 P (live s1)) by (apply (appended_ext (live s)); [exact Hl | exact Ea]).
    split; [assumption|]. destruct Hdur as [-> | ->]; assumption. }
  destruct (resolve_contact raises (Messages.sender row) s) as [cid s1|s1];
    destruct (Hstep s1 Hc) as [Hl1 Hd1]; [|exact Hd1].
  unfold bind at 1.
  match goal with
  | |- context [insert_document raises ?a ?b ?c ?d ?e ?f s1] =>
      pose proof (insert_document_effect raises a b c d e f s1) as Hdoc;
      destruct (insert_document raises a b c d e f s1) as [[i|] s2|s2]
  end.
  - destruct Hdoc as (_ & -> & ->).
    unfold bind at 1.
    match goal with
    | |- context [attachments_step raises ?d ?m ?st] =>
        destruct (attachments_step_rows raises d m st) as (rows & last & -> & Hrows)
    end.
    assert (Hl3 : forall tb, attachment tb = attachment (live s1) ++ rows -> appended tb0 P tb).
    { intros tb E. destruct Hl1 as (news & En & Hn). exists (news ++ rows).
      rewrite E, En, app_assoc. split; [reflexivity|].
      apply Forall_app. split; [exact Hn|].
      eapply Forall_impl; [exact Hrows|]. simpl.
      intros a (files & items & f & H1 & H2 & H3 & H4 & H5 & H6).
      eapply Hok; eauto. }
    unfold bind at 1.
    match goal with
    | |- context [import_passage raises server ?d ?t ?st] =>
        pose proof (import_passage_effect raises server d t st) as Hp;
        destruct (import_passage raises server d t st) as [[] s4|s4]
    end.
    + unfold ret.
      assert (Hs4 : attachment (live s4) = attachment (live s1) ++ rows /\
                    durable s4 = durable s1)
        by (destruct (worth_embedding _); subst s4; simpl; auto).
      destruct Hs4 as [Ea ->]. split; [apply Hl3; exact Ea | exact Hd1].
    + destruct Hp as (-> & _). exact Hd1.
  - destruct Hdoc as (_ & ->). unfold ret. split; assumption.
  - subst s2. exact Hd1.
Qed.

Lemma import_rows_appended chat_id sid rows :
  Forall (descriptors_ok P) rows ->
  forall n s, appended tb0 P (live s) -> appended tb0 P (durable s) ->
  match import_rows raises server chat_id sid rows n s with
  | Ok _ s' => appended tb0 P (live s') /\ appended tb0 P (durable s')
  | Raised s' => appended tb0 P (durable s')
  end.
Proof.
  induction 1 as [|row rows Hok _ IH]; intros n s Hl Hd; simpl.
  - unfold ret. auto.
  - unfold bind at 1.
    pose proof (import_record_appended chat_id sid row s Hok Hl Hd) as Hrec.
    destruct (import_record raises server chat_id sid row s) as [reached s1|s1];
      [|exact Hrec].
    destruct Hrec as [Hl1 Hd1].
    destruct reached; [|apply IH; assumption].
    unfold bind. destruct (Z.eqb _ 0).
    + unfold commit. destruct (raises Commit); [exact Hd1|].
      apply IH; assumption.
    + unfold ret. apply IH; assumption.
Qed.

Lemma import_chat_appended chat_id rows s :
  Forall (descriptors_ok P) rows -> appended tb0 P (live s) -> appended tb0 P (durable s) ->
  match import_chat raises server chat_id rows s with
  | Ok _ s' => appended tb0 P (durable s')
  | Raised s' => appended tb0 P (durable s')
  end.
Proof.
  intros Hok Hl Hd. unfold import_chat, select_source, execute.
  unfold bind at 1. unfold bind at 1.
  destruct (raises (SelectSource _)); [exact Hd|].
  unfold bind at 1.
  assert (Hsrc : match
            (match source_id_ <$> find (fun r => bool_decide (source_name r = Some (Py.str chat_id)))
                                    (source (live s)) with
             | Some i => ret i
             | None => bind (insert_source raises (Py.str chat_id) "chat")
                         (fun i => bind (commit raises) (fun _ => ret i))
             end s) with
          | Ok _ s' => appended tb0 P (live s') /\ appended tb0 P (durable s')
          | Raised s' => appended tb0 P (durable s')
          end).
  { destruct (source_id_ <$> find _ _); [unfold ret; auto|].
    unfold insert_source, execute, bind, commit, ret.
    destruct (raises (InsertSource _ _)); [exact Hd|].
    destruct (existsb _ _); [exact Hd|].
    destruct (raises Commit); simpl; auto. }
  match type of Hsrc with
  | match ?m with _ => _ end => destruct m as [sid sB|sB]
  end; [|exact Hsrc].
  destruct Hsrc as [HlB HdB].
  unfold bind at 1.
  pose proof (import_rows_appended chat_id sid rows Hok 0 sB HlB HdB) as Hrows.
  destruct (import_rows raises server chat_id sid rows 0 sB) as [n sC|sC];
    [|exact Hrows].
  destruct Hrows as [HlC HdC]. unfold bind, ret, commit.
  destruct (raises Commit); simpl; assumption.
Qed.

End AttachmentRun.

End RecordEffects.

(** C1.  Idempotent import.  After a run of [import_chat] that completed,
    a second run over the same records, on a new connection to the same
    database and whatever the environment does this time, leaves the six
    tables exactly as the first run committed them, hence with the same row
    counts: the source and every contact are found, every document insert
    returns no row and the record is skipped (no record is counted as
    imported).  With no statement raising, the second run completes. *)
Theorem import_chat_idempotent
    (raises1 raises2 : Importer.stmt -> bool) (server1 server2 : string -> Embedding.reply)
    (chat_id : Z) (messages : list Messages.Row)
    (s0 s1 : Warehouse.pg) (n1 : Z) (sq : Warehouse.sequences) :
  Importer.import_chat raises1 server1 chat_id messages s0 = Importer.Ok n1 s1 ->
  let again := Importer.import_chat raises2 server2 chat_id messages
                 (Importer.connect (Warehouse.durable s1) sq) in
  Importer.closed again = Warehouse.durable s1 /\
  Warehouse.row_counts (Importer.closed again) = Warehouse.row_counts (Warehouse.durable s1) /\
  (forall n2 s2, again = Importer.Ok n2 s2 -> n2 = 0) /\
  (exists s2, Importer.import_chat Importer.no_faults server2 chat_id messages
                (Importer.connect (Warehouse.durable s1) sq) = Importer.Ok 0 s2).
Proof.
  intros Hfirst again.
  destruct (import_chat_completed _ _ _ _ _ _ _ Hfirst) as (sid & Hsrc & Hall & Hdur).
  rewrite <- Hdur in Hsrc, Hall.
  assert (Hagain : forall raises server,
            match Importer.import_chat raises server chat_id messages
                    (Importer.connect (Warehouse.durable s1) sq) with
            | Importer.Ok n s' => n = 0 /\ Warehouse.durable s' = Warehouse.durable s1
            | Importer.Raised s' => Warehouse.durable s' = Warehouse.durable s1
            end).
  { intros raises server.
    apply (import_chat_again raises server chat_id messages
             (Importer.connect (Warehouse.durable s1) sq) sid); auto. }
  assert (Hclosed : Importer.closed again = Warehouse.durable s1).
  { specialize (Hagain raises2 server2). fold again in Hagain.
    destruct again; simpl; tauto. }
  split; [exact Hclosed|]. split; [rewrite Hclosed; reflexivity|]. split.
  - intros n2 s2 E. specialize (Hagain raises2 server2). fold again in Hagain.
    rewrite E in Hagain. tauto.
  - specialize (Hagain Importer.no_faults server2).
    destruct (Importer.import_chat Importer.no_faults server2 chat_id messages
                (Importer.connect (Warehouse.durable s1) sq)) as [n s2|s2] eqn:E.
    + destruct Hagain as [-> _]. eauto.
    + destruct (import_chat_total Importer.no_faults server2 chat_id messages
                  (Importer.connect (Warehouse.durable s1) sq) no_faults_only)
        as (n & s' & E').
      rewrite E in E'. discriminate E'.
Qed.

(** ** What the crawler stores and what the importer reads *)

Section CrawlerRows.
Import Telethon Crawler.
Local Open Scope string_scope.

Lemma crawler_descriptor_shape d :
  crawler_descriptor d ->
  (exists n, d = skipped_descriptor n) \/
  (exists media_type filename n, d = file_descriptor media_type filename n).
Proof.
  intros (c & message & media_dir & rl & w & H).
  unfold download_media_file in H.
  destruct (media message) as [m|]; [|discriminate].
  destruct (get_media_size m) as [ms|]; [|discriminate].
  destruct (over_cap ms).
  - left. inversion H. eauto.
  - destruct (get_media_type m) as [[[mt ext]|]|]; try discriminate.
    destruct (negb (Py.truthy mt)); [discriminate|].
    apply fetch_descriptor in H as [n ->]. right. eauto.
Qed.

Lemma crawler_descriptor_keys d :
  crawler_descriptor d ->
  (dict_keys d = ["type"; "filename"; "size"] \/
   dict_keys d = ["type"; "filename"; "size"; "skipped_reason"]) /\
  dict_get d "name" = JNull /\ dict_get d "mime_type" = JNull /\
  dict_get d "path" = JNull.
Proof.
  intros H. destruct (crawler_descriptor_shape d H) as [[n ->]|(mt & fn & n & ->)];
    simpl; auto.
Qed.

Lemma crawler_row_media_files row :
  crawler_row row ->
  Messages.media_files row = None \/
  exists d, crawler_descriptor d /\
            Messages.media_files row = Some (Dumped (JArr [JObj d])).
Proof.
  intros (c & media_dir & stamp & st & message & H).
  unfold process_message in H.
  destruct (Limiter.wait (rate_limiter st) (now (env st))) as [rl1 t1].
  destruct (match media message with
            | Some _ => download_media_file c message media_dir rl1
                          {| fs := fs (env st); now := t1; downloads := downloads (env st) |}
            | None => (None, rl1,
                       {| fs := fs (env st); now := t1; downloads := downloads (env st) |})
            end) as [[media_info rl2] w2] eqn:Hm.
  simpl in H. rewrite lookup_insert_eq in H. inversion H; subst row; clear H. simpl.
  destruct media_info as [d|]; [|left; reflexivity].
  destruct d as [|kv d]; [left; reflexivity|].
  right. exists (kv :: d). split; [|reflexivity].
  destruct (media message); [|inversion Hm].
  exists c, message, media_dir, rl1,
    {| fs := fs (env st); now := t1; downloads := downloads (env st) |}.
  rewrite Hm. reflexivity.
Qed.

Lemma crawler_row_descriptors_ok row :
  crawler_row row -> descriptors_ok null_columns row.
Proof.
  intros Hrow files items f a Hmf Hit Hin Hn Hm Hp.
  destruct (crawler_row_media_files row Hrow) as [E|(d & Hd & E)];
    rewrite E in Hmf; [discriminate|].
  inversion Hmf; subst files. simpl in Hit. inversion Hit; subst items.
  apply list_elem_of_singleton in Hin. inversion Hin; subst f.
  destruct (crawler_descriptor_keys d Hd) as (_ & H1 & H2 & H3).
  unfold null_columns. rewrite Hn, Hm, Hp. auto.
Qed.

End CrawlerRows.

(** C10.  Every media descriptor [download_media_file] returns has the keys
    'type', 'filename', 'size' and, when skipped, 'skipped_reason', so that
    the keys 'name', 'mime_type' and 'path' the importer reads with [get]
    give None.  Hence, over records as the crawl loop stores them, every
    attachment row [import_chat] adds to the database has NULL filename,
    NULL mime_type and NULL file_path. *)
Theorem crawler_attachments_null_columns :
  (forall d, crawler_descriptor d ->
     (dict_keys d = ["type"; "filename"; "size"]%string \/
      dict_keys d = ["type"; "filename"; "size"; "skipped_reason"]%string) /\
     dict_get d "name" = JNull /\ dict_get d "mime_type" = JNull /\
     dict_get d "path" = JNull) /\
  (forall raises server chat_id messages tb0 sq0,
     Forall crawler_row messages ->
     exists news,
       Warehouse.attachment
         (Importer.closed (Importer.import_chat raises server chat_id messages
                             (Importer.connect tb0 sq0)))
       = Warehouse.attachment tb0 ++ news /\
       Forall null_columns news).
Proof.
  split; [exact crawler_descriptor_keys|].
  intros raises server chat_id messages tb0 sq0 Hrows.
  assert (Hinit : appended tb0 null_columns tb0).
  { exists []. rewrite app_nil_r. split; [reflexivity | constructor]. }
  pose proof (import_chat_appended raises server tb0 null_columns chat_id messages
                (Importer.connect tb0 sq0)) as H.
  assert (Hok : Forall (descriptors_ok null_columns) messages).
  { eapply Forall_impl; [exact Hrows|]. apply crawler_row_descriptors_ok. }
  specialize (H Hok Hinit Hinit).
  destruct (Importer.import_chat raises server chat_id messages (Importer.connect tb0 sq0));
    exact H.
Qed.

(** The guard of the passage block is the condition of the claim. *)
Lemma worth_embedding_long_enough passage_text :
  Importer.worth_embedding passage_text = true <-> long_enough passage_text.
Proof.
  unfold Importer.worth_embedding, long_enough, Py.truthy.
  rewrite andb_true_iff, negb_true_iff, Nat.ltb_lt.
  split; intros [H1 H2]; (split; [|exact H2]).
  - intros ->. discriminate H1.
  - destruct (String.eqb_spec passage_text ""); [contradiction | reflexivity].
Qed.

Lemma chunked_one_passage tb d : chunked tb d -> one_passage tb d.
Proof.
  unfold chunked, one_passage. cbv zeta.
  destruct (Importer.worth_embedding (Py.strip (Warehouse.raw_body d))) eqn:E.
  - intros (p & e & Hp & Hl & Hs & He & Ht & Hemb & Hm). split.
    + intros _. exists p, e. repeat split; try assumption.
      assert (Hin : e ∈ embeddings_of tb (Warehouse.passage_id_ p))
        by (rewrite Hemb; left).
      unfold embeddings_of in Hin. apply list_elem_of_filter in Hin as [Hin _]. exact Hin.
    + intros Hn. exfalso. apply Hn. apply worth_embedding_long_enough. exact E.
  - intros H. split; [|intros _; exact H].
    intros Hl. apply worth_embedding_long_enough in Hl. congruence.
Qed.

(** C7.  One passage per new document, exactly when the text is long
    enough.  Take a database whose ids are bounded by its sequences, and
    the tables it holds when the connection of a run of [import_chat] is
    closed (the run completed or not).  Its document table is the initial
    one followed by new rows, each the document of one of the records
    with the record's text as body; and for each new document: if the
    trimmed text is not empty and has more than 10 words, the passage
    table holds exactly one row for the document, with level 'P',
    start_tok 0, end_tok the word count and the trimmed text as text, and
    the passage_embedding table holds exactly one row for that passage;
    if the trimmed text is empty or has 10 words or fewer, the passage
    table holds no row for the document. *)
Theorem one_passage_per_new_document
    (raises : Importer.stmt -> bool) (server : string -> Embedding.reply)
    (chat_id : Z) (messages : list Messages.Row)
    (tb0 : Warehouse.tables) (sq0 : Warehouse.sequences) :
  bounded tb0 sq0 ->
  let after := Importer.closed (Importer.import_chat raises server chat_id messages
                                  (Importer.connect tb0 sq0)) in
  exists news,
    Warehouse.document after = Warehouse.document tb0 ++ news /\
    Forall (fun d =>
              (exists row, row ∈ messages /\
                 Warehouse.ext_id d = Py.str (Messages.id row) /\
                 Warehouse.raw_body d = default ""%string (Messages.text row)) /\
              one_passage after d) news.
Proof.
  intros Hb after.
  set (Q := fun d => exists row, row ∈ messages /\
                 Warehouse.ext_id d = Py.str (Messages.id row) /\
                 Warehouse.raw_body d = default ""%string (Messages.text row)).
  assert (Hinit : Inv tb0 Q tb0 sq0).
  { split; [exact Hb|]. exists []. rewrite app_nil_r. split; [reflexivity | constructor]. }
  assert (HQ : Forall (fun row => forall d, Warehouse.ext_id d = Py.str (Messages.id row) ->
                Warehouse.raw_body d = default ""%string (Messages.text row) -> Q d) messages).
  { apply Forall_forall. intros row Hin d H1 H2. exists row. auto. }
  pose proof (import_chat_Inv raises server tb0 Q chat_id messages
                (Importer.connect tb0 sq0) HQ Hinit Hinit) as H.
  subst after.
  destruct (Importer.import_chat raises server chat_id messages (Importer.connect tb0 sq0));
    destruct H as [_ (news & E & Hall)]; exists news; (split; [exact E|]);
    (eapply Forall_impl; [exact Hall|]); simpl;
    intros d [HQd Hc]; (split; [exact HQd | apply chunked_one_passage; exact Hc]).
Qed.

(** ** Failures while importing *)




(** ** Instances of the theorems on the example data *)

Lemma example_first_run :
  Importer.import_chat Importer.no_faults example_server 77 example_rows Warehouse.initial
    = Importer.Ok 3 example_first_state.
Proof. vm_compute. reflexivity. Qed.

(** After the first run over [example_rows], a second run changes nothing:
    it stops at record 2 when the database rejects that document statement,
    and completes with no record imported when nothing raises. *)
Lemma import_chat_idempotent_witness :
  Importer.closed
    (Importer.import_chat reject_document_2 example_server 77 example_rows
       (Importer.connect (Warehouse.durable example_first_state)
          (Warehouse.seq example_first_state)))
    = Warehouse.durable example_first_state /\
  Warehouse.row_counts
    (Importer.closed
       (Importer.import_chat reject_document_2 example_server 77 example_rows
          (Importer.connect (Warehouse.durable example_first_state)
             (Warehouse.seq example_first_state))))
    = Warehouse.row_counts (Warehouse.durable example_first_state) /\
  (forall n2 s2,
     Importer.import_chat reject_document_2 example_server 77 example_rows
       (Importer.connect (Warehouse.durable example_first_state)
          (Warehouse.seq example_first_state)) = Importer.Ok n2 s2 -> n2 = 0) /\
  (exists s2,
     Importer.import_chat Importer.no_faults example_server 77 example_rows
       (Importer.connect (Warehouse.durable example_first_state)
          (Warehouse.seq example_first_state)) = Importer.Ok 0 s2).
Proof.
  exact (import_chat_idempotent Importer.no_faults reject_document_2
           example_server example_server 77 example_rows Warehouse.initial
           example_first_state 3 (Warehouse.seq example_first_state) example_first_run).
Defined.

(** The end-to-end scenario of the design document: three documents, one
    attachment row (the skipped one), one passage with its embedding. *)
Example end_to_end_scenario :
  Warehouse.row_counts (Warehouse.durable example_first_state) = [1; 1; 3; 1; 1; 1]%nat /\
  map Warehouse.passage_document_id (Warehouse.passage (Warehouse.durable example_first_state))
    = [3].
Proof. split; vm_compute; reflexivity. Qed.

Lemma download_messages_resumption_witness :
  Crawler.Database.get_latest_message_id example_store = 5 /\
  Crawler.iteration_min_id (Crawler.Database.get_latest_message_id example_store) = Some 5 /\
  (Crawler.download_messages example_chat "media" example_stamp example_store empty_world).2
    = true /\
  (Telethon.total_with_min_id example_chat 5 <> 0 ->
   Crawler.visited
     (Crawler.download_messages example_chat "media" example_stamp example_store empty_world).1
   = Telethon.iter_messages example_chat (Some 5)) /\
  Forall (fun m => 5 < Telethon.id m)
    (Crawler.visited
       (Crawler.download_messages example_chat "media" example_stamp example_store
          empty_world).1) /\
  Forall (fun d => 5 < Crawler.md_id d)
    (Crawler.messages
       (Crawler.download_messages example_chat "media" example_stamp example_store
          empty_world).1) /\
  (forall k, k <= 5 ->
     Crawler.db
       (Crawler.download_messages example_chat "media" example_stamp example_store
          empty_world).1 !! k = example_store !! k) /\
  (forall m,
     m ∈ Crawler.visited
           (Crawler.download_messages example_chat "media" example_stamp example_store
              empty_world).1 ->
     is_Some
       (Crawler.db
          (Crawler.download_messages example_chat "media" example_stamp example_store
             empty_world).1 !! Telethon.id m)) /\
  map Crawler.md_id
    (Crawler.messages
       (Crawler.download_messages example_chat "media" example_stamp example_store
          empty_world).1)
  = map Telethon.id
      (Crawler.visited
         (Crawler.download_messages example_chat "media" example_stamp example_store
            empty_world).1) /\
  (forall k,
     is_Some
       (Crawler.db
          (Crawler.download_messages example_chat "media" example_stamp example_store
             empty_world).1 !! k) ->
     is_Some (example_store !! k) \/
     exists m,
       m ∈ Crawler.visited
             (Crawler.download_messages example_chat "media" example_stamp example_store
                empty_world).1 /\
       Telethon.id m = k).
Proof.
  apply (proj1 (download_messages_resumption example_chat "media" example_stamp
                  example_store empty_world) 5).
  - exists (example_row 5 "hello" None). apply lookup_singleton_eq.
  - intros k [v Hk]. unfold example_store in Hk.
    apply lookup_singleton_Some in Hk as [<- _]. lia.
  - lia.
Defined.

(** The delta run of the instance above visits messages 7 and 6, puts them
    in the batch and stores them beside message 5; message 4, which is
    older than the stored maximum, is not fetched. *)
Example delta_run_scenario :
  let run := Crawler.download_messages example_chat "media" example_stamp example_store
               empty_world in
  map Telethon.id (Crawler.visited run.1) = [7; 6] /\
  map Crawler.md_id (Crawler.messages run.1) = [7; 6] /\
  is_Some (Crawler.db run.1 !! 7) /\ is_Some (Crawler.db run.1 !! 6) /\
  is_Some (Crawler.db run.1 !! 5) /\ Crawler.db run.1 !! 4 = None.
Proof.
  cbv zeta. split; [vm_compute; reflexivity|]. split; [vm_compute; reflexivity|].
  split; [vm_compute; eauto|]. split; [vm_compute; eauto|].
  split; [vm_compute; eauto|]. vm_compute. reflexivity.
Qed.


(** A record whose [media_files] is no JSON and whose text has 40 words:
    the document has no attachment and has its passage and embedding. *)
Example broken_media_files_scenario :
  exists s',
    Importer.import_chat Importer.no_faults example_server 77
      [ example_row 31
          "a b c d e f g h i j k l m n o p q r s t a b c d e f g h i j k l m n o p q r s t"
          (Some (Raw "{not json")) ]
      Warehouse.initial = Importer.Ok 1 s' /\
    Warehouse.row_counts (Warehouse.durable s') = [1; 1; 1; 0; 1; 1]%nat.
Proof. eexists. split; vm_compute; reflexivity. Qed.

Example odd_rows_scenario :
  exists s',
    Importer.import_chat Importer.no_faults example_server 77 example_odd_rows
      Warehouse.initial = Importer.Ok 4 s' /\
    Warehouse.row_counts (Warehouse.durable s') = [1; 1; 4; 1; 0; 0]%nat.
Proof. eexists. split; vm_compute; reflexivity. Qed.

Lemma one_passage_per_new_document_witness :
  exists news,
    Warehouse.document
      (Importer.closed (Importer.import_chat Importer.no_faults example_server 77 example_rows
                          (Importer.connect Warehouse.empty_tables
                             (Warehouse.seq Warehouse.initial))))
    = Warehouse.document Warehouse.empty_tables ++ news /\
    Forall (fun d =>
              (exists row, row ∈ example_rows /\
                 Warehouse.ext_id d = Py.str (Messages.id row) /\
                 Warehouse.raw_body d = default ""%string (Messages.text row)) /\
              one_passage
                (Importer.closed
                   (Importer.import_chat Importer.no_faults example_server 77 example_rows
                      (Importer.connect Warehouse.empty_tables
                         (Warehouse.seq Warehouse.initial)))) d) news.
Proof.
  apply (one_passage_per_new_document Importer.no_faults example_server 77 example_rows
           Warehouse.empty_tables (Warehouse.seq Warehouse.initial)).
  repeat split; constructor.
Defined.

(** Ten words are not enough: of two new documents with texts of 10 and
    of 11 words, only the second gets a passage (and its embedding). *)
Example ten_words_scenario :
  let rows := [ example_row 21 " a b c d e f g h i j " None;
                example_row 22 " a b c d e f g h i j k " None ] in
  exists s',
    Importer.import_chat Importer.no_faults example_server 77 rows Warehouse.initial
      = Importer.Ok 2 s' /\
    Warehouse.row_counts (Warehouse.durable s') = [1; 1; 2; 0; 1; 1]%nat /\
    map (fun p => (Warehouse.passage_document_id p, Warehouse.end_tok p,
                   Warehouse.passage_text p))
        (Warehouse.passage (Warehouse.durable s'))
      = [(2, 11, "a b c d e f g h i j k"%string)].
Proof. eexists. split; [|split]; vm_compute; reflexivity. Qed.


Lemma example_crawled_row : example_crawled = Some example_stored_row.
Proof. vm_compute. reflexivity. Qed.

Lemma crawler_attachments_null_columns_witness :
  exists news,
    Warehouse.attachment
      (Importer.closed (Importer.import_chat Importer.no_faults example_server 77
                          [example_stored_row]
                          (Importer.connect Warehouse.empty_tables
                             (Warehouse.seq Warehouse.initial))))
    = Warehouse.attachment Warehouse.empty_tables ++ news /\
    Forall null_columns news.
Proof.
  apply (proj2 crawler_attachments_null_columns Importer.no_faults example_server 77
           [example_stored_row] Warehouse.empty_tables (Warehouse.seq Warehouse.initial)).
  constructor; [|constructor].
  exists example_client, "media"%string, example_stamp, example_loop_state,
    (example_video (60 * 1024 * 1024)).
  exact example_crawled_row.
Defined.

(** * Further properties of the code

    Properties of the crawler, the importer and the tools around them that
    the code itself shows. *)

(** ** The rate limiter and a caller that paces itself *)

Section SteadyCaller.
Import Limiter.

Lemma interval_positive n : 0 < n -> (0 < 1 / inject_Z n)%Q /\ (inject_Z n * (1 / inject_Z n) == 1)%Q.
Proof.
  intros Hn.
  assert (H : (0 < inject_Z n)%Q).
  { change 0%Q with (inject_Z 0). rewrite <- Zlt_Qlt. exact Hn. }
  split.
  - apply Qlt_shift_div_l; [exact H | lra].
  - field. intros E. rewrite E in H. apply (Qlt_irrefl 0). exact H.
Qed.

Lemma wait_steady n self now g :
  0 < n -> steady n self now -> (1 / inject_Z n <= g)%Q ->
  exists self', wait self (now + g) = (self', (now + g)%Q) /\ steady n self' (now + g).
Proof.
  intros Hn (Hmax & Hint & Hc & Hlast & Hws & Hcount) Hg.
  destruct (interval_positive n Hn) as [Hd Hnd].
  set (d := (1 / inject_Z n)%Q) in *.
  set (t := (now + g)%Q).
  assert (Hcnt : _request_count (enter_window self t) <= n /\
                 1 <= _request_count (enter_window self t) /\
                 (_window_start (enter_window self t) <= t)%Q /\
                 (inject_Z (_request_count (enter_window self t)) * d
                  <= t - _window_start (enter_window self t) + d)%Q).
  { unfold enter_window.
    destruct (Qgeb (t - _window_start self) 1) eqn:E; simpl.
    - split; [lia|]. split; [lia|]. split; [apply Qle_refl|].
      change (inject_Z (0 + 1)) with 1%Q. lra.
    - assert (Hlt : (t - _window_start self < 1)%Q).
      { destruct (Qlt_le_dec (t - _window_start self) 1) as [H|H]; [exact H|].
        apply Qgeb_true in H. congruence. }
      assert (Hwt : (_window_start self <= t)%Q) by (unfold t; lra).
      rewrite inject_Z_plus. change (inject_Z 1) with 1%Q.
      destruct Hcount as [E0|Hcount].
      + rewrite E0. change (inject_Z 0) with 0%Q.
        split; [lia|]. split; [lia|]. split; [exact Hwt|]. lra.
      + assert (Hlt' : (inject_Z (_request_count self) * d < inject_Z n * d)%Q).
        { rewrite Hnd. unfold t in Hlt. lra. }
        apply Qmult_lt_r in Hlt'; [|exact Hd].
        rewrite <- Zlt_Qlt in Hlt'.
        split; [lia|]. split; [lia|]. split; [exact Hwt|].
        unfold t. lra. }
  destruct Hcnt as (Hle & Hge & Hws' & Hbound).
  destruct (enter_window_frame self t) as (Hi' & Hm' & Hl').
  unfold wait. fold t.
  assert (Ew : window_sleep (enter_window self t) t t = (enter_window self t, t)).
  { unfold window_sleep. rewrite Hm', Hmax.
    destruct (Z.ltb_spec n (_request_count (enter_window self t))); [lia | reflexivity]. }
  rewrite Ew.
  assert (Ei : interval_sleep (enter_window self t) t t = t).
  { unfold interval_sleep. rewrite Hl', Hi', Hint. fold d.
    destruct (Qltb (t - last_request_time self) d) eqn:E; [|reflexivity].
    apply Qltb_true in E. unfold t in E. lra. }
  rewrite Ei.
  eexists. split; [reflexivity|].
  unfold steady.
  cbn [max_requests interval last_request_time _request_count _window_start].
  split; [congruence|]. split; [rewrite Hi'; exact Hint|]. split; [lia|].
  split; [apply Qle_refl|]. split; [exact Hws'|]. right. exact Hbound.
Qed.

Lemma calls_steady n gaps : 0 < n -> forall self now,
  steady n self now -> Forall (fun g => (1 / inject_Z n <= g)%Q) gaps ->
  calls self now gaps = arrivals now gaps.
Proof.
  intros Hn. induction gaps as [|g gaps IH]; intros self now Hs Hg; [reflexivity|].
  inversion Hg as [|? ? Hg1 Hg2]; subst.
  destruct (wait_steady n self now g Hn Hs Hg1) as (self' & E & Hs').
  simpl. rewrite E. f_equal. apply IH; assumption.
Qed.

End SteadyCaller.

(** X1.  A caller that already keeps the minimum interval is never delayed.
    When a limiter for [n > 0] requests per second is built no later than
    the first call and every call comes at least [1 / n] seconds after the
    one before, no call of [wait] sleeps: each completes at the clock
    reading at which it was made. *)
Theorem spaced_caller_never_delayed (n : Z) (t0 start : Q) (gaps : list Q) :
  0 < n -> (0 <= start)%Q -> (t0 <= start)%Q ->
  Forall (fun g => (1 / inject_Z n <= g)%Q) gaps ->
  exists self, Limiter.init n t0 = Some self /\
    Limiter.calls self start gaps = arrivals start gaps.
Proof.
  intros Hn H0 Ht Hg. unfold Limiter.init.
  destruct (Z.eqb_spec n 0) as [E|_]; [lia|].
  eexists. split; [reflexivity|].
  apply (calls_steady n); [exact Hn | | exact Hg].
  unfold steady; simpl. repeat split; try lia; try lra.
Qed.

(** ** Numerals *)

Section NumeralFacts.
Local Open Scope string_scope.

Lemma pretty_N_go_chars (P : ascii -> bool) :
  (forall d, P (pretty_N_char d) = true) ->
  forall x s, forallb P (list_ascii_of_string s) = true ->
              forallb P (list_ascii_of_string (pretty_N_go x s)) = true.
Proof.
  intros HP x. induction (N.lt_wf_0 x) as [x _ IH]. intros s Hs.
  destruct (N.eq_dec x 0%N) as [->|Hx].
  - rewrite pretty_N_go_0. exact Hs.
  - rewrite pretty_N_go_step by lia. apply IH.
    + apply N.div_lt; lia.
    + simpl. rewrite HP. exact Hs.
Qed.

Lemma pretty_N_char_cases (P : ascii -> bool) :
  P "0"%char = true -> P "1"%char = true -> P "2"%char = true -> P "3"%char = true ->
  P "4"%char = true -> P "5"%char = true -> P "6"%char = true -> P "7"%char = true ->
  P "8"%char = true -> P "9"%char = true ->
  forall d, P (pretty_N_char d) = true.
Proof.
  intros. unfold pretty_N_char.
  repeat (match goal with |- context [match ?y with _ => _ end] => destruct y end;
          try assumption).
Qed.

Lemma pretty_N_go_truthy x s : Py.truthy s = true -> Py.truthy (pretty_N_go x s) = true.
Proof.
  revert s. induction (N.lt_wf_0 x) as [x _ IH]. intros s Hs.
  destruct (N.eq_dec x 0%N) as [->|Hx].
  - rewrite pretty_N_go_0. exact Hs.
  - rewrite pretty_N_go_step by lia. apply IH; [apply N.div_lt; lia | reflexivity].
Qed.

Lemma pretty_pos_go (p : positive) :
  Py.str (Z.pos p) = pretty_N_go (N.pos p) "" /\ Py.truthy (pretty_N_go (N.pos p) "") = true.
Proof.
  split; [reflexivity|].
  rewrite pretty_N_go_step by lia. apply pretty_N_go_truthy. reflexivity.
Qed.

Lemma str_nonneg_isdigit n : 0 <= n -> PyText.isdigit (Py.str n) = true.
Proof.
  intros Hn. destruct n as [|p|p]; [reflexivity | | lia].
  destruct (pretty_pos_go p) as [-> Ht]. unfold PyText.isdigit. rewrite Ht.
  apply pretty_N_go_chars; [|reflexivity].
  apply pretty_N_char_cases; reflexivity.
Qed.

Lemma decimal_value_pretty d :
  (d < 10)%N -> PyText.decimal_value (pretty_N_char d) = Some (Z.of_N d).
Proof.
  intros Hd.
  assert (H : (d = 0 \/ d = 1 \/ d = 2 \/ d = 3 \/ d = 4 \/ d = 5 \/ d = 6 \/ d = 7
              \/ d = 8 \/ d = 9)%N) by lia.
  repeat (destruct H as [->|H]; [reflexivity|]). subst d. reflexivity.
Qed.

Lemma int_from_pretty x :
  exists p, forall acc s,
    PyText.int_from acc (pretty_N_go x s) = PyText.int_from (acc * p + Z.of_N x) s.
Proof.
  induction (N.lt_wf_0 x) as [x _ IH].
  destruct (N.eq_dec x 0%N) as [->|Hx].
  - exists 1. intros acc s. rewrite pretty_N_go_0. f_equal. lia.
  - destruct (IH (x / 10)%N) as [p Hp]; [apply N.div_lt; lia|].
    exists (p * 10). intros acc s.
    rewrite pretty_N_go_step by lia. rewrite Hp.
    cbn [PyText.int_from]. rewrite decimal_value_pretty by (apply N.mod_lt; lia).
    f_equal.
    pose proof (N.div_mod x 10 ltac:(lia)) as E.
    assert (E' : Z.of_N x = 10 * Z.of_N (x / 10) + Z.of_N (x mod 10)) by lia.
    lia.
Qed.

Lemma int_str n : 0 <= n -> PyText.int (Py.str n) = Some n.
Proof.
  intros Hn. destruct n as [|p|p]; [reflexivity | | lia].
  destruct (pretty_pos_go p) as [-> Ht]. unfold PyText.int. rewrite Ht.
  destruct (int_from_pretty (N.pos p)) as [q Hq]. rewrite Hq. simpl. reflexivity.
Qed.

Lemma strip_no_space s :
  forallb (fun c => negb (Py.isspace c)) (list_ascii_of_string s) = true -> Py.strip s = s.
Proof.
  intros H. unfold Py.strip.
  assert (Hl : Py.lstrip s = s).
  { destruct s as [|c s]; [reflexivity|]. simpl in H. apply andb_true_iff in H as [Hc _].
    apply negb_true_iff in Hc. cbn [Py.lstrip]. rewrite Hc. reflexivity. }
  rewrite Hl. clear Hl. induction s as [|c s IH]; [reflexivity|].
  simpl in H. apply andb_true_iff in H as [Hc Hs]. apply negb_true_iff in Hc.
  cbn [Py.rstrip]. rewrite (IH Hs), Hc. destruct s; reflexivity.
Qed.

Lemma str_strip n : Py.strip (Py.str n) = Py.str n.
Proof.
  apply strip_no_space.
  assert (Hgo : forall p, forallb (fun c => negb (Py.isspace c))
                  (list_ascii_of_string (pretty_N_go (N.pos p) "")) = true).
  { intros p. apply (pretty_N_go_chars (fun c => negb (Py.isspace c))); [|reflexivity].
    apply (pretty_N_char_cases (fun c => negb (Py.isspace c))); reflexivity. }
  destruct n as [|p|p]; [reflexivity | apply Hgo |].
  change (Py.str (Z.neg p)) with (String "-" (pretty_N_go (N.pos p) "")).
  simpl. apply Hgo.
Qed.

Lemma str_negative_not_isdigit n : n < 0 -> PyText.isdigit (Py.str n) = false.
Proof.
  intros Hn. destruct n as [|p|p]; [lia | lia |].
  change (Py.str (Z.neg p)) with (String "-" (pretty_N_go (N.pos p) "")).
  reflexivity.
Qed.

End NumeralFacts.

(** ** Path separators *)

Section SeparatorFacts.
Local Open Scope string_scope.

Lemma prefix_sep c s : String.prefix "/" (String c s) = Ascii.eqb c "/".
Proof.
  change (String.prefix "/" (String c s))
    with (match ascii_dec "/" c with left _ => String.prefix "" s | right _ => false end).
  destruct (ascii_dec "/" c) as [<-|Hne].
  - destruct s; reflexivity.
  - symmetry. apply Ascii.eqb_neq. congruence.
Qed.

Lemma contains_sep_cons c s :
  Py.contains "/" (String c s) = Ascii.eqb c "/" || Py.contains "/" s.
Proof. cbn [Py.contains]. rewrite prefix_sep. reflexivity. Qed.

Lemma contains_sep_nil : Py.contains "/" "" = false.
Proof. reflexivity. Qed.

Lemma contains_sep_app a b :
  Py.contains "/" (a ++ b) = Py.contains "/" a || Py.contains "/" b.
Proof.
  induction a as [|c a IH].
  - reflexivity.
  - change (String c a ++ b) with (String c (a ++ b)).
    rewrite !contains_sep_cons, IH, orb_assoc. reflexivity.
Qed.

Lemma contains_sep_chars s :
  forallb (fun c => negb (Ascii.eqb c "/")) (list_ascii_of_string s) = true ->
  Py.contains "/" s = false.
Proof.
  induction s as [|c s IH]; [reflexivity|]. simpl list_ascii_of_string. simpl forallb.
  intros H. apply andb_true_iff in H as [Hc Hs].
  rewrite contains_sep_cons, (IH Hs). apply negb_true_iff in Hc. rewrite Hc. reflexivity.
Qed.

Lemma str_no_separator (z : Z) : Py.contains "/" (Py.str z) = false.
Proof.
  apply contains_sep_chars.
  assert (Hgo : forall p, forallb (fun c => negb (Ascii.eqb c "/"))
                  (list_ascii_of_string (pretty_N_go (N.pos p) "")) = true).
  { intros p. apply (pretty_N_go_chars (fun c => negb (Ascii.eqb c "/"))); [|reflexivity].
    apply (pretty_N_char_cases (fun c => negb (Ascii.eqb c "/"))); reflexivity. }
  destruct z as [|p|p]; [reflexivity | apply Hgo |].
  change (Py.str (Z.neg p)) with (String "-" (pretty_N_go (N.pos p) "")).
  simpl. apply Hgo.
Qed.

Lemma after_last_no_separator s : Py.contains "/" (Py.after_last "/" s) = false.
Proof.
  induction s as [|c s IH]; [reflexivity|].
  cbn [Py.after_last].
  destruct (Ascii.eqb c "/") eqn:Ec; [exact IH|].
  destruct (Py.contains "/" s) eqn:Es; [exact IH|].
  rewrite contains_sep_cons, Ec, Es. reflexivity.
Qed.

Lemma splitext_name_no_separator name : forall stem,
  Py.contains "/" name = false -> Py.contains "/" (Py.splitext_name stem name) = false.
Proof.
  induction name as [|c rest IH]; intros stem H; [reflexivity|].
  cbn [Py.splitext_name].
  destruct (Ascii.eqb c "." && negb (Py.contains "." rest)).
  - destruct (Py.all_dots stem); [reflexivity | exact H].
  - apply IH. rewrite contains_sep_cons in H. apply orb_false_iff in H. tauto.
Qed.

Lemma splitext_no_separator p : Py.contains "/" (Py.splitext p) = false.
Proof. apply splitext_name_no_separator, after_last_no_separator. Qed.

Lemma splitext_name_dot name : forall stem,
  Py.splitext_name stem name = "" \/ exists rest, Py.splitext_name stem name = String "." rest.
Proof.
  induction name as [|c rest IH]; intros stem; [left; reflexivity|].
  cbn [Py.splitext_name].
  destruct (Ascii.eqb c "." && negb (Py.contains "." rest)) eqn:E.
  - destruct (Py.all_dots stem); [left; reflexivity|].
    right. exists rest. apply andb_true_iff in E as [E _].
    apply Ascii.eqb_eq in E. subst c. reflexivity.
  - apply IH.
Qed.

End SeparatorFacts.

(** ** Sizes and names as the crawler prints them *)

Section FormatFacts.
Import Crawler.
Local Open Scope string_scope.

Lemma string_app_assoc (a b c : string) : ((a ++ b) ++ c = a ++ (b ++ c))%string.
Proof.
  induction a as [|x a IH]; [reflexivity|].
  change (String x ((a ++ b) ++ c) = String x (a ++ (b ++ c)))%string.
  f_equal. exact IH.
Qed.

Lemma inject_Z_succ z : (inject_Z (z + 1) == inject_Z z + 1)%Q.
Proof. rewrite inject_Z_plus. reflexivity. Qed.

Lemma inject_Z_pred z : (inject_Z (z - 1) == inject_Z z - 1)%Q.
Proof. unfold Z.sub. rewrite inject_Z_plus. reflexivity. Qed.

(** The tenths [format_1f] prints: [r] when [x * 10] rounds to [r]. *)
Lemma format_1f_tenths (x : Q) (r : Z) :
  (0 <= x)%Q ->
  (inject_Z r - (1 # 2) < x * 10 < inject_Z r + (1 # 2))%Q \/
  ((x * 10 == inject_Z r - (1 # 2))%Q /\ Z.even r = true) \/
  ((x * 10 == inject_Z r + (1 # 2))%Q /\ Z.even r = true) ->
  Py.format_1f x = pretty (r / 10) ++ "." ++ pretty (r mod 10).
Proof.
  intros H0 Hr. unfold Py.format_1f.
  assert (Hneg : Qltb x 0 = false) by (apply Qltb_false; exact H0).
  rewrite Hneg.
  assert (Habs : (Qabs x == x)%Q) by (apply Qabs_pos; exact H0).
  set (t := (Qabs x * 10)%Q).
  assert (Ht : (t == x * 10)%Q) by (unfold t; rewrite Habs; reflexivity).
  pose proof (Qfloor_le t) as Hlo. pose proof (Qlt_floor t) as Hhi.
  set (q := Qfloor t) in *.
  rewrite inject_Z_succ in Hhi.
  assert (Hcases :
    (if Qltb (t - inject_Z q) (1 # 2) then q
     else if Qltb (1 # 2) (t - inject_Z q) then q + 1
     else if Z.even q then q else q + 1) = r).
  { destruct Hr as [[Hr1 Hr2]|[[Hr He]|[Hr He]]].
    - destruct (Z_lt_le_dec r (q + 1)) as [Hlt|Hge].
      + destruct (Z_lt_le_dec r q) as [Hlt'|Hge'].
        * exfalso. assert (H : (inject_Z (r + 1) <= inject_Z q)%Q).
          { rewrite <- Zle_Qle. lia. }
          rewrite inject_Z_succ in H. lra.
        * assert (q = r) by lia. subst r.
          assert (E : Qltb (t - inject_Z q) (1 # 2) = true) by (apply Qltb_true; lra).
          rewrite E. reflexivity.
      + destruct (Z_lt_le_dec (q + 1) r) as [Hlt'|Hge'].
        * exfalso. assert (H : (inject_Z (q + 1 + 1) <= inject_Z r)%Q).
          { rewrite <- Zle_Qle. lia. }
          rewrite !inject_Z_succ in H. lra.
        * assert (r = q + 1) by lia. subst r.
          rewrite inject_Z_succ in Hr1, Hr2.
          assert (E : Qltb (t - inject_Z q) (1 # 2) = false) by (apply Qltb_false; lra).
          assert (E' : Qltb (1 # 2) (t - inject_Z q) = true) by (apply Qltb_true; lra).
          rewrite E, E'. reflexivity.
    - (* x * 10 = r - 1/2: the floor is r - 1, odd, the tie goes up to r *)
      assert (Hq : q = r - 1).
      { assert (H1 : (inject_Z q < inject_Z r)%Q) by lra.
        assert (H2 : (inject_Z r - 1 < inject_Z q + 1)%Q) by lra.
        rewrite <- Zlt_Qlt in H1.
        assert (H3 : (inject_Z (r - 1) < inject_Z (q + 1))%Q).
        { rewrite inject_Z_pred, inject_Z_succ. lra. }
        rewrite <- Zlt_Qlt in H3. lia. }
      subst q.
      assert (Eq : (inject_Z (Qfloor t) == inject_Z r - 1)%Q).
      { rewrite Hq, inject_Z_pred. lra. }
      assert (E : Qltb (t - inject_Z (Qfloor t)) (1 # 2) = false) by (apply Qltb_false; lra).
      assert (E' : Qltb (1 # 2) (t - inject_Z (Qfloor t)) = false) by (apply Qltb_false; lra).
      rewrite E, E', Hq.
      replace (Z.even (r - 1)) with false; [lia|].
      rewrite Z.even_sub, He. reflexivity.
    - (* x * 10 = r + 1/2: the floor is r, even, the tie stays *)
      assert (Hq : q = r).
      { assert (H1 : (inject_Z r < inject_Z q + 1)%Q) by lra.
        assert (H2 : (inject_Z q < inject_Z r + 1)%Q) by lra.
        assert (H3 : (inject_Z r < inject_Z (q + 1))%Q).
        { rewrite inject_Z_succ. lra. }
        assert (H4 : (inject_Z q < inject_Z (r + 1))%Q).
        { rewrite inject_Z_succ. lra. }
        rewrite <- Zlt_Qlt in H3, H4. lia. }
      subst q. rewrite Hq in *.
      assert (E : Qltb (t - inject_Z r) (1 # 2) = false) by (apply Qltb_false; lra).
      assert (E' : Qltb (1 # 2) (t - inject_Z r) = false) by (apply Qltb_false; lra).
      rewrite E, E', He. reflexivity. }
  rewrite Hcases. reflexivity.
Qed.

Lemma format_1f_integer (n : Z) :
  0 <= n -> Py.format_1f (inject_Z n) = Py.str n ++ ".0".
Proof.
  intros Hn.
  rewrite (format_1f_tenths (inject_Z n) (n * 10)).
  - rewrite Z.div_mul by lia. rewrite Z.mod_mul by lia. reflexivity.
  - change 0%Q with (inject_Z 0). rewrite <- Zle_Qle. exact Hn.
  - left. rewrite inject_Z_mult. change (inject_Z 10) with 10%Q. split; lra.
Qed.

Lemma format_1f_just_below_1024 (x : Q) :
  (20479 # 20 <= x)%Q -> (x < 1024)%Q -> Py.format_1f x = "1024.0".
Proof.
  intros Hlo Hhi.
  rewrite (format_1f_tenths x 10240).
  - reflexivity.
  - lra.
  - destruct (Qeq_dec (x * 10) (inject_Z 10240 - (1 # 2))) as [E|E].
    + right. left. split; [exact E | reflexivity].
    + left. change (inject_Z 10240) with 10240%Q in *.
      split; [|lra].
      destruct (Qlt_le_dec (10240 - (1 # 2)) (x * 10)) as [H|H]; [exact H|].
      exfalso. apply E. apply Qle_antisym; lra.
Qed.

End FormatFacts.

Ltac lra_div1024 :=
  unfold Qdiv; change (/ 1024)%Q with (1 # 1024)%Q; lra.

(** X2.  [format_size].  A size below 1024 bytes is printed as its number
    of bytes with one decimal, "<n>.0B".  The unit is chosen before the
    rounding to one decimal: a size within a twentieth of a unit below the
    next unit is printed as "1024.0" of the smaller unit ("1024.0KB",
    "1024.0MB", "1024.0GB"), not as "1.0" of the next. *)
Theorem format_size_rendering :
  (forall n, 0 <= n < 1024 ->
     Crawler.format_size n = (Py.str n ++ ".0B")%string) /\
  (forall n, 1048525 <= n < 1048576 -> Crawler.format_size n = "1024.0KB"%string) /\
  (forall n, 1073689396 <= n < 1073741824 -> Crawler.format_size n = "1024.0MB"%string) /\
  (forall n, 1099457940685 <= n < 1099511627776 ->
     Crawler.format_size n = "1024.0GB"%string).
Proof.
  assert (Hq : forall a b : Z, a <= b -> (inject_Z a <= inject_Z b)%Q).
  { intros a b H. rewrite <- Zle_Qle. exact H. }
  assert (Hq' : forall a b : Z, a < b -> (inject_Z a < inject_Z b)%Q).
  { intros a b H. rewrite <- Zlt_Qlt. exact H. }
  unfold Crawler.format_size.
  split; [|split; [|split]]; intros n [Hlo Hhi]; cbn [Crawler.format_size_units].
  - apply Hq' in Hhi. change (inject_Z 1024) with 1024%Q in Hhi.
    assert (E : Qltb (inject_Z n) 1024 = true) by (apply Qltb_true; exact Hhi).
    rewrite E, format_1f_integer by exact Hlo.
    rewrite string_app_assoc. reflexivity.
  - apply Hq in Hlo. apply Hq' in Hhi.
    change (inject_Z 1048525) with 1048525%Q in Hlo.
    change (inject_Z 1048576) with 1048576%Q in Hhi.
    assert (E0 : Qltb (inject_Z n) 1024 = false) by (apply Qltb_false; lra_div1024).
    assert (E1 : Qltb (inject_Z n / 1024) 1024 = true) by (apply Qltb_true; lra_div1024).
    rewrite E0, E1, format_1f_just_below_1024 by lra_div1024. reflexivity.
  - apply Hq in Hlo. apply Hq' in Hhi.
    change (inject_Z 1073689396) with 1073689396%Q in Hlo.
    change (inject_Z 1073741824) with 1073741824%Q in Hhi.
    assert (E0 : Qltb (inject_Z n) 1024 = false) by (apply Qltb_false; lra_div1024).
    assert (E1 : Qltb (inject_Z n / 1024) 1024 = false) by (apply Qltb_false; lra_div1024).
    assert (E2 : Qltb (inject_Z n / 1024 / 1024) 1024 = true) by (apply Qltb_true; lra_div1024).
    rewrite E0, E1, E2, format_1f_just_below_1024 by lra_div1024. reflexivity.
  - apply Hq in Hlo. apply Hq' in Hhi.
    change (inject_Z 1099457940685) with 1099457940685%Q in Hlo.
    change (inject_Z 1099511627776) with 1099511627776%Q in Hhi.
    assert (E0 : Qltb (inject_Z n) 1024 = false) by (apply Qltb_false; lra_div1024).
    assert (E1 : Qltb (inject_Z n / 1024) 1024 = false) by (apply Qltb_false; lra_div1024).
    assert (E2 : Qltb (inject_Z n / 1024 / 1024) 1024 = false) by (apply Qltb_false; lra_div1024).
    assert (E3 : Qltb (inject_Z n / 1024 / 1024 / 1024) 1024 = true)
      by (apply Qltb_true; lra_div1024).
    rewrite E0, E1, E2, E3, format_1f_just_below_1024 by lra_div1024. reflexivity.
Qed.

Section NameFacts.
Import Telethon Crawler.
Local Open Scope string_scope.

Lemma lstrip_head s :
  Py.lstrip s = "" \/ exists c r, Py.lstrip s = String c r /\ Py.isspace c = false.
Proof.
  induction s as [|c s IH]; [left; reflexivity|].
  cbn [Py.lstrip]. destruct (Py.isspace c) eqn:E; [exact IH|].
  right. exists c, s. split; [reflexivity | exact E].
Qed.

Lemma lstrip_cons c s : Py.isspace c = false -> Py.lstrip (String c s) = String c s.
Proof. intros E. cbn [Py.lstrip]. rewrite E. reflexivity. Qed.

Lemma rstrip_cons c s :
  Py.isspace c = false -> Py.rstrip (String c s) = String c (Py.rstrip s).
Proof.
  intros E. cbn [Py.rstrip]. rewrite E. destruct (Py.rstrip s); reflexivity.
Qed.

Lemma rstrip_idem s : Py.rstrip (Py.rstrip s) = Py.rstrip s.
Proof.
  induction s as [|c s IH]; [reflexivity|].
  cbn [Py.rstrip]. destruct (Py.rstrip s) as [|a r] eqn:E.
  - destruct (Py.isspace c) eqn:Ec; [reflexivity|].
    cbn [Py.rstrip]. rewrite Ec. reflexivity.
  - change (match Py.rstrip (String a r) with
            | "" => if Py.isspace c then "" else String c ""
            | String x r' => String c (String x r')
            end = String c (String a r)).
    rewrite IH. reflexivity.
Qed.

Lemma strip_idem s : Py.strip (Py.strip s) = Py.strip s.
Proof.
  unfold Py.strip. destruct (lstrip_head s) as [E|(c & r & E & Hc)]; rewrite E.
  - reflexivity.
  - rewrite (rstrip_cons c r Hc). cbn [Py.lstrip]. rewrite Hc.
    rewrite <- (rstrip_cons c r Hc). apply rstrip_idem.
Qed.

Lemma rstrip_app_space s : Py.rstrip (s ++ " ") = Py.rstrip s.
Proof.
  induction s as [|c s IH]; [reflexivity|].
  change (String c s ++ " ") with (String c (s ++ " ")).
  cbn [Py.rstrip]. rewrite IH. reflexivity.
Qed.

Lemma strip_app_space s : Py.strip (s ++ " ") = Py.strip s.
Proof.
  unfold Py.strip. induction s as [|c s IH]; [reflexivity|].
  change (String c s ++ " ") with (String c (s ++ " ")).
  cbn [Py.lstrip]. destruct (Py.isspace c) eqn:E; [exact IH|].
  rewrite !(rstrip_cons c _ E), rstrip_app_space. reflexivity.
Qed.

End NameFacts.

(** X3.  [get_display_name] of a User.  The name has no leading or trailing
    whitespace; a user with no last name is shown by the stripped first
    name; a user whose [first_name] is None is shown by a name that
    starts with the text "None" (the f-string prints the None). *)
Theorem display_name_of_user
    (id : Z) (first_name last_name username : option string) (bot : bool) :
  let name := Crawler.get_display_name (Telethon.User id first_name last_name username bot) in
  Py.strip name = name /\
  (forall first, first_name = Some first -> last_name = None -> name = Py.strip first) /\
  (first_name = None -> exists rest, name = ("None" ++ rest)%string).
Proof.
  intros name. subst name. unfold Crawler.get_display_name.
  split; [apply strip_idem|]. split.
  - intros first -> ->. cbn [default].
    change (" " ++ "")%string with " "%string. apply strip_app_space.
  - intros ->. cbn [default].
    set (l := match last_name with
              | Some l => if Py.truthy l then l else ""%string
              | None => ""%string
              end).
    exists (Py.rstrip (" " ++ l)%string). unfold Py.strip.
    change ("None" ++ " " ++ l)%string
      with (String "N" (String "o" (String "n" (String "e" (" " ++ l)%string)))).
    rewrite (lstrip_cons "N") by reflexivity.
    rewrite !rstrip_cons by reflexivity. reflexivity.
Qed.

(** ** Kinds, extensions and file names of media *)

Section MediaKinds.
Import Telethon Crawler.
Local Open Scope string_scope.

Lemma mime_kind_shape m media_type extension :
  mime_kind m = Some (media_type, extension) ->
  media_type ∈ ["photo"; "video"; "audio"; "document"] /\
  (exists rest, extension = String "." rest) /\
  Py.contains "/" extension = false.
Proof.
  unfold mime_kind.
  destruct (Py.startswith m "video/").
  { intros [= <- <-]. split; [set_solver|]. split; [eauto | reflexivity]. }
  destruct (Py.startswith m "audio/").
  { intros [= <- <-]. split; [set_solver|].
    destruct (Py.contains "mpeg" m); (split; [eauto | reflexivity]). }
  destruct (Py.startswith m "image/"); [|discriminate].
  intros [= <- <-]. split; [set_solver|]. split; [eexists; reflexivity|].
  change ("." ++ Py.after_last "/" m) with (String "." (Py.after_last "/" m)).
  rewrite contains_sep_cons, after_last_no_separator. reflexivity.
Qed.

Lemma get_media_type_shape m media_type extension :
  get_media_type m = Value (Some (media_type, extension)) ->
  media_type ∈ ["photo"; "video"; "audio"; "document"] /\
  (exists rest, extension = String "." rest) /\
  Py.contains "/" extension = false.
Proof.
  destruct m as [|[document|]|class_name]; simpl; try discriminate.
  { intros [= <- <-]. split; [set_solver|]. split; [eauto | reflexivity]. }
  destruct (match mime_type document with
            | Some m => if Py.truthy m then mime_kind m else None
            | None => None
            end) as [[mt ext]|] eqn:E.
  - intros [= <- <-].
    destruct (mime_type document) as [m|]; [|discriminate].
    destruct (Py.truthy m); [|discriminate].
    apply (mime_kind_shape m). exact E.
  - destruct (first_file_name (attributes document)) as [file_name|].
    + intros [= <- <-]. split; [set_solver|].
      destruct (Py.truthy (Py.splitext file_name)) eqn:Et.
      * split; [|apply splitext_no_separator].
        destruct (splitext_name_dot (Py.after_last "/" file_name) "") as [E0|Hdot].
        -- unfold Py.splitext in Et. rewrite E0 in Et. discriminate.
        -- exact Hdot.
      * split; [eauto | reflexivity].
    + intros [= <- <-]. split; [set_solver|]. split; [eauto | reflexivity].
Qed.

Lemma media_filename_no_separator message media_type extension :
  media_type ∈ ["photo"; "video"; "audio"; "document"] ->
  Py.contains "/" extension = false ->
  no_separator (strftime_Ymd_HMS (date message)) = true ->
  no_separator (media_filename message media_type extension) = true.
Proof.
  intros Hk He Hd. unfold no_separator in *. apply negb_true_iff in Hd.
  apply negb_true_iff. unfold media_filename.
  rewrite !contains_sep_app, str_no_separator, Hd, He.
  assert (Hmt : Py.contains "/" media_type = false).
  { repeat (apply elem_of_cons in Hk as [->|Hk]; [reflexivity|]). inversion Hk. }
  rewrite Hmt. reflexivity.
Qed.

End MediaKinds.

(** X4.  [get_media_type].  Whenever it returns a type, the type is one of
    photo, video, audio and document, and the extension starts with a dot
    and holds no path separator. *)
Theorem media_type_and_extension_shape (m : Telethon.MessageMedia)
    (media_type extension : string) :
  Crawler.get_media_type m = Value (Some (media_type, extension)) ->
  media_type ∈ ["photo"; "video"; "audio"; "document"]%string /\
  (exists rest, extension = String "." rest) /\
  no_separator extension = true.
Proof.
  intros H. destruct (get_media_type_shape m media_type extension H) as (Hk & Hd & Hs).
  split; [exact Hk|]. split; [exact Hd|]. unfold no_separator. rewrite Hs. reflexivity.
Qed.

(** X5.  [download_media_file] keeps to the media directory.  When the call
    returns a descriptor with a file name (the timestamp text holding no
    "/", as "%Y%m%d_%H%M%S" gives it), the name holds no path separator,
    the only path the call can have downloaded to is [media_dir] joined
    with that name, and after the call that file is on disk with the size
    the descriptor records. *)
Theorem media_file_stays_in_media_dir
    (c : Telethon.Client) (message : Telethon.Message) (media_dir : string)
    (rl : Limiter.RateLimiter) (w : Crawler.world) (d : dict) (f : string) :
  let r := Crawler.download_media_file c message media_dir rl w in
  r.1.1 = Some d ->
  dict_get d "filename" = JStr f ->
  no_separator (Telethon.strftime_Ymd_HMS (Telethon.date message)) = true ->
  no_separator f = true /\
  (Crawler.downloads r.2 = Crawler.downloads w \/
   Crawler.downloads r.2 = Crawler.downloads w ++ [Py.path_join media_dir f]) /\
  exists n, Crawler.fs r.2 !! Py.path_join media_dir f = Some n /\
            dict_get d "size" = JNum n.
Proof.
  intros r Hd Hf Hts. subst r. revert Hd. unfold Crawler.download_media_file.
  destruct (Telethon.media message) as [m|]; [|discriminate].
  destruct (Crawler.get_media_size m) as [media_size|]; [|discriminate].
  destruct (Crawler.over_cap media_size).
  { simpl. intros [= <-]. discriminate Hf. }
  destruct (Crawler.get_media_type m) as [[[media_type extension]|]|] eqn:Et;
    try discriminate.
  destruct (negb (Py.truthy media_type)); [discriminate|].
  destruct (get_media_type_shape m media_type extension Et) as (Hk & _ & Hs).
  pose proof (media_filename_no_separator message media_type extension Hk Hs Hts) as Hn.
  unfold Crawler.fetch.
  destruct (Crawler.fs w !! _) as [on_disk|] eqn:Efs.
  - simpl. intros [= <-]. simpl in Hf. injection Hf as <-.
    split; [exact Hn|]. split; [left; reflexivity|].
    exists on_disk. split; [exact Efs | reflexivity].
  - destruct (Limiter.wait rl (Crawler.now w)) as [rl' t].
    destruct (Telethon.download_media c message) as [actual_size|]; [|discriminate].
    simpl. intros [= <-]. simpl in Hf. injection Hf as <-.
    split; [exact Hn|]. split; [right; reflexivity|].
    exists actual_size. split; [apply lookup_insert_eq | reflexivity].
Qed.

(** X6.  A repeated [download_media_file] reuses the file.  After a call
    that returned a descriptor, the same call in the world it left returns
    the same descriptor, downloads nothing and does not touch the rate
    limiter. *)
Theorem download_media_file_repeat
    (c : Telethon.Client) (message : Telethon.Message) (media_dir : string)
    (rl rl' : Limiter.RateLimiter) (w : Crawler.world) (d : dict) :
  let r := Crawler.download_media_file c message media_dir rl w in
  r.1.1 = Some d ->
  Crawler.download_media_file c message media_dir rl' r.2 = (Some d, rl', r.2).
Proof.
  intros r Hd. subst r. revert Hd. unfold Crawler.download_media_file.
  destruct (Telethon.media message) as [m|]; [|discriminate].
  destruct (Crawler.get_media_size m) as [media_size|]; [|discriminate].
  destruct (Crawler.over_cap media_size).
  { simpl. intros [= <-]. reflexivity. }
  destruct (Crawler.get_media_type m) as [[[media_type extension]|]|] eqn:Et;
    try discriminate.
  destruct (negb (Py.truthy media_type)); [discriminate|].
  unfold Crawler.fetch.
  destruct (Crawler.fs w !! _) as [on_disk|] eqn:Efs.
  - simpl. intros [= <-]. rewrite Efs. reflexivity.
  - destruct (Limiter.wait rl (Crawler.now w)) as [rl1 t].
    destruct (Telethon.download_media c message) as [actual_size|]; [|discriminate].
    simpl. intros [= <-]. rewrite lookup_insert_eq. reflexivity.
Qed.

(** ** Runs of the crawl *)

Section CrawlRuns.
Import Telethon Crawler.

Lemma select_max_id_is_max (store : Database.t) (M : Z) :
  Database.select_max_id store = Some M ->
  is_Some (store !! M) /\ forall k, is_Some (store !! k) -> k <= M.
Proof.
  unfold Database.select_max_id.
  assert (Hkeys : forall k, k ∈ (map_to_list store).*1 <-> is_Some (store !! k)).
  { intros k. rewrite list_elem_of_fmap. split.
    - intros [[k' v] [-> Hin]]. apply elem_of_map_to_list in Hin. simpl. eauto.
    - intros [v Hv]. exists (k, v). split; [reflexivity|].
      apply elem_of_map_to_list. exact Hv. }
  destruct ((map_to_list store).*1) as [|k ks] eqn:E; [discriminate|].
  intros [= <-]. destruct (foldr_max_spec k ks) as [Hin Hall]. split.
  - apply Hkeys. exact Hin.
  - intros j Hj. apply Hkeys in Hj. rewrite Forall_forall in Hall. apply Hall. exact Hj.
Qed.

Lemma select_max_id_none (store : Database.t) :
  Database.select_max_id store = None -> store = ∅.
Proof.
  unfold Database.select_max_id.
  destruct ((map_to_list store).*1) as [|k ks] eqn:E; [|discriminate].
  intros _. apply map_to_list_empty_iff. apply fmap_nil_inv in E. exact E.
Qed.

(** The run either stops after the count query or goes through the
    iteration, in both cases from the store it found. *)
Lemma download_messages_cases c media_dir stamp (store : Database.t) w :
  exists st0,
    db st0 = store /\ visited st0 = [] /\ messages st0 = [] /\
    fs (env st0) = fs w /\ downloads (env st0) = downloads w /\
    (download_messages c media_dir stamp store w = (st0, true) \/
     download_messages c media_dir stamp store w =
       (fold_left (process_message c media_dir stamp)
          (iter_messages c (iteration_min_id (Database.get_latest_message_id store))) st0,
        true)).
Proof.
  unfold download_messages.
  change (Limiter.init MAX_REQUESTS_PER_SECOND (now w))
    with (Some (Limiter.mkRateLimiter 50 (1 / inject_Z 50) 0 0 (now w))).
  cbv iota. destruct (Limiter.wait _ (now w)) as [rl1 t1].
  eexists. split; [|split; [|split; [|split; [|split]]]].
  6: { destruct (Z.eqb _ 0); [left; reflexivity | right; reflexivity]. }
  all: reflexivity.
Qed.

End CrawlRuns.

(** X7.  Nothing new, nothing done.  When every message of the chat has a
    positive id and is in the store, [download_messages] returns True and
    leaves the store as it is: no message is visited, no row rewritten,
    nothing downloaded, no file written. *)
Theorem crawl_of_up_to_date_store_is_noop
    (c : Telethon.Client) (media_dir : string) (stamp : Q -> string)
    (store : Crawler.Database.t) (w : Crawler.world) :
  (forall m, m ∈ Telethon.history c -> 0 < Telethon.id m /\ is_Some (store !! Telethon.id m)) ->
  let run := Crawler.download_messages c media_dir stamp store w in
  run.2 = true /\ Crawler.db run.1 = store /\
  Crawler.visited run.1 = [] /\ Crawler.messages run.1 = [] /\
  Crawler.fs (Crawler.env run.1) = Crawler.fs w /\
  Crawler.downloads (Crawler.env run.1) = Crawler.downloads w.
Proof.
  intros Hall run. subst run.
  assert (Hnone : Telethon.iter_messages c
                    (Crawler.iteration_min_id (Crawler.Database.get_latest_message_id store))
                  = []).
  { unfold Crawler.Database.get_latest_message_id.
    destruct (Crawler.Database.select_max_id store) as [M|] eqn:E; simpl.
    - destruct (select_max_id_is_max store M E) as [_ Hmax].
      assert (Hle : forall m, m ∈ Telethon.history c -> 0 < Telethon.id m <= M).
      { intros m Hm. destruct (Hall m Hm) as [Hpos Hin]. split; [exact Hpos|].
        apply Hmax. exact Hin. }
      unfold Crawler.iteration_min_id. destruct (Z.eqb_spec M 0) as [->|HM]; simpl.
      + destruct (Telethon.history c) as [|m l]; [reflexivity|].
        specialize (Hle m ltac:(left)). lia.
      + apply filter_none. apply Forall_forall. intros m Hm. specialize (Hle m Hm). lia.
    - apply select_max_id_none in E. subst store.
      destruct (Telethon.history c) as [|m l]; [reflexivity|].
      destruct (Hall m ltac:(left)) as [_ [row Hrow]].
      rewrite lookup_empty in Hrow. discriminate. }
  destruct (download_messages_cases c media_dir stamp store w)
    as (st0 & Hdb & Hv & Hm & Hfs & Hdl & [E|E]); rewrite E; [|rewrite Hnone];
    simpl; auto 10.
Qed.

(** X8.  A run that stops early leaves a gap that later runs do not fill.
    The iteration yields the newest message first and every turn commits
    its row, so after a run that took the messages [m :: pre] ([m] the
    newest, with a positive id) and stopped, the largest stored id is that
    of [m]; a later run then visits only messages with a larger id, and a
    message of the chat older than [m] that is not in the store is
    neither visited nor stored by it. *)
Theorem interrupted_sync_leaves_gap
    (c c' : Telethon.Client) (media_dir : string) (stamp : Q -> string)
    (st : Crawler.loop_state) (m : Telethon.Message) (pre : list Telethon.Message)
    (w' : Crawler.world) :
  0 < Telethon.id m ->
  (forall j, is_Some (Crawler.db st !! j) -> j <= Telethon.id m) ->
  Forall (fun x => Telethon.id x <= Telethon.id m) pre ->
  let store := Crawler.db (fold_left (Crawler.process_message c media_dir stamp) (m :: pre) st) in
  let run := Crawler.download_messages c' media_dir stamp store w' in
  Crawler.Database.get_latest_message_id store = Telethon.id m /\
  Forall (fun x => Telethon.id m < Telethon.id x) (Crawler.visited run.1) /\
  (forall x, x ∈ Telethon.history c' -> Telethon.id x < Telethon.id m ->
     store !! Telethon.id x = None ->
     ~ x ∈ Crawler.visited (run.1) /\ Crawler.db run.1 !! Telethon.id x = None).
Proof.
  intros Hpos Hold Hpre store run.
  destruct (run_loop_spec c media_dir stamp (fun j => j <= Telethon.id m) (m :: pre) st)
    as (_ & _ & Hframe & Hins).
  { constructor; [lia | exact Hpre]. }
  fold store in Hframe, Hins.
  assert (Hlatest : Crawler.Database.get_latest_message_id store = Telethon.id m).
  { unfold Crawler.Database.get_latest_message_id.
    rewrite (select_max_id_spec store (Telethon.id m)); [reflexivity | |].
    - apply Hins. left.
    - intros j Hj. destruct (Z_le_gt_dec j (Telethon.id m)) as [H|H]; [exact H|].
      rewrite Hframe in Hj by lia. apply Hold. exact Hj. }
  split; [exact Hlatest|].
  assert (Hmin : Crawler.iteration_min_id (Telethon.id m) = Some (Telethon.id m)).
  { unfold Crawler.iteration_min_id.
    destruct (Z.eqb_spec (Telethon.id m) 0); [lia | reflexivity]. }
  assert (Hall : Forall (fun x => Telethon.id m < Telethon.id x)
                   (Telethon.iter_messages c' (Some (Telethon.id m)))).
  { apply Forall_forall. intros x Hx. simpl in Hx.
    apply list_elem_of_filter in Hx as [Hx _]. exact Hx. }
  assert (Hrun : Forall (fun x => Telethon.id m < Telethon.id x) (Crawler.visited run.1) /\
                 forall j, j <= Telethon.id m -> Crawler.db run.1 !! j = store !! j).
  { subst run.
    destruct (download_messages_cases c' media_dir stamp store w')
      as (st0 & Hdb & Hv & _ & _ & _ & [E|E]); rewrite E; simpl.
    - rewrite Hv, Hdb. split; [constructor | reflexivity].
    - rewrite Hlatest, Hmin.
      destruct (run_loop_spec c' media_dir stamp (fun j => Telethon.id m < j)
                  (Telethon.iter_messages c' (Some (Telethon.id m))) st0 Hall)
        as (Hv' & _ & Hframe' & _).
      rewrite Hv', Hv. split; [exact Hall|].
      intros j Hj. rewrite Hframe' by lia. rewrite Hdb. reflexivity. }
  destruct Hrun as [Hvis Hkeep]. split; [exact Hvis|].
  intros x _ Hlt Habsent. split.
  - intros Hx. rewrite Forall_forall in Hvis. specialize (Hvis x Hx). lia.
  - rewrite Hkeep by lia. exact Habsent.
Qed.

(** ** What an update of the manifest overwrites *)

Section ManifestColumns.
Import Manifest.

Lemma dict_get_absent (d : dict) key : dict_mem d key = false -> dict_get d key = JNull.
Proof.
  unfold dict_mem. induction d as [|[k v] d IH]; simpl; [reflexivity|].
  destruct (String.eqb k key); [discriminate | exact IH].
Qed.

End ManifestColumns.

(** X9.  [update_chat] on a chat that has a row.  A successful update
    writes [chat_data.get(key)] to each of the twelve optional columns, so
    a column whose key is absent from [chat_data] becomes NULL whatever it
    held; [join_date] alone is kept when the key is absent and the stored
    value is truthy, and is overwritten (also by None) when the key is
    present. *)
Theorem update_chat_overwrites
    (self : Manifest.t) (d : Manifest.chat_data) (now : Z) (row : Manifest.Row) :
  self !! Manifest.cd_chat_id d = Some row ->
  (Manifest.update_chat self d now).2 = true ->
  exists row',
    (Manifest.update_chat self d now).1 !! Manifest.cd_chat_id d = Some row' /\
    (forall key col, (key, col) ∈ optional_columns ->
       col row' = dict_get (Manifest.fields d) key /\
       (dict_mem (Manifest.fields d) key = false -> col row' = JNull)) /\
    (dict_mem (Manifest.fields d) "join_date" = false ->
     json_truthy (Manifest.join_date row) = true ->
     Manifest.join_date row' = Manifest.join_date row) /\
    (dict_mem (Manifest.fields d) "join_date" = true ->
     Manifest.join_date row' = dict_get (Manifest.fields d) "join_date").
Proof.
  intros Hrow. unfold Manifest.update_chat. rewrite Hrow.
  destruct (dict_index (Manifest.fields d) "name") as [name|]; [|discriminate].
  destruct (dict_index (Manifest.fields d) "type") as [type|]; [|discriminate].
  destruct (is_null name || is_null type); [discriminate|].
  intros _. cbn [fst]. rewrite lookup_insert_eq. eexists. split; [reflexivity|].
  split; [|split].
  - intros key col Hin.
    assert (E : col (Manifest.make_row d name type (Manifest.first_seen row) now now
                       (if negb (dict_mem (Manifest.fields d) "join_date")
                           && json_truthy (Manifest.join_date row)
                        then Manifest.join_date row
                        else dict_get (Manifest.fields d) "join_date"))
                = dict_get (Manifest.fields d) key).
    { unfold optional_columns in Hin.
      repeat (apply elem_of_cons in Hin as [[= -> ->]|Hin]; [reflexivity|]).
      inversion Hin. }
    split; [exact E|]. intros Habs. rewrite E. apply dict_get_absent. exact Habs.
  - intros Hno Ht. cbn [Manifest.make_row Manifest.join_date]. rewrite Hno, Ht. reflexivity.
  - intros Hyes. cbn [Manifest.make_row Manifest.join_date]. rewrite Hyes. reflexivity.
Qed.

(** ** The chat listing *)

Section ListingFacts.
Import Listing.

Lemma chat_info_type client dialog :
  dict_index (Manifest.fields (get_full_chat_info client dialog)) "type"
  = Some (JStr (kind_of (entity dialog))).
Proof.
  unfold get_full_chat_info. destruct (entity dialog); reflexivity.
Qed.

Lemma chat_info_name client dialog :
  dict_index (Manifest.fields (get_full_chat_info client dialog)) "name"
  = Some (JStr (name dialog)).
Proof.
  unfold get_full_chat_info. destruct (entity dialog); reflexivity.
Qed.

Lemma chat_info_get_type client dialog :
  dict_get (Manifest.fields (get_full_chat_info client dialog)) "type"
  = JStr (kind_of (entity dialog)).
Proof.
  unfold get_full_chat_info. destruct (entity dialog); reflexivity.
Qed.

Lemma chat_info_id client dialog :
  Manifest.cd_chat_id (get_full_chat_info client dialog) = entity_id (entity dialog).
Proof. reflexivity. Qed.

Lemma update_chat_listed client dialog (self : Manifest.t) now :
  (Manifest.update_chat self (get_full_chat_info client dialog) now).2 = true /\
  exists row,
    (Manifest.update_chat self (get_full_chat_info client dialog) now).1
      !! entity_id (entity dialog) = Some row /\
    Manifest.name row = JStr (name dialog) /\
    Manifest.type row = JStr (kind_of (entity dialog)) /\
    Manifest.last_seen row = now.
Proof.
  unfold Manifest.update_chat.
  rewrite chat_info_name, chat_info_type, chat_info_id. cbn [is_null orb].
  destruct (self !! entity_id (entity dialog)) as [existing|]; cbn [fst snd];
    (split; [reflexivity|]); rewrite lookup_insert_eq; eexists;
    (split; [reflexivity|]); cbn; auto.
Qed.

Lemma update_chats_keeps calls : forall (self : Manifest.t) k,
  is_Some (self !! k) -> is_Some (Manifest.update_chats self calls !! k).
Proof.
  induction calls as [|[d now] calls IH]; intros self k Hk; [exact Hk|].
  simpl. apply IH.
  destruct (decide (k = Manifest.cd_chat_id d)) as [->|Hne].
  - destruct Hk as [row Hrow].
    destruct (update_chat_existing self d now row Hrow) as (row' & E & _). eauto.
  - rewrite update_chat_other by exact Hne. exact Hk.
Qed.

Lemma kind_of_user e : bool_decide (JStr (kind_of e) = JStr "User") = is_user e.
Proof. destruct e as [| |i u b d|]; try reflexivity. destruct b; reflexivity. Qed.

Lemma kind_of_group e :
  bool_decide (JStr (kind_of e) = JStr "Group" \/ JStr (kind_of e) = JStr "Supergroup")
  = is_group e.
Proof.
  destruct e as [| |i u b d|]; try destruct b; cbn [kind_of is_group negb].
  all: first [ apply bool_decide_eq_true_2; auto; fail
             | apply bool_decide_eq_false_2; intros [H|H]; discriminate H ].
Qed.

Lemma user_not_group e : is_user e = true -> is_group e = false.
Proof. destruct e; try discriminate; reflexivity. Qed.

Lemma list_dialogs_from client dialogs : forall l0,
  let l := fold_left (list_dialog client) dialogs l0 in
  (forall i, is_Some (chats l !! i) <->
     is_Some (chats l0 !! i) \/ exists d, d ∈ dialogs /\ entity_id (entity d) = i) /\
  (forall i, is_Some (user_chats l !! i) <->
     is_Some (user_chats l0 !! i) \/
     exists d, d ∈ dialogs /\ entity_id (entity d) = i /\ is_user (entity d) = true) /\
  (forall i, is_Some (group_chats l !! i) <->
     is_Some (group_chats l0 !! i) \/
     exists d, d ∈ dialogs /\ entity_id (entity d) = i /\ is_group (entity d) = true) /\
  chat_manifest l = chat_manifest l0 ++ map (get_full_chat_info client) dialogs.
Proof.
  induction dialogs as [|d dialogs IH]; intros l0; simpl.
  - rewrite app_nil_r. repeat split; try tauto.
    all: intros [H|(d & Hd & _)]; [exact H | inversion Hd].
  - destruct (IH (list_dialog client l0 d)) as (Hc & Hu & Hg & Hm). clear IH.
    assert (Hins : forall (m : gmap Z Dialog) i,
              is_Some (<[entity_id (entity d) := d]> m !! i)
              <-> is_Some (m !! i) \/ entity_id (entity d) = i).
    { intros m i. destruct (decide (entity_id (entity d) = i)) as [<-|Hne].
      - rewrite lookup_insert_eq. split; eauto.
      - rewrite lookup_insert_ne by exact Hne. tauto. }
    split; [|split; [|split]].
    + intros i. rewrite Hc. cbn [list_dialog chats]. rewrite chat_info_id, Hins.
      split.
      * intros [[H|<-]|(x & Hx & E)]; [tauto | right; exists d; split; [left|reflexivity]
                                       | right; exists x; split; [right; exact Hx | exact E]].
      * intros [H|(x & Hx & E)]; [tauto|].
        apply elem_of_cons in Hx as [->|Hx]; [tauto | right; eauto].
    + intros i. rewrite Hu. cbn [list_dialog user_chats].
      rewrite chat_info_id, chat_info_get_type, kind_of_user.
      split.
      * intros [H|(x & Hx & E & Hk)].
        -- destruct (is_user (entity d)) eqn:Ek; [|tauto].
           apply Hins in H as [H|<-]; [tauto|].
           right. exists d. split; [left | tauto].
        -- right. exists x. split; [right; exact Hx | tauto].
      * intros [H|(x & Hx & E & Hk)].
        -- left. destruct (is_user (entity d)); [apply Hins; tauto | exact H].
        -- apply elem_of_cons in Hx as [->|Hx]; [|right; eauto].
           left. rewrite Hk. apply Hins. tauto.
    + intros i. rewrite Hg. cbn [list_dialog group_chats].
      rewrite chat_info_id, chat_info_get_type, kind_of_user, kind_of_group.
      split.
      * intros [H|(x & Hx & E & Hk)].
        -- destruct (is_user (entity d)) eqn:Eu; [tauto|].
           destruct (is_group (entity d)) eqn:Ek; [|tauto].
           apply Hins in H as [H|<-]; [tauto|].
           right. exists d. split; [left | tauto].
        -- right. exists x. split; [right; exact Hx | tauto].
      * intros [H|(x & Hx & E & Hk)].
        -- left. destruct (is_user (entity d)); [exact H|].
           destruct (is_group (entity d)); [apply Hins; tauto | exact H].
        -- apply elem_of_cons in Hx as [->|Hx]; [|right; eauto].
           left. destruct (is_user (entity d)) eqn:Eu.
           ++ apply user_not_group in Eu. congruence.
           ++ rewrite Hk. apply Hins. tauto.
    + rewrite Hm. cbn [list_dialog chat_manifest]. rewrite <- app_assoc. reflexivity.
Qed.

End ListingFacts.

(** X10.  The dictionaries of [list_chats].  After the dialog loop, [chats]
    holds the ids of all dialogs, [user_chats] exactly the ids of the
    dialogs with a User, and [group_chats] exactly the ids of the dialogs
    with a basic group or a supergroup; the dialog of a broadcast channel
    adds its id to neither of the two, which are the dictionaries that
    [--all-users] and [--all-groups] go through.  [chat_manifest] holds
    the info of every dialog in order. *)
Theorem list_chats_classification (client : Listing.Provider) (dialogs : list Listing.Dialog) :
  let l := Listing.list_dialogs client dialogs in
  (forall i, is_Some (Listing.chats l !! i) <->
     exists d, d ∈ dialogs /\ Listing.entity_id (Listing.entity d) = i) /\
  (forall i, is_Some (Listing.user_chats l !! i) <->
     exists d, d ∈ dialogs /\ Listing.entity_id (Listing.entity d) = i /\
               is_user (Listing.entity d) = true) /\
  (forall i, is_Some (Listing.group_chats l !! i) <->
     exists d, d ∈ dialogs /\ Listing.entity_id (Listing.entity d) = i /\
               is_group (Listing.entity d) = true) /\
  Listing.chat_manifest l = map (Listing.get_full_chat_info client) dialogs.
Proof.
  intros l. subst l. unfold Listing.list_dialogs.
  destruct (list_dialogs_from client dialogs Listing.no_listing) as (Hc & Hu & Hg & Hm).
  assert (Hempty : forall i, ~ is_Some ((∅ : gmap Z Listing.Dialog) !! i)).
  { intros i [x Hx]. rewrite lookup_empty in Hx. discriminate. }
  split; [|split; [|split]].
  - intros i. rewrite Hc. cbn. specialize (Hempty i). tauto.
  - intros i. rewrite Hu. cbn. specialize (Hempty i). tauto.
  - intros i. rewrite Hg. cbn. specialize (Hempty i). tauto.
  - exact Hm.
Qed.

(** X11.  Every listed chat reaches the manifest.  On the dict that
    [get_full_chat_info] builds, [update_chat] never fails (the keys 'name'
    and 'type' are always set, also when the request for the full info
    raised): it returns True and the row of the chat holds the dialog's
    name, the type text and the current time as [last_seen]; after the
    loop over [chat_manifest] every dialog's id has a row. *)
Theorem listed_chats_reach_the_manifest
    (client : Listing.Provider) (self : Manifest.t) :
  (forall dialog now,
     let r := Manifest.update_chat self (Listing.get_full_chat_info client dialog) now in
     r.2 = true /\
     exists row,
       r.1 !! Listing.entity_id (Listing.entity dialog) = Some row /\
       Manifest.name row = JStr (Listing.name dialog) /\
       Manifest.type row = JStr (kind_of (Listing.entity dialog)) /\
       Manifest.last_seen row = now) /\
  (forall (timed : list (Listing.Dialog * Z)) dialog now,
     (dialog, now) ∈ timed ->
     is_Some (Manifest.update_chats self
                (map (fun dt => (Listing.get_full_chat_info client dt.1, dt.2)) timed)
              !! Listing.entity_id (Listing.entity dialog))).
Proof.
  split.
  - intros dialog now. apply update_chat_listed.
  - intros timed. revert self.
    induction timed as [|[d t] timed IH]; intros self dialog now Hin; [inversion Hin|].
    cbn [map fst snd Manifest.update_chats].
    apply elem_of_cons in Hin as [[= -> ->]|Hin].
    + apply update_chats_keeps.
      destruct (update_chat_listed client d self t) as (_ & row & E & _). eauto.
    + eapply IH. exact Hin.
Qed.

(** ** The embedding client on a vector *)

(** X12.  [get_embedding_from_server] on a reply that decodes to a vector,
    for a text that is not blank: the result is a vector of exactly [dim]
    entries; it is the reply itself when that has [dim] entries, its first
    [dim] entries when it is longer, and the reply followed by zeros when
    it is shorter. *)
Theorem embedding_is_truncated_or_padded
    (server : string -> Embedding.reply) (text : string) (dim : nat) (reply : list Q) :
  Py.truthy (Py.strip text) = true ->
  server (text ++ "<|endoftext|>")%string = Embedding.Decoded (Embedding.Vector reply) ->
  exists entries,
    Embedding.get_embedding_from_server server text dim = Embedding.Vector entries /\
    length entries = dim /\
    (length reply = dim -> entries = reply) /\
    (dim < length reply -> entries = take dim reply)%nat /\
    (length reply < dim -> entries = reply ++ replicate (dim - length reply) 0%Q)%nat.
Proof.
  intros Hs Hreply.
  assert (Ht : Py.truthy text = true).
  { destruct text; [discriminate Hs | reflexivity]. }
  destruct (get_embedding_rank_le_1 server text dim) as (entries & E & Hlen & _ & Hshape).
  { rewrite Hreply. exact I. }
  specialize (Hshape reply Ht Hs Hreply).
  exists entries. split; [exact E|]. split; [exact Hlen|]. rewrite Hshape.
  split; [|split].
  - intros <-. rewrite firstn_all, Nat.sub_diag, app_nil_r. reflexivity.
  - intros Hlt. replace (dim - length reply)%nat with 0%nat by lia.
    rewrite app_nil_r. reflexivity.
  - intros Hlt. rewrite take_ge by lia. reflexivity.
Qed.

(** ** What a run of the importer reports and stores *)

Section ImportCounts.
Import Warehouse Importer.
Variable raises : stmt -> bool.
Variable server : string -> Embedding.reply.

Lemma contact_step_documents s s1 :
  contact_step s s1 -> document (live s1) = document (live s).
Proof. intros ((E & _) & _). exact E. Qed.

Lemma import_record_documents chat_id sid row s :
  match import_record raises server chat_id sid row s with
  | Ok reached_end s' =>
      length (document (live s'))
      = (length (document (live s)) + if reached_end then 1 else 0)%nat
  | Raised _ => True
  end.
Proof.
  unfold import_record. unfold bind at 1.
  pose proof (resolve_contact_effect raises (Messages.sender row) s) as Hc.
  destruct (resolve_contact raises (Messages.sender row) s) as [cid s1|s1]; [|exact I].
  apply contact_step_documents in Hc.
  unfold bind at 1.
  match goal with
  | |- context [insert_document raises ?a ?b ?c ?d ?e ?f s1] =>
      pose proof (insert_document_effect raises a b c d e f s1) as Hdoc;
      destruct (insert_document raises a b c d e f s1) as [[i|] s2|s2]
  end; [| |exact I].
  - destruct Hdoc as (_ & -> & ->).
    unfold bind at 1.
    match goal with
    | |- context [attachments_step raises ?d ?m ?st] =>
        destruct (attachments_step_eq raises d m st) as (rows & last & ->)
    end.
    unfold bind at 1.
    match goal with
    | |- context [import_passage raises server ?d ?t ?st] =>
        pose proof (import_passage_effect raises server d t st) as Hp;
        destruct (import_passage raises server d t st) as [[] s4|s4]
    end; [|exact I].
    unfold ret.
    assert (E : document (live s4) = document (live s1) ++ [new_document s1 sid
                  (Py.str (Messages.id row)) (Py.str chat_id) (Messages.date row) cid
                  (default ""%string (Messages.text row))])
      by (destruct (worth_embedding _); subst s4; reflexivity).
    rewrite E, length_app, Hc. reflexivity.
  - destruct Hdoc as (_ & ->). unfold ret. cbn. rewrite Hc. lia.
Qed.

Lemma import_rows_documents chat_id sid rows : forall n s,
  match import_rows raises server chat_id sid rows n s with
  | Ok n' s' =>
      Z.of_nat (length (document (live s'))) - n'
      = Z.of_nat (length (document (live s))) - n
  | Raised _ => True
  end.
Proof.
  induction rows as [|row rows IH]; intros n s; simpl.
  - unfold ret. reflexivity.
  - unfold bind at 1.
    pose proof (import_record_documents chat_id sid row s) as Hrec.
    destruct (import_record raises server chat_id sid row s) as [reached s1|s1]; [|exact I].
    assert (Hrest : forall m s2, live s2 = live s1 ->
              Z.of_nat (length (document (live s1))) - m
              = Z.of_nat (length (document (live s))) - n ->
              match import_rows raises server chat_id sid rows m s2 with
              | Ok n' s' =>
                  Z.of_nat (length (document (live s'))) - n'
                  = Z.of_nat (length (document (live s))) - n
              | Raised _ => True
              end).
    { intros m s2 Hl Hm. specialize (IH m s2). rewrite Hl in IH.
      destruct (import_rows raises server chat_id sid rows m s2); [lia | exact I]. }
    destruct reached.
    + unfold bind. destruct (Z.eqb _ 0).
      * pose proof (commit_spec raises s1) as Hcm.
        destruct (commit raises s1) as [[] s2|s2]; [|exact I].
        apply Hrest; [tauto | lia].
      * unfold ret. apply Hrest; [reflexivity | lia].
    + apply Hrest; [reflexivity | lia].
Qed.

Lemma import_rows_bounds chat_id sid rows : forall n s n' s',
  import_rows raises server chat_id sid rows n s = Ok n' s' ->
  n <= n' <= n + Z.of_nat (length rows).
Proof.
  induction rows as [|row rows IH]; intros n s n' s'; simpl.
  - unfold ret. intros [= <- <-]. lia.
  - intros H. apply bind_Ok in H as (reached & s1 & _ & H).
    destruct reached.
    + apply bind_Ok in H as (u & s2 & _ & H). apply IH in H. lia.
    + apply IH in H. lia.
Qed.

Lemma source_step_documents chat_id src s sid sB :
  match src with
  | Some i => ret i
  | None => bind (insert_source raises (Py.str chat_id) "chat")
              (fun i => bind (commit raises) (fun _ => ret i))
  end s = Ok sid sB ->
  document (live sB) = document (live s) /\
  passage_embedding (live sB) = passage_embedding (live s).
Proof.
  destruct src as [i|].
  - unfold ret. intros [= <- <-]. auto.
  - unfold insert_source, execute, bind, commit, ret.
    destruct (raises (InsertSource _ _)); [discriminate|].
    destruct (existsb _ _); [discriminate|].
    destruct (raises Commit); [discriminate|].
    intros [= <- <-]. auto.
Qed.

End ImportCounts.

(** X13.  The count [import_chat] reports.  When a run in which no
    attachment insert raises completes, the number it reports as imported
    is exactly the number of document rows it added to the committed table,
    and lies between 0 and the number of records read. *)
Theorem import_chat_counts_new_documents
    (raises : Importer.stmt -> bool) (server : string -> Embedding.reply)
    (chat_id : Z) (messages : list Messages.Row)
    (tb0 : Warehouse.tables) (sq0 : Warehouse.sequences) (n : Z) (s' : Warehouse.pg) :
  attachments_accepted raises ->
  Importer.import_chat raises server chat_id messages (Importer.connect tb0 sq0)
    = Importer.Ok n s' ->
  Z.of_nat (length (Warehouse.document (Warehouse.durable s')))
  = Z.of_nat (length (Warehouse.document tb0)) + n /\
  0 <= n <= Z.of_nat (length messages).
Proof.
  unfold Importer.import_chat. intros _ H.
  apply bind_Ok in H as (src & sA & Hsel & H).
  apply bind_Ok in H as (sid & sB & Hsid & H).
  apply bind_Ok in H as (k & sC & Hrows & H).
  apply bind_Ok in H as ([] & sD & Hcommit & H).
  unfold Importer.ret in H. injection H as -> ->.
  assert (HA : sA = Importer.connect tb0 sq0).
  { unfold Importer.select_source, Importer.bind, Importer.execute in Hsel.
    destruct (raises _); [discriminate|]. injection Hsel as _ <-. reflexivity. }
  subst sA.
  apply source_step_documents in Hsid as [HB _].
  pose proof (import_rows_documents raises server chat_id sid messages 0 sB) as Hdocs.
  rewrite Hrows in Hdocs.
  pose proof (import_rows_bounds raises server chat_id sid messages 0 sB n sC Hrows) as Hb.
  pose proof (commit_spec raises sC) as Hc. rewrite Hcommit in Hc.
  destruct Hc as (_ & Hd & _). rewrite Hd.
  rewrite HB in Hdocs. cbn in Hdocs. split; lia.
Qed.

Section EmbeddingRun.
Import Warehouse Importer.
Variable raises : stmt -> bool.
Variable server : string -> Embedding.reply.
Variable tb0 : tables.
Variable P : passage_embedding_row -> Prop.
Hypothesis P_new : forall s text, P (new_embedding server s text).

Lemma embedded_ext tb tb' :
  embedded tb0 P tb -> passage_embedding tb' = passage_embedding tb -> embedded tb0 P tb'.
Proof. intros (news & E & H) E'. exists news. rewrite E'. auto. Qed.

Lemma import_record_embedded chat_id sid row s :
  embedded tb0 P (live s) -> embedded tb0 P (durable s) ->
  match import_record raises server chat_id sid row s with
  | Ok _ s' => embedded tb0 P (live s') /\ embedded tb0 P (durable s')
  | Raised s' => embedded tb0 P (durable s')
  end.
Proof.
  intros Hl Hd. unfold import_record. unfold bind at 1.
  pose proof (resolve_contact_effect raises (Messages.sender row) s) as Hc.
  assert (Hstep : forall s1, contact_step s s1 ->
            embedded tb0 P (live s1) /\ embedded tb0 P (durable s1)).
  { intros s1 ((_ & _ & _ & Ee) & _ & Hdur).
    assert (embedded tb0 P (live s1)) by (apply (embedded_ext (live s)); [exact Hl | exact Ee]).
    split; [assumption|]. destruct Hdur as [-> | ->]; assumption. }
  destruct (resolve_contact raises (Messages.sender row) s) as [cid s1|s1];
    destruct (Hstep s1 Hc) as [Hl1 Hd1]; [|exact Hd1].
  unfold bind at 1.
  match goal with
  | |- context [insert_document raises ?a ?b ?c ?d ?e ?f s1] =>
      pose proof (insert_document_effect raises a b c d e f s1) as Hdoc;
      destruct (insert_document raises a b c d e f s1) as [[i|] s2|s2]
  end.
  - destruct Hdoc as (_ & -> & ->).
    unfold bind at 1.
    match goal with
    | |- context [attachments_step raises ?d ?m ?st] =>
        destruct (attachments_step_eq raises d m st) as (rows & last & ->)
    end.
    unfold bind at 1.
    match goal with
    | |- context [import_passage raises server ?d ?t ?st] =>
        pose proof (import_passage_effect raises server d t st) as Hp;
        destruct (import_passage raises server d t st) as [[] s4|s4]
    end.
    + unfold ret. destruct (worth_embedding _); subst s4; cbn.
      * split; [|exact Hd1].
        destruct Hl1 as (news & En & Hn). eexists (news ++ [_]).
        rewrite En, <- app_assoc. split; [reflexivity|].
        apply Forall_app. split; [exact Hn|]. constructor; [apply P_new | constructor].
      * split; [|exact Hd1]. apply (embedded_ext (live s1)); [exact Hl1 | reflexivity].
    + destruct Hp as (-> & _). exact Hd1.
  - destruct Hdoc as (_ & ->). unfold ret. split; assumption.
  - subst s2. exact Hd1.
Qed.

Lemma import_rows_embedded chat_id sid rows : forall n s,
  embedded tb0 P (live s) -> embedded tb0 P (durable s) ->
  match import_rows raises server chat_id sid rows n s with
  | Ok _ s' => embedded tb0 P (live s') /\ embedded tb0 P (durable s')
  | Raised s' => embedded tb0 P (durable s')
  end.
Proof.
  induction rows as [|row rows IH]; intros n s Hl Hd; simpl.
  - unfold ret. auto.
  - unfold bind at 1.
    pose proof (import_record_embedded chat_id sid row s Hl Hd) as Hrec.
    destruct (import_record raises server chat_id sid row s) as [reached s1|s1];
      [|exact Hrec].
    destruct Hrec as [Hl1 Hd1].
    destruct reached; [|apply IH; assumption].
    unfold bind. destruct (Z.eqb _ 0).
    + unfold commit. destruct (raises Commit); [exact Hd1|].
      apply IH; assumption.
    + unfold ret. apply IH; assumption.
Qed.

Lemma import_chat_embedded chat_id rows s :
  embedded tb0 P (live s) -> embedded tb0 P (durable s) ->
  embedded tb0 P (closed (import_chat raises server chat_id rows s)).
Proof.
  intros Hl Hd. unfold import_chat, select_source, execute.
  unfold bind at 1. unfold bind at 1.
  destruct (raises (SelectSource _)); [exact Hd|].
  unfold bind at 1.
  match goal with
  | |- context [match ?m s with Ok _ _ => _ | Raised _ => _ end] =>
      assert (Hsrc : match m s with
                     | Ok _ s' => embedded tb0 P (live s') /\ embedded tb0 P (durable s')
                     | Raised s' => embedded tb0 P (durable s')
                     end);
      [|destruct (m s) as [sid sB|sB]; [|exact Hsrc]]
  end.
  { destruct (source_id_ <$> find _ _); [unfold ret; auto|].
    unfold insert_source, execute, bind, commit, ret.
    destruct (raises (InsertSource _ _)); [exact Hd|].
    destruct (existsb _ _); [exact Hd|].
    destruct (raises Commit); simpl; auto. }
  destruct Hsrc as [HlB HdB].
  unfold bind at 1.
  pose proof (import_rows_embedded chat_id sid rows 0 sB HlB HdB) as Hrows.
  destruct (import_rows raises server chat_id sid rows 0 sB) as [n sC|sC];
    [|exact Hrows].
  destruct Hrows as [HlC HdC]. unfold bind, ret, commit.
  destruct (raises Commit); simpl; assumption.
Qed.

End EmbeddingRun.

(** X14.  The embeddings a run stores.  When the embedding service never
    answers with an array of rank two or more, every row a run of
    [import_chat] adds to the committed [passage_embedding] table (the run
    completing or not) holds a vector of exactly 1024 entries, the width of
    the column; when the service fails on every request, each of these
    rows holds the zero vector. *)
Theorem stored_embeddings_have_1024_entries
    (raises : Importer.stmt -> bool) (server : string -> Embedding.reply)
    (chat_id : Z) (messages : list Messages.Row)
    (tb0 : Warehouse.tables) (sq0 : Warehouse.sequences) :
  (forall text, rank_le_1 (server text)) ->
  exists news,
    Warehouse.passage_embedding
      (Importer.closed (Importer.import_chat raises server chat_id messages
                          (Importer.connect tb0 sq0)))
    = Warehouse.passage_embedding tb0 ++ news /\
    Forall (fun e => exists entries,
              Warehouse.embedding e = Embedding.Vector entries /\
              length entries = 1024%nat /\
              ((forall text, server text = Embedding.Failure) ->
               entries = replicate 1024 0%Q)) news.
Proof.
  intros Hrank.
  apply (import_chat_embedded raises server tb0).
  - intros s text. cbn [new_embedding Warehouse.embedding].
    destruct (get_embedding_rank_le_1 server text 1024 (Hrank _))
      as (entries & E & Hlen & Hzero & _).
    exists entries. split; [exact E|]. split; [exact Hlen|].
    intros Hdown. apply Hzero. right. right. left. apply Hdown.
  - exists []. rewrite app_nil_r. split; [reflexivity | constructor].
  - exists []. rewrite app_nil_r. split; [reflexivity | constructor].
Qed.

Section AbortFacts.
Import Warehouse Importer.
Variable raises : stmt -> bool.
Variable server : string -> Embedding.reply.

Lemma import_passage_documents document_id text s :
  match import_passage raises server document_id text s with
  | Ok _ s' => document (live s') = document (live s) /\ durable s' = durable s
  | Raised s' => document (live s') = document (live s) /\ durable s' = durable s
  end.
Proof.
  unfold import_passage, insert_passage, insert_passage_embedding, execute, bind, ret.
  destruct (worth_embedding _); [|auto].
  destruct (raises (InsertPassage _ _ _ _ _)); [auto|].
  destruct (raises (InsertPassageEmbedding _ _ _)); simpl; auto.
Qed.

Lemma import_record_pending chat_id sid row s k :
  0 <= k -> pending_within k s ->
  match import_record raises server chat_id sid row s with
  | Ok reached_end s' => pending_within (k + if reached_end then 1 else 0) s'
  | Raised s' => pending_within (k + 1) s'
  end.
Proof.
  intros Hk Hp. unfold import_record. unfold bind at 1.
  pose proof (resolve_contact_effect raises (Messages.sender row) s) as Hc.
  assert (Hstep : forall s1, contact_step s s1 -> pending_within k s1).
  { intros s1 ((Ed & _) & _ & Hdur). unfold pending_within, pending_documents in *.
    destruct Hdur as [-> | ->]; rewrite ?Ed; lia. }
  destruct (resolve_contact raises (Messages.sender row) s) as [cid s1|s1];
    specialize (Hstep s1 Hc); [|unfold pending_within in *; lia].
  unfold bind at 1.
  match goal with
  | |- context [insert_document raises ?a ?b ?c ?d ?e ?f s1] =>
      pose proof (insert_document_effect raises a b c d e f s1) as Hdoc;
      destruct (insert_document raises a b c d e f s1) as [[i|] s2|s2]
  end.
  - destruct Hdoc as (_ & -> & ->).
    unfold bind at 1.
    match goal with
    | |- context [attachments_step raises ?d ?m ?st] =>
        destruct (attachments_step_eq raises d m st) as (rows & last & ->)
    end.
    unfold bind at 1.
    match goal with
    | |- context [import_passage raises server ?d ?t ?st] =>
        pose proof (import_passage_documents d t st) as Hp';
        destruct (import_passage raises server d t st) as [[] s4|s4]
    end; unfold ret; destruct Hp' as [El Ed];
      unfold pending_within, pending_documents in *; rewrite El, Ed; cbn;
      rewrite length_app; cbn; lia.
  - destruct Hdoc as (_ & ->). unfold ret.
    unfold pending_within, pending_documents in *. cbn. lia.
  - subst s2. unfold pending_within in *. lia.
Qed.

Lemma mod_10_succ n :
  0 <= n -> ((n + 1) mod 10 = 0 \/ (n + 1) mod 10 = n mod 10 + 1) /\ 0 <= n mod 10 < 10.
Proof.
  intros Hn.
  pose proof (Z.mod_pos_bound n 10 ltac:(lia)).
  pose proof (Z.mod_pos_bound (n + 1) 10 ltac:(lia)).
  pose proof (Z.div_mod n 10 ltac:(lia)).
  pose proof (Z.div_mod (n + 1) 10 ltac:(lia)).
  lia.
Qed.

Lemma import_rows_pending chat_id sid rows : forall n s,
  0 <= n -> pending_within (n mod 10) s ->
  match import_rows raises server chat_id sid rows n s with
  | Ok n' s' => 0 <= n' /\ pending_within (n' mod 10) s'
  | Raised s' => pending_within 10 s'
  end.
Proof.
  induction rows as [|row rows IH]; intros n s Hn Hp; simpl.
  - unfold ret. auto.
  - unfold bind at 1.
    destruct (mod_10_succ n Hn) as [Hmod Hb].
    pose proof (import_record_pending chat_id sid row s (n mod 10) ltac:(lia) Hp) as Hrec.
    destruct (import_record raises server chat_id sid row s) as [reached s1|s1];
      [|unfold pending_within in *; lia].
    destruct reached.
    + unfold bind. destruct (Z.eqb_spec ((n + 1) mod 10) 0) as [E|E].
      * pose proof (commit_spec raises s1) as Hc.
        destruct (commit raises s1) as [[] s2|s2].
        -- apply IH; [lia|]. rewrite E. destruct Hc as (El & Ed & _).
           unfold pending_within, pending_documents. rewrite El, Ed. lia.
        -- subst s2. unfold pending_within in *. lia.
      * unfold ret. apply IH; [lia|].
        destruct Hmod as [Hmod|Hmod]; [contradiction|]. rewrite Hmod. exact Hrec.
    + apply IH; [exact Hn|]. rewrite Z.add_0_r in Hrec. exact Hrec.
Qed.

End AbortFacts.

(** X22.  What an aborted run loses.  The loop commits after every tenth
    imported record (and whenever it inserts a contact), so when
    [import_chat] raises on a connection that had nothing pending, no
    attachment insert having raised before, at most ten of the documents
    it inserted are not committed, and are lost when the connection is
    closed. *)
Theorem aborted_import_loses_at_most_ten_documents
    (raises : Importer.stmt -> bool) (server : string -> Embedding.reply)
    (chat_id : Z) (messages : list Messages.Row)
    (tb0 : Warehouse.tables) (sq0 : Warehouse.sequences) (s' : Warehouse.pg) :
  attachments_accepted raises ->
  Importer.import_chat raises server chat_id messages (Importer.connect tb0 sq0)
    = Importer.Raised s' ->
  0 <= pending_documents s' <= 10.
Proof.
  unfold Importer.import_chat. intros _ H.
  assert (H0 : pending_within 0 (Importer.connect tb0 sq0)).
  { unfold pending_within, pending_documents. cbn. lia. }
  apply bind_Raised in H as [H|(src & sA & Hsel & H)].
  { unfold Importer.select_source, Importer.bind, Importer.execute in H.
    destruct (raises _); [|discriminate]. injection H as <-.
    unfold pending_within in H0. lia. }
  assert (HA : sA = Importer.connect tb0 sq0).
  { unfold Importer.select_source, Importer.bind, Importer.execute in Hsel.
    destruct (raises _); [discriminate|]. injection Hsel as _ <-. reflexivity. }
  subst sA.
  assert (Hsrc : forall r,
            match src with
            | Some i => Importer.ret i
            | None => Importer.bind (Importer.insert_source raises (Py.str chat_id) "chat")
                        (fun i => Importer.bind (Importer.commit raises)
                                    (fun _ => Importer.ret i))
            end (Importer.connect tb0 sq0) = r ->
            match r with
            | Importer.Ok _ sB => pending_within 0 sB
            | Importer.Raised sB => pending_within 0 sB
            end).
  { intros r <-. destruct src as [i|]; [exact H0|].
    unfold Importer.insert_source, Importer.execute, Importer.bind, Importer.commit,
      Importer.ret.
    destruct (raises (Importer.InsertSource _ _)); [exact H0|].
    destruct (existsb _ _); [exact H0|].
    destruct (raises Importer.Commit); unfold pending_within, pending_documents; cbn; lia. }
  apply bind_Raised in H as [H|(sid & sB & Hsid & H)].
  { specialize (Hsrc _ H). unfold pending_within in Hsrc. lia. }
  specialize (Hsrc _ Hsid). cbn in Hsrc.
  pose proof (import_rows_pending raises server chat_id sid messages 0 sB ltac:(lia) Hsrc)
    as Hrows.
  apply bind_Raised in H as [H|(n & sC & Hn & H)].
  { rewrite H in Hrows. exact Hrows. }
  rewrite Hn in Hrows. destruct Hrows as [Hn0 Hp].
  pose proof (Z.mod_pos_bound n 10 ltac:(lia)).
  apply bind_Raised in H as [H|(u & sD & _ & H)]; [|discriminate H].
  pose proof (commit_spec raises sC) as Hc. rewrite H in Hc. subst s'.
  unfold pending_within in Hp. lia.
Qed.

Section ContactFacts.
Import Warehouse Importer.
Variable raises : stmt -> bool.
Variable server : string -> Embedding.reply.

Lemma distinct_ext tb tb' : distinct_contacts tb -> contact tb' = contact tb -> distinct_contacts tb'.
Proof. unfold distinct_contacts. intros H ->. exact H. Qed.

Lemma distinct_new cs sender i :
  NoDup (map canonical cs) ->
  find (fun r => bool_decide (canonical r = Some sender)) cs = None ->
  NoDup (map canonical (cs ++ [ {| contact_id_ := i; canonical := Some sender |} ])).
Proof.
  intros Hnd Hfind. rewrite map_app. apply NoDup_app. split; [exact Hnd|]. split.
  - intros c Hc Hin. cbn in Hin. apply list_elem_of_singleton in Hin. subst c.
    apply list_elem_of_fmap in Hc as (r & Hr & Hin).
    apply list_elem_of_In in Hin.
    pose proof (find_none _ _ Hfind r Hin) as Hno. cbn in Hno.
    apply bool_decide_eq_false in Hno. congruence.
  - cbn. apply NoDup_singleton.
Qed.

Lemma resolve_contact_distinct sender s :
  distinct_contacts (live s) -> distinct_contacts (durable s) ->
  match resolve_contact raises sender s with
  | Ok _ s1 => distinct_contacts (live s1) /\ distinct_contacts (durable s1)
  | Raised s1 => distinct_contacts (durable s1)
  end.
Proof.
  intros Hl Hd.
  unfold resolve_contact, select_contact, insert_contact, commit, execute, bind, ret.
  destruct sender as [sender|]; [|auto].
  destruct (Py.text_truthy sender); [|auto].
  destruct (raises (SelectContact sender)); [exact Hd|].
  destruct (find _ (contact (live s))) as [r|] eqn:Hfind; cbn [fmap option_fmap option_map];
    [auto|].
  destruct (raises (InsertContact sender)); [exact Hd|].
  destruct (raises Commit); cbn; [exact Hd|].
  assert (distinct_contacts
            {| source := source (live s);
               contact := contact (live s)
                          ++ [ {| contact_id_ := contact_seq (seq s) + 1;
                                  canonical := Some sender |} ];
               document := document (live s); attachment := attachment (live s);
               passage := passage (live s);
               passage_embedding := passage_embedding (live s) |}).
  { unfold distinct_contacts. cbn [contact]. apply distinct_new; assumption. }
  auto.
Qed.

Lemma import_record_distinct chat_id sid row s :
  distinct_contacts (live s) -> distinct_contacts (durable s) ->
  match import_record raises server chat_id sid row s with
  | Ok _ s' => distinct_contacts (live s') /\ distinct_contacts (durable s')
  | Raised s' => distinct_contacts (durable s')
  end.
Proof.
  intros Hl Hd. unfold import_record. unfold bind at 1.
  pose proof (resolve_contact_distinct (Messages.sender row) s Hl Hd) as Hc.
  destruct (resolve_contact raises (Messages.sender row) s) as [cid s1|s1]; [|exact Hc].
  destruct Hc as [Hl1 Hd1].
  unfold bind at 1.
  match goal with
  | |- context [insert_document raises ?a ?b ?c ?d ?e ?f s1] =>
      pose proof (insert_document_effect raises a b c d e f s1) as Hdoc;
      destruct (insert_document raises a b c d e f s1) as [[i|] s2|s2]
  end.
  - destruct Hdoc as (_ & -> & ->).
    unfold bind at 1.
    match goal with
    | |- context [attachments_step raises ?d ?m ?st] =>
        destruct (attachments_step_eq raises d m st) as (rows & last & ->)
    end.
    unfold bind at 1.
    match goal with
    | |- context [import_passage raises server ?d ?t ?st] =>
        pose proof (import_passage_effect raises server d t st) as Hp;
        destruct (import_passage raises server d t st) as [[] s4|s4]
    end.
    + unfold ret.
      assert (Hs4 : contact (live s4) = contact (live s1) /\ durable s4 = durable s1)
        by (destruct (worth_embedding _); subst s4; simpl; auto).
      destruct Hs4 as [Ec ->]. split; [apply (distinct_ext (live s1)); assumption | exact Hd1].
    + destruct Hp as (-> & _). exact Hd1.
  - destruct Hdoc as (_ & ->). unfold ret. split; assumption.
  - subst s2. exact Hd1.
Qed.

Lemma import_rows_distinct chat_id sid rows : forall n s,
  distinct_contacts (live s) -> distinct_contacts (durable s) ->
  match import_rows raises server chat_id sid rows n s with
  | Ok _ s' => distinct_contacts (live s') /\ distinct_contacts (durable s')
  | Raised s' => distinct_contacts (durable s')
  end.
Proof.
  induction rows as [|row rows IH]; intros n s Hl Hd; simpl.
  - unfold ret. auto.
  - unfold bind at 1.
    pose proof (import_record_distinct chat_id sid row s Hl Hd) as Hrec.
    destruct (import_record raises server chat_id sid row s) as [reached s1|s1];
      [|exact Hrec].
    destruct Hrec as [Hl1 Hd1].
    destruct reached; [|apply IH; assumption].
    unfold bind. destruct (Z.eqb _ 0).
    + unfold commit. destruct (raises Commit); [exact Hd1|].
      apply IH; assumption.
    + unfold ret. apply IH; assumption.
Qed.

Lemma import_chat_distinct chat_id rows s :
  distinct_contacts (live s) -> distinct_contacts (durable s) ->
  distinct_contacts (closed (import_chat raises server chat_id rows s)).
Proof.
  intros Hl Hd. unfold import_chat, select_source, execute.
  unfold bind at 1. unfold bind at 1.
  destruct (raises (SelectSource _)); [exact Hd|].
  unfold bind at 1.
  match goal with
  | |- context [match ?m s with Ok _ _ => _ | Raised _ => _ end] =>
      assert (Hsrc : match m s with
                     | Ok _ s' => distinct_contacts (live s') /\ distinct_contacts (durable s')
                     | Raised s' => distinct_contacts (durable s')
                     end);
      [|destruct (m s) as [sid sB|sB]; [|exact Hsrc]]
  end.
  { destruct (source_id_ <$> find _ _); [unfold ret; auto|].
    unfold insert_source, execute, bind, commit, ret.
    destruct (raises (InsertSource _ _)); [exact Hd|].
    destruct (existsb _ _); [exact Hd|].
    destruct (raises Commit); simpl; auto. }
  destruct Hsrc as [HlB HdB].
  unfold bind at 1.
  pose proof (import_rows_distinct chat_id sid rows 0 sB HlB HdB) as Hrows.
  destruct (import_rows raises server chat_id sid rows 0 sB) as [n sC|sC];
    [|exact Hrows].
  destruct Hrows as [HlC HdC]. unfold bind, ret, commit.
  destruct (raises Commit); simpl; assumption.
Qed.

Lemma one_row_per_key {A B} `{EqDecision B} (f : A -> B) (l : list A) (b : B) :
  NoDup (map f l) -> (exists x, x ∈ l /\ f x = b) ->
  length (filter (fun y => f y = b) l) = 1%nat.
Proof.
  induction l as [|a l IH]; intros Hnd (x & Hx & Hfx); [inversion Hx|].
  cbn [map] in Hnd. apply NoDup_cons in Hnd as [Hnotin Hnd].
  rewrite filter_cons. destruct (decide (f a = b)) as [Ea|Ea].
  - cbn [length]. f_equal. rewrite filter_none; [reflexivity|].
    apply Forall_forall. intros y Hy Hfy. apply Hnotin.
    apply list_elem_of_fmap. exists y. split; [congruence | exact Hy].
  - apply IH; [exact Hnd|]. exists x. split; [|exact Hfx].
    apply elem_of_cons in Hx as [->|Hx]; [contradiction | exact Hx].
Qed.

End ContactFacts.

(** X23.  Contacts stay distinct.  The contact table has no uniqueness
    constraint on [canonical]; the lookup before the insert is what keeps
    the texts distinct: if no two contacts share a canonical text before a
    run of [import_chat], none do in what the run commits (completing or
    not), and after a run that completes every sender text of the records
    read has exactly one contact row. *)
Theorem import_keeps_contacts_distinct
    (raises : Importer.stmt -> bool) (server : string -> Embedding.reply)
    (chat_id : Z) (messages : list Messages.Row)
    (tb0 : Warehouse.tables) (sq0 : Warehouse.sequences) :
  distinct_contacts tb0 ->
  distinct_contacts
    (Importer.closed (Importer.import_chat raises server chat_id messages
                        (Importer.connect tb0 sq0))) /\
  (forall n s',
     Importer.import_chat raises server chat_id messages (Importer.connect tb0 sq0)
       = Importer.Ok n s' ->
     forall row sender,
       row ∈ messages -> Messages.sender row = Some sender ->
       Py.text_truthy sender = true ->
       length (filter (fun c => Warehouse.canonical c = Some sender)
                 (Warehouse.contact (Warehouse.durable s'))) = 1%nat).
Proof.
  intros H0.
  pose proof (import_chat_distinct raises server chat_id messages (Importer.connect tb0 sq0)
                H0 H0) as Hd.
  split; [exact Hd|].
  intros n s' E row sender Hrow Hsender Ht.
  rewrite E in Hd. cbn [Importer.closed] in Hd.
  destruct (import_chat_completed raises server chat_id messages _ n s' E)
    as (sid & _ & Hall & Hdur).
  rewrite Forall_forall in Hall. destruct (Hall row Hrow) as [Hc _].
  destruct (Hc sender Hsender Ht) as [r Hr].
  apply one_row_per_key; [exact Hd|].
  rewrite Hdur. apply find_some in Hr as [Hin Hcan].
  exists r. split; [apply list_elem_of_In; exact Hin|].
  apply bool_decide_eq_true in Hcan. exact Hcan.
Qed.

(** ** Choosing the chat to import *)

Section SelectionFacts.
Import Selection.

Lemma find_by_str chats n :
  n ∈ chats -> find (fun chat_id => String.eqb (Py.str chat_id) (Py.str n)) chats = Some n.
Proof.
  induction chats as [|c chats IH]; intros Hin; [inversion Hin|].
  simpl. destruct (String.eqb_spec (Py.str c) (Py.str n)) as [E|E].
  - f_equal. unfold Py.str in E. apply (inj pretty) in E. exact E.
  - apply elem_of_cons in Hin as [->|Hin]; [congruence | exact (IH Hin)].
Qed.

End SelectionFacts.

(** X15.  [select_chat] reads digits as a position.  A line that is the
    decimal text of [n >= 0] selects the chat at position [n] of the list
    when there is one, and is otherwise refused, whether or not a chat has
    the id [n]: a chat whose id is a number above the length of the list
    cannot be chosen by typing its id.  Only a line that is no digit
    text, such as the text of a negative id, is matched against the
    ids. *)
Theorem select_chat_reads_digits_as_position (chats : list Z) (n : Z) (rest : list string) :
  (0 <= n ->
   Selection.select_chat chats (Py.str n :: rest) =
     match Selection.chat_at chats (n - 1) with
     | Some chat_id => Value chat_id
     | None => Selection.select_chat chats rest
     end) /\
  (Z.of_nat (length chats) < n -> n ∈ chats ->
   Selection.select_once chats (Py.str n) = Value None) /\
  (n < 0 -> n ∈ chats -> Selection.select_chat chats (Py.str n :: rest) = Value n).
Proof.
  assert (Hdigits : 0 <= n ->
     Selection.select_chat chats (Py.str n :: rest) =
       match Selection.chat_at chats (n - 1) with
       | Some chat_id => Value chat_id
       | None => Selection.select_chat chats rest
       end).
  { intros Hn. cbn [Selection.select_chat]. unfold Selection.select_once.
    rewrite str_strip, (str_nonneg_isdigit n Hn), (int_str n Hn). reflexivity. }
  split; [exact Hdigits|]. split.
  - intros Hbig _.
    assert (Hn : 0 <= n) by lia.
    unfold Selection.select_once.
    rewrite str_strip, (str_nonneg_isdigit n Hn), (int_str n Hn).
    unfold Selection.chat_at.
    destruct (Z.ltb_spec (n - 1) (Z.of_nat (length chats))); [lia|].
    rewrite andb_false_r. reflexivity.
  - intros Hn Hin. cbn [Selection.select_chat]. unfold Selection.select_once.
    rewrite str_strip, (str_negative_not_isdigit n Hn), (find_by_str chats n Hin).
    reflexivity.
Qed.

(** ** The viewer *)

Section ViewerFacts.
Import Viewer.

Lemma format_messages_ids strftime rows : forall vs,
  format_messages strftime rows = Value vs -> map v_id vs = map Messages.id rows.
Proof.
  induction rows as [|row rows IH]; intros vs; simpl.
  - intros [= <-]. reflexivity.
  - unfold format_message at 1.
    destruct (strftime (Messages.date row)) as [[time date]|]; [|discriminate].
    destruct (format_messages strftime rows) as [vs'|]; [|discriminate].
    intros [= <-]. simpl. rewrite (IH vs' eq_refl). reflexivity.
Qed.

Lemma ltb_length_drop {A} (n : nat) (l : list A) :
  (n <? length l)%nat = true <-> drop n l <> [].
Proof.
  rewrite Nat.ltb_lt. split.
  - intros H E. apply (f_equal length) in E. rewrite length_drop in E. simpl in E. lia.
  - intros H. destruct (Nat.lt_ge_cases n (length l)) as [Hlt|Hge]; [exact Hlt|].
    exfalso. apply H. apply drop_ge. exact Hge.
Qed.

End ViewerFacts.

(** X16.  Paging in [get_chat].  A request that renders returns the ids of
    the (at most) five records from [offset] on in the newest-first order,
    oldest first; the offset it hands out for the next request is
    [offset + 5]; and [has_more] is true exactly when there are records
    from that offset on.  The full view is rendered exactly for offset
    0. *)
Theorem get_chat_pagination
    (strftime : string -> option (string * string))
    (manifest : Manifest.t) (stores : Z -> option (list Messages.Row))
    (chat_id : Z) (offset : nat)
    (initial : bool) (chat : dict) (messages : list Viewer.message_view)
    (next : nat) (has_more : bool) :
  Viewer.get_chat strftime manifest stores chat_id offset
    = Value (Viewer.Rendered initial chat messages next has_more) ->
  exists ordered,
    stores chat_id = Some ordered /\
    map Viewer.v_id messages = rev (map Messages.id (take 5 (drop offset ordered))) /\
    next = (offset + 5)%nat /\
    (has_more = true <-> drop next ordered <> []) /\
    (initial = true <-> offset = 0%nat).
Proof.
  unfold Viewer.get_chat.
  destruct (manifest !! chat_id) as [row|]; [|discriminate].
  destruct (stores chat_id) as [ordered|]; [|discriminate].
  destruct (Viewer.format_messages strftime (take 5 (drop offset ordered))) as [vs|] eqn:E;
    [|discriminate].
  apply format_messages_ids in E.
  destruct (Nat.ltb_spec 0 offset) as [Hpos|Hzero]; intros [= <- <- <- <- <-];
    exists ordered; (split; [reflexivity|]); rewrite map_rev, E.
  - split; [reflexivity|]. split; [reflexivity|]. split; [apply ltb_length_drop|].
    split; [discriminate | lia].
  - assert (offset = 0%nat) as -> by lia.
    split; [reflexivity|]. split; [reflexivity|]. split; [apply ltb_length_drop|].
    split; reflexivity.
Qed.

(** X17.  The participants of a supergroup are stored but not shown.  For a
    channel whose full info gives [n] participants, the manifest row
    written from [get_full_chat_info] holds [n]; [format_chat] passes it on
    for a broadcast channel (type "Channel") and gives None for a
    supergroup (type "Supergroup", which is not among the types it
    tests). *)
Theorem viewer_shows_no_participants_of_supergroup
    (client : Listing.Provider) (dialog_name : string) (i : Z) (username date : option string)
    (broadcast : bool) (full : Listing.ChannelFull) (n : Z) (self : Manifest.t) (now : Z) :
  Listing.GetFullChannelRequest client i = Some full ->
  Listing.participants_count full = Some n ->
  let dialog := {| Listing.name := dialog_name;
                   Listing.entity := Listing.Channel i username broadcast date |} in
  exists row,
    (Manifest.update_chat self (Listing.get_full_chat_info client dialog) now).1 !! i
      = Some row /\
    Manifest.participants_count row = JNum n /\
    dict_get (Viewer.format_chat row) "participants_count"
      = if broadcast then JNum n else JNull.
Proof.
  intros Hfull Hn dialog. subst dialog.
  unfold Manifest.update_chat, Listing.get_full_chat_info.
  cbn [Listing.entity Listing.name Listing.entity_id Manifest.cd_chat_id Manifest.fields].
  rewrite Hfull, Hn.
  destruct (self !! i) as [existing|]; destruct broadcast; cbn;
    rewrite lookup_insert_eq; eexists; (split; [reflexivity|]); cbn; split; reflexivity.
Qed.

(** ** The memo generator *)

Section MemoFacts.
Import Memo.

Lemma format_participant_crawled repr e :
  format_participant repr (Crawler.sender_info e) =
    match username_of e with
    | Some u =>
        if Py.truthy u then
          if bot_of e then JStr ("bot @" ++ u)
          else JStr (Crawler.get_display_name e ++ " (@" ++ u ++ ")")
        else JStr (Crawler.get_display_name e)
    | None => JStr (Crawler.get_display_name e)
    end%string.
Proof.
  unfold format_participant, Crawler.sender_info, PyText.dict_get_default.
  destruct e as [i f l u b|i t|i t u|i]; cbn [username_of bot_of].
  - destruct u as [u|]; destruct b; cbn; try reflexivity; destruct (Py.truthy u); reflexivity.
  - reflexivity.
  - destruct u as [u|]; cbn; try reflexivity; destruct (Py.truthy u); reflexivity.
  - reflexivity.
Qed.

End MemoFacts.

(** X18.  [format_participant] on a sender dict the crawler wrote.  The
    memo reads the keys the crawler writes: the label is "bot @<username>"
    for a bot with a username, "<display name> (@<username>)" for any other
    sender with a username, and the display name otherwise. *)
Theorem memo_participant_of_crawled_sender (repr : json -> string) (e : Telethon.Entity) :
  Memo.format_participant repr (Crawler.sender_info e) =
    match username_of e with
    | Some u =>
        if Py.truthy u then
          if bot_of e then JStr ("bot @" ++ u)
          else JStr (Crawler.get_display_name e ++ " (@" ++ u ++ ")")
        else JStr (Crawler.get_display_name e)
    | None => JStr (Crawler.get_display_name e)
    end%string.
Proof. apply format_participant_crawled. Qed.

Section SkippedMedia.
Import Telethon Crawler.

(** The row one turn of the crawl loop stores for a document over the
    cap. *)
Lemma process_message_over_cap c media_dir stamp st message document :
  media message = Some (MessageMediaDocument (Some document)) ->
  MAX_MEDIA_SIZE < size document ->
  exists row,
    db (process_message c media_dir stamp st message) !! id message = Some row /\
    Messages.media_files row
      = Some (Dumped (JArr [JObj (skipped_descriptor (size document))])) /\
    (Messages.sender row = None \/
     exists e, Messages.sender row = Some (Dumped (JObj (sender_info e)))).
Proof.
  intros Hmedia Hsize. unfold process_message.
  destruct (Limiter.wait (rate_limiter st) (now (env st))) as [rl1 t1].
  rewrite Hmedia. unfold download_media_file. rewrite Hmedia.
  cbn [get_media_size over_cap].
  assert (Hcap : negb (size document =? 0) && (MAX_MEDIA_SIZE <? size document) = true).
  { apply andb_true_iff. split.
    - apply negb_true_iff, Z.eqb_neq. unfold MAX_MEDIA_SIZE in Hsize. lia.
    - apply Z.ltb_lt. exact Hsize. }
  rewrite Hcap. cbn [default].
  unfold Database.insert_message, make_message_data.
  cbn [md_id md_sender md_media_files fst db]. rewrite lookup_insert_eq.
  eexists. split; [reflexivity|]. cbn [Messages.media_files Messages.sender].
  split; [reflexivity|].
  destruct (sender message) as [e|]; [right; exists e; reflexivity | left; reflexivity].
Qed.

End SkippedMedia.

(** X19.  No transcript line for a record with an attachment over the cap.
    For a document larger than [MAX_MEDIA_SIZE] the crawl loop stores the
    'skipped' descriptor, whose 'filename' is None; on that record
    [build_transcript_line] raises (a path cannot be joined with None, and
    only JSONDecodeError is caught there). *)
Theorem memo_fails_on_skipped_media
    (repr : json -> string) (media_path : Z -> string -> string)
    (strftime : string -> option string)
    (c : Telethon.Client) (media_dir : string) (stamp : Q -> string)
    (st : Crawler.loop_state) (message : Telethon.Message) (document : Telethon.Document)
    (chat_id : Z) :
  Telethon.media message = Some (Telethon.MessageMediaDocument (Some document)) ->
  Crawler.MAX_MEDIA_SIZE < Telethon.size document ->
  exists row,
    Crawler.db (Crawler.process_message c media_dir stamp st message) !! Telethon.id message
      = Some row /\
    Memo.build_transcript_line repr media_path strftime (Memo.load_message row) chat_id
      = Exception.
Proof.
  intros Hmedia Hsize.
  destruct (process_message_over_cap c media_dir stamp st message document Hmedia Hsize)
    as (row & Hrow & Hfiles & Hsender).
  exists row. split; [exact Hrow|].
  unfold Memo.build_transcript_line, Memo.sender_of, Memo.media_suffix, Memo.load_message.
  cbn [Memo.m_sender Memo.m_media_files]. rewrite Hfiles.
  destruct Hsender as [->|[e ->]]; reflexivity.
Qed.

(** ** The export tool *)

Section ExportFacts.
Import JsonExport.
Variable reformat : string -> option string.

Lemma export_messages_spec rows :
  match export_messages reformat rows with
  | Exception => exists row, row ∈ rows /\ reformat (Messages.date row) = None
  | Value messages =>
      Forall (fun row => reformat (Messages.date row) <> None) rows /\
      Forall2 (fun row message => export_message reformat row = Value message) rows messages
  end.
Proof.
  induction rows as [|row rows IH]; simpl; [split; constructor|].
  destruct (export_message reformat row) as [message|] eqn:E.
  - assert (Hd : reformat (Messages.date row) <> None).
    { unfold export_message in E. destruct (reformat (Messages.date row)); congruence. }
    destruct (export_messages reformat rows) as [messages|].
    + destruct IH as [Hall Hf2]. split; constructor; assumption.
    + destruct IH as (r & Hr & Hnone). exists r. split; [right; exact Hr | exact Hnone].
  - exists row. split; [left|].
    unfold export_message in E. destruct (reformat (Messages.date row)); [discriminate|].
    reflexivity.
Qed.

End ExportFacts.

(** X20.  The export is all or nothing.  [convert_sqlite_to_json] returns
    False, writing nothing, exactly when some record holds a date text
    that cannot be read; otherwise it writes one dict per record, in
    order, each with the key 'media_files', and with the key 'sender'
    exactly when the record's sender column is not empty. *)
Theorem export_is_all_or_nothing
    (reformat : string -> option string) (rows : list Messages.Row) :
  (JsonExport.convert_sqlite_to_json reformat (Some rows) = None <->
   exists row, row ∈ rows /\ reformat (Messages.date row) = None) /\
  (forall messages,
     JsonExport.convert_sqlite_to_json reformat (Some rows) = Some messages ->
     Forall2 (fun row message =>
                JsonExport.export_message reformat row = Value message /\
                dict_mem message "media_files" = true /\
                (dict_mem message "sender" = true <->
                 exists t, Messages.sender row = Some t /\ Py.text_truthy t = true))
       rows messages).
Proof.
  unfold JsonExport.convert_sqlite_to_json.
  pose proof (export_messages_spec reformat rows) as H.
  destruct (JsonExport.export_messages reformat rows) as [messages|].
  - destruct H as [Hall Hf2]. split.
    + split; [discriminate|]. intros (row & Hin & Hnone).
      rewrite Forall_forall in Hall. destruct (Hall row Hin Hnone).
    + intros ? [= <-]. eapply Forall2_impl; [exact Hf2|].
      intros row message E. split; [exact E|].
      unfold JsonExport.export_message in E.
      destruct (reformat (Messages.date row)) as [date|]; [|discriminate].
      injection E as <-.
      destruct (Messages.sender row) as [t|]; [destruct (Py.text_truthy t) eqn:Et|].
      * split; [reflexivity|]. split; [eauto | reflexivity].
      * split; [reflexivity|]. split; [discriminate|]. intros (t' & [= <-] & Ht). congruence.
      * split; [reflexivity|]. split; [discriminate|]. intros (t' & Ht & _). discriminate.
  - split; [|discriminate]. split; [intros _; exact H | reflexivity].
Qed.

(** X21.  The export reproduces the snapshot.  For a record as the crawl
    loop builds and stores it (its date text reading back as itself), the
    dict the export tool builds from the stored row has the same value
    under every key as the dict the crawler wrote to its JSON
    snapshot. *)
Theorem export_reproduces_snapshot
    (reformat : string -> option string) (message : Telethon.Message)
    (media_info : option dict) (store : Crawler.Database.t) (retrieved : string) :
  let data := Crawler.make_message_data message media_info in
  reformat (Crawler.md_date data) = Some (Crawler.md_date data) ->
  exists row exported,
    (Crawler.Database.insert_message store data retrieved).1 !! Crawler.md_id data = Some row /\
    JsonExport.export_message reformat row = Value exported /\
    forall key, dict_index exported key = dict_index (message_data_dict data) key.
Proof.
  intros data Hdate. subst data.
  unfold Crawler.Database.insert_message. cbn [fst]. rewrite lookup_insert_eq.
  eexists. eexists. split; [reflexivity|].
  unfold JsonExport.export_message. cbn [Messages.date]. rewrite Hdate.
  split; [reflexivity|].
  intros key. unfold message_data_dict, Crawler.make_message_data.
  cbn [Crawler.md_id Crawler.md_date Crawler.md_from_id Crawler.md_text
       Crawler.md_reply_to_msg_id Crawler.md_forward_from Crawler.md_media_type
       Crawler.md_media_files Crawler.md_sender
       Messages.id Messages.from_id Messages.text Messages.reply_to_msg_id
       Messages.forward_from Messages.media_type Messages.sender Messages.media_files].
  assert (Hfiles :
    (let files := match media_info with
                  | Some d => if json_truthy (JObj d) then [d] else []
                  | None => []
                  end in
     match (if json_truthy (JArr (map JObj files))
            then Some (Dumped (JArr (map JObj files))) else None) with
     | Some t => if Py.text_truthy t then default (JArr []) (PyText.loads t) else JArr []
     | None => JArr []
     end = JArr (map JObj files))).
  { destruct media_info as [d|]; [|reflexivity].
    destruct (json_truthy (JObj d)); reflexivity. }
  cbv zeta in Hfiles. rewrite Hfiles. clear Hfiles.
  assert (Hsender :
    match (match Crawler.sender_info <$> Telethon.sender message with
           | Some d => if json_truthy (JObj d) then Some (Dumped (JObj d)) else None
           | None => None
           end) with
    | Some t => if Py.text_truthy t then [("sender"%string, default JNull (PyText.loads t))]
                else []
    | None => []
    end = match Crawler.sender_info <$> Telethon.sender message with
          | Some sender => [("sender"%string, JObj sender)]
          | None => []
          end).
  { destruct (Telethon.sender message) as [e|]; reflexivity. }
  rewrite Hsender. clear Hsender.
  cbn [app dict_index].
  repeat (match goal with
          | |- context [String.eqb ?k key] => destruct (String.eqb_spec k key)
          end; [reflexivity|]).
  destruct (Crawler.sender_info <$> Telethon.sender message); cbn [app dict_index];
    repeat (match goal with
            | |- context [String.eqb ?k key] => destruct (String.eqb_spec k key)
            end);
    congruence.
Qed.

(** ** Instances of the further properties on the example data *)

(** A caller that paces itself, on a limiter for two requests per second and a caller whose calls
    are half a second, one second and three quarters of a second
    apart. *)
Lemma spaced_caller_never_delayed_witness :
  exists self, Limiter.init 2 0 = Some self /\
    Limiter.calls self 10 [1 # 2; 1; 3 # 4]%Q = arrivals 10 [1 # 2; 1; 3 # 4]%Q.
Proof.
  apply (spaced_caller_never_delayed 2 0 10 [1 # 2; 1; 3 # 4]%Q).
  - lia.
  - lra.
  - lra.
  - repeat constructor; vm_compute; discriminate.
Defined.

(** The kind and extension of a photo. *)
Lemma media_type_and_extension_shape_witness :
  "photo"%string ∈ ["photo"; "video"; "audio"; "document"]%string /\
  (exists rest, ".jpg"%string = String "." rest) /\
  no_separator ".jpg" = true.
Proof.
  apply (media_type_and_extension_shape Telethon.MessageMediaPhoto "photo" ".jpg").
  reflexivity.
Defined.

(** A video of exactly the cap, downloaded to an empty directory, and
    the same call made again. *)
Lemma media_file_stays_in_media_dir_witness :
  no_separator "video_7_20240501_102030.mp4" = true /\
  (Crawler.downloads
     (Crawler.download_media_file example_client (example_video Crawler.MAX_MEDIA_SIZE)
        "media" example_limiter empty_world).2
   = Crawler.downloads empty_world \/
   Crawler.downloads
     (Crawler.download_media_file example_client (example_video Crawler.MAX_MEDIA_SIZE)
        "media" example_limiter empty_world).2
   = Crawler.downloads empty_world
     ++ [Py.path_join "media" "video_7_20240501_102030.mp4"]) /\
  exists n,
    Crawler.fs
      (Crawler.download_media_file example_client (example_video Crawler.MAX_MEDIA_SIZE)
         "media" example_limiter empty_world).2
      !! Py.path_join "media" "video_7_20240501_102030.mp4" = Some n /\
    dict_get (Crawler.file_descriptor "video" "video_7_20240501_102030.mp4"
                Crawler.MAX_MEDIA_SIZE) "size" = JNum n.
Proof.
  apply (media_file_stays_in_media_dir example_client (example_video Crawler.MAX_MEDIA_SIZE)
           "media" example_limiter empty_world
           (Crawler.file_descriptor "video" "video_7_20240501_102030.mp4"
              Crawler.MAX_MEDIA_SIZE)
           "video_7_20240501_102030.mp4").
  - vm_compute. reflexivity.
  - reflexivity.
  - reflexivity.
Defined.

Lemma download_media_file_repeat_witness :
  Crawler.download_media_file example_client (example_video Crawler.MAX_MEDIA_SIZE)
    "media" example_limiter
    (Crawler.download_media_file example_client (example_video Crawler.MAX_MEDIA_SIZE)
       "media" example_limiter empty_world).2
  = (Some (Crawler.file_descriptor "video" "video_7_20240501_102030.mp4"
             Crawler.MAX_MEDIA_SIZE),
     example_limiter,
     (Crawler.download_media_file example_client (example_video Crawler.MAX_MEDIA_SIZE)
        "media" example_limiter empty_world).2).
Proof.
  apply (download_media_file_repeat example_client (example_video Crawler.MAX_MEDIA_SIZE)
           "media" example_limiter example_limiter empty_world).
  vm_compute. reflexivity.
Defined.

(** A run on the chat of four messages and a store that holds them all. *)
Lemma crawl_of_up_to_date_store_is_noop_witness :
  (Crawler.download_messages example_chat "media" example_stamp example_full_store
     empty_world).2 = true /\
  Crawler.db (Crawler.download_messages example_chat "media" example_stamp
                example_full_store empty_world).1 = example_full_store /\
  Crawler.visited (Crawler.download_messages example_chat "media" example_stamp
                     example_full_store empty_world).1 = [] /\
  Crawler.messages (Crawler.download_messages example_chat "media" example_stamp
                      example_full_store empty_world).1 = [] /\
  Crawler.fs (Crawler.env (Crawler.download_messages example_chat "media" example_stamp
                             example_full_store empty_world).1) = Crawler.fs empty_world /\
  Crawler.downloads (Crawler.env (Crawler.download_messages example_chat "media"
                                    example_stamp example_full_store empty_world).1)
  = Crawler.downloads empty_world.
Proof.
  apply (crawl_of_up_to_date_store_is_noop example_chat "media" example_stamp
           example_full_store empty_world).
  intros m Hm. unfold example_chat in Hm. cbn [Telethon.history map] in Hm.
  repeat (apply elem_of_cons in Hm as [->|Hm];
          [split; [reflexivity | eexists; vm_compute; reflexivity]|]).
  inversion Hm.
Defined.

(** A run over the chat of four messages that stopped after the
    two newest: messages 5 and 4 are never fetched. *)
Lemma interrupted_sync_leaves_gap_witness :
  Crawler.Database.get_latest_message_id example_interrupted_store = 7 /\
  Forall (fun x => 7 < Telethon.id x)
    (Crawler.visited (Crawler.download_messages example_chat "media" example_stamp
                        example_interrupted_store empty_world).1) /\
  (forall x, x ∈ Telethon.history example_chat -> Telethon.id x < 7 ->
     example_interrupted_store !! Telethon.id x = None ->
     ~ x ∈ Crawler.visited (Crawler.download_messages example_chat "media" example_stamp
                              example_interrupted_store empty_world).1 /\
     Crawler.db (Crawler.download_messages example_chat "media" example_stamp
                   example_interrupted_store empty_world).1 !! Telethon.id x = None).
Proof.
  apply (interrupted_sync_leaves_gap example_chat example_chat "media" example_stamp
           example_loop_state (example_text_message 7) [example_text_message 6]
           empty_world).
  - reflexivity.
  - intros j [row Hrow]. cbn in Hrow. rewrite lookup_empty in Hrow. discriminate.
  - repeat constructor. cbn. lia.
Defined.

(** The manifest that has seen chat 5, updated with a dict that
    carries neither 'phone' nor 'join_date'. *)
Lemma update_chat_overwrites_witness :
  exists row',
    (Manifest.update_chat example_manifest example_chat_data 200).1 !! 5 = Some row' /\
    (forall key col, (key, col) ∈ optional_columns ->
       col row' = dict_get (Manifest.fields example_chat_data) key /\
       (dict_mem (Manifest.fields example_chat_data) key = false -> col row' = JNull)) /\
    (dict_mem (Manifest.fields example_chat_data) "join_date" = false ->
     json_truthy (Manifest.join_date example_manifest_row) = true ->
     Manifest.join_date row' = Manifest.join_date example_manifest_row) /\
    (dict_mem (Manifest.fields example_chat_data) "join_date" = true ->
     Manifest.join_date row' = dict_get (Manifest.fields example_chat_data) "join_date").
Proof.
  apply (update_chat_overwrites example_manifest example_chat_data 200 example_manifest_row).
  - vm_compute. reflexivity.
  - vm_compute. reflexivity.
Defined.

(** A service that answers with two entries, for three wanted. *)
Lemma embedding_is_truncated_or_padded_witness :
  exists entries,
    Embedding.get_embedding_from_server example_server "hello" 3 = Embedding.Vector entries /\
    length entries = 3%nat /\
    (length [1 # 2; 1 # 4]%Q = 3%nat -> entries = [1 # 2; 1 # 4]%Q) /\
    (3 < length [1 # 2; 1 # 4]%Q -> entries = take 3 [1 # 2; 1 # 4]%Q)%nat /\
    (length [1 # 2; 1 # 4]%Q < 3 ->
     entries = [1 # 2; 1 # 4]%Q ++ replicate (3 - length [1 # 2; 1 # 4]%Q) 0%Q)%nat.
Proof.
  apply (embedding_is_truncated_or_padded example_server "hello" 3 [1 # 2; 1 # 4]%Q).
  - reflexivity.
  - reflexivity.
Defined.

(** The end-to-end scenario: three records, three documents. *)
Lemma import_chat_counts_new_documents_witness :
  Z.of_nat (length (Warehouse.document (Warehouse.durable example_first_state)))
  = Z.of_nat (length (Warehouse.document Warehouse.empty_tables)) + 3 /\
  0 <= 3 <= Z.of_nat (length example_rows).
Proof.
  apply (import_chat_counts_new_documents Importer.no_faults example_server 77 example_rows
           Warehouse.empty_tables (Warehouse.seq Warehouse.initial) 3 example_first_state).
  - intros document_id name mime path. reflexivity.
  - vm_compute. reflexivity.
Defined.

(** The end-to-end scenario, with the service that answers with a
    short vector. *)
Lemma stored_embeddings_have_1024_entries_witness :
  exists news,
    Warehouse.passage_embedding
      (Importer.closed (Importer.import_chat Importer.no_faults example_server 77 example_rows
                          (Importer.connect Warehouse.empty_tables
                             (Warehouse.seq Warehouse.initial))))
    = Warehouse.passage_embedding Warehouse.empty_tables ++ news /\
    Forall (fun e => exists entries,
              Warehouse.embedding e = Embedding.Vector entries /\
              length entries = 1024%nat /\
              ((forall text, example_server text = Embedding.Failure) ->
               entries = replicate 1024 0%Q)) news.
Proof.
  apply (stored_embeddings_have_1024_entries Importer.no_faults example_server 77 example_rows
           Warehouse.empty_tables (Warehouse.seq Warehouse.initial)).
  intros text. exact I.
Defined.

(** The second page of a chat of seven records. *)
Lemma get_chat_pagination_witness :
  exists ordered,
    example_stores 5 = Some ordered /\
    map Viewer.v_id (rendered_messages example_page)
      = rev (map Messages.id (take 5 (drop 5 ordered))) /\
    10%nat = (5 + 5)%nat /\
    (false = true <-> drop 10 ordered <> []) /\
    (false = true <-> 5%nat = 0%nat).
Proof.
  apply (get_chat_pagination example_strftime example_manifest example_stores 5 5
           false (rendered_chat example_page) (rendered_messages example_page) 10 false).
  vm_compute. reflexivity.
Defined.

(** A supergroup of 120 participants. *)
Lemma viewer_shows_no_participants_of_supergroup_witness :
  exists row,
    (Manifest.update_chat example_manifest
       (Listing.get_full_chat_info example_provider
          {| Listing.name := "Rocq users";
             Listing.entity := Listing.Channel 9 None false None |}) 200).1 !! 9
      = Some row /\
    Manifest.participants_count row = JNum 120 /\
    dict_get (Viewer.format_chat row) "participants_count" = JNull.
Proof.
  apply (viewer_shows_no_participants_of_supergroup example_provider "Rocq users" 9 None None
           false
           {| Listing.participants_count := Some 120; Listing.online_count := Some 7;
              Listing.kicked_count := None; Listing.left_count := None;
              Listing.messages_count := None |}
           120 example_manifest 200).
  - reflexivity.
  - reflexivity.
Defined.

(** The video of 60 MiB, crawled and then put in a memo. *)
Lemma memo_fails_on_skipped_media_witness :
  exists row,
    Crawler.db (Crawler.process_message example_client "media" example_stamp
                  example_loop_state (example_video (60 * 1024 * 1024))) !! 7 = Some row /\
    Memo.build_transcript_line (fun _ => ""%string) (fun _ filename => filename)
      (fun _ => None) (Memo.load_message row) 77 = Exception.
Proof.
  apply (memo_fails_on_skipped_media (fun _ => ""%string) (fun _ filename => filename)
           (fun _ => None) example_client "media" example_stamp example_loop_state
           (example_video (60 * 1024 * 1024))
           {| Telethon.size := 60 * 1024 * 1024;
              Telethon.mime_type := Some "video/mp4"%string;
              Telethon.attributes := [] |} 77).
  - reflexivity.
  - reflexivity.
Defined.

(** A text message, with a clock that reads every date text back
    as it is. *)
Lemma export_reproduces_snapshot_witness :
  exists row exported,
    (Crawler.Database.insert_message ∅
       (Crawler.make_message_data (example_text_message 7) None)
       "2024-06-01T08:00:00+00:00").1 !! 7 = Some row /\
    JsonExport.export_message Some row = Value exported /\
    forall key, dict_index exported key
                = dict_index (message_data_dict
                                (Crawler.make_message_data (example_text_message 7) None)) key.
Proof.
  apply (export_reproduces_snapshot Some (example_text_message 7) None ∅
           "2024-06-01T08:00:00+00:00").
  reflexivity.
Defined.

(** The run that aborts on the record with the unreadable date. *)
Lemma aborted_import_loses_at_most_ten_documents_witness :
  0 <= pending_documents example_aborted_state <= 10.
Proof.
  apply (aborted_import_loses_at_most_ten_documents reject_bad_date example_server 77
           example_rows_bad_date Warehouse.empty_tables (Warehouse.seq Warehouse.initial)
           example_aborted_state).
  - intros document_id name mime path. reflexivity.
  - vm_compute. reflexivity.
Defined.

(** The end-to-end scenario on the empty database. *)
Lemma import_keeps_contacts_distinct_witness :
  distinct_contacts
    (Importer.closed (Importer.import_chat Importer.no_faults example_server 77 example_rows
                        (Importer.connect Warehouse.empty_tables
                           (Warehouse.seq Warehouse.initial)))) /\
  (forall n s',
     Importer.import_chat Importer.no_faults example_server 77 example_rows
       (Importer.connect Warehouse.empty_tables (Warehouse.seq Warehouse.initial))
       = Importer.Ok n s' ->
     forall row sender,
       row ∈ example_rows -> Messages.sender row = Some sender ->
       Py.text_truthy sender = true ->
       length (filter (fun c => Warehouse.canonical c = Some sender)
                 (Warehouse.contact (Warehouse.durable s'))) = 1%nat).
Proof.
  apply (import_keeps_contacts_distinct Importer.no_faults example_server 77 example_rows
           Warehouse.empty_tables (Warehouse.seq Warehouse.initial)).
  constructor.
Defined.
